(** * Secret storage over raw HID: a shallow embedding of
      [qmk/secret_storage.c] and the properties of its protocol.

    The firmware keeps a small blob in the tail of the on-die flash and
    serves four commands (INFO, READ, WRITE, ERASE) arriving in 32-byte
    raw HID frames.  The embedding follows the C text function by
    function: 32-bit unsigned arithmetic is [Z] reduced modulo [2^32],
    the request/response frame is a [list Z] of bytes, the flash is a map
    from flash offsets to bytes, and the two volatile flags together with
    the scratch sector live in an explicit [state] record. *)

From Stdlib Require Import ZArith Lia Bool List.
From stdpp Require Import base list.

Local Open Scope Z_scope.

(** ** Protocol constants (the [#define]s of the C file) *)

Definition SECRET_CMD_INFO  : Z := 0xA0.
Definition SECRET_CMD_READ  : Z := 0xA1.
Definition SECRET_CMD_WRITE : Z := 0xA2.
Definition SECRET_CMD_ERASE : Z := 0xA3.

Definition SECRET_STATUS_OK    : Z := 0x00.
Definition SECRET_STATUS_ERR   : Z := 0x01.
Definition SECRET_STATUS_BUSY  : Z := 0x02.
Definition SECRET_STATUS_RANGE : Z := 0x03.
Definition SECRET_STATUS_ALIGN : Z := 0x04.
Definition SECRET_STATUS_ABORT : Z := 0x05.

Definition SECRET_MAX_READ  : Z := 28.
Definition SECRET_MAX_WRITE : Z := 26.

(** Size of the raw HID frame: [uint8_t req[32]]. *)
Definition FRAME_SIZE : nat := 32.

(** ** Build-time geometry

    The macros below come from the board configuration and from the Pico
    SDK; the C file only uses them.  They are kept as fields of a record
    so that every definition is parametric in the build. *)

Record config : Type := mkConfig {
  PICO_FLASH_SIZE_BYTES      : Z;
  WEAR_LEVELING_BACKING_SIZE : Z;
  SECRET_STORAGE_SIZE        : Z;
  FLASH_SECTOR_SIZE          : Z;
  FLASH_PAGE_SIZE            : Z;
  XIP_BASE                   : Z;
  KC_ESC                     : Z
}.

(** [#define SECRET_STORAGE_BASE (PICO_FLASH_SIZE_BYTES -
    WEAR_LEVELING_BACKING_SIZE - SECRET_STORAGE_SIZE)] *)
Definition SECRET_STORAGE_BASE (c : config) : Z :=
  PICO_FLASH_SIZE_BYTES c - WEAR_LEVELING_BACKING_SIZE c - SECRET_STORAGE_SIZE c.

(** The five [_Static_assert]s of the C file, followed by the facts about
    the flash part that the code relies on without asserting them: the
    sector size is a power of two (the code masks with
    [~(FLASH_SECTOR_SIZE - 1)]), pages tile a sector, and flash offsets
    fit 32 bits with one sector to spare. *)
Record config_ok (c : config) : Prop := mkConfigOk {
  assert_storage_pos     : 0 < SECRET_STORAGE_SIZE c;
  assert_storage_aligned : SECRET_STORAGE_SIZE c mod FLASH_SECTOR_SIZE c = 0;
  assert_backing_aligned : WEAR_LEVELING_BACKING_SIZE c mod FLASH_SECTOR_SIZE c = 0;
  assert_base_aligned    : SECRET_STORAGE_BASE c mod FLASH_SECTOR_SIZE c = 0;
  assert_fits            : SECRET_STORAGE_SIZE c + WEAR_LEVELING_BACKING_SIZE c
                           <= PICO_FLASH_SIZE_BYTES c;
  hw_backing_nonneg      : 0 <= WEAR_LEVELING_BACKING_SIZE c;
  hw_sector_pow2         : exists k, 0 <= k <= 32 /\ FLASH_SECTOR_SIZE c = 2 ^ k;
  hw_page_pos            : 0 < FLASH_PAGE_SIZE c;
  hw_page_tiles          : FLASH_SECTOR_SIZE c mod FLASH_PAGE_SIZE c = 0;
  hw_flash_32bit         : PICO_FLASH_SIZE_BYTES c + FLASH_SECTOR_SIZE c <= 2 ^ 32;
  hw_xip_32bit           : 0 <= XIP_BASE c < 2 ^ 32
}.

(** The build of the specification's worked example on an RP2040 board:
    2 MiB of flash, 8 KiB of wear-leveling backing store, a 4 KiB secret
    region, 4 KiB sectors, 256-byte pages, flash mapped at [0x10000000],
    and the HID usage code of Escape. *)
Definition rp2040_example : config :=
  {| PICO_FLASH_SIZE_BYTES      := 2097152;
     WEAR_LEVELING_BACKING_SIZE := 8192;
     SECRET_STORAGE_SIZE        := 4096;
     FLASH_SECTOR_SIZE          := 4096;
     FLASH_PAGE_SIZE            := 256;
     XIP_BASE                   := 0x10000000;
     KC_ESC                     := 0x29 |}.

(** ** Machine arithmetic *)

(** Reduction of a value to [uint32_t]. *)
Definition u32 (x : Z) : Z := x mod 2 ^ 32.

(** ** Byte buffers *)

(** [buf[i]] for an index known to be in range. *)
Definition byte_at (buf : list Z) (i : nat) : Z := default 0 (buf !! i).

(** The [n] bytes starting at [buf + pos], as [memcpy] reads them; [None]
    when the range leaves the array. *)
Definition frame_slice (buf : list Z) (pos n : nat) : option (list Z) :=
  if (pos + n <=? length buf)%nat then Some (take n (drop pos buf)) else None.

(** [memcpy(dst + pos, src, length src)]. *)
Definition memcpy_at (dst : list Z) (pos : nat) (src : list Z) : list Z :=
  take pos dst ++ src ++ drop (pos + length src) dst.

(** [memset(dst + pos, v, n)]. *)
Definition memset_at (dst : list Z) (pos : nat) (v : Z) (n : nat) : list Z :=
  memcpy_at dst pos (replicate n v).

(** [read_u32_be(p)] with [p = buf + pos]. *)
Definition read_u32_be (buf : list Z) (pos : nat) : Z :=
  Z.lor (Z.lor (Z.lor (u32 (Z.shiftl (byte_at buf pos) 24))
                      (u32 (Z.shiftl (byte_at buf (pos + 1)) 16)))
               (u32 (Z.shiftl (byte_at buf (pos + 2)) 8)))
        (byte_at buf (pos + 3)).

(** [write_u32_be(p, v)] with [p = buf + pos]. *)
Definition write_u32_be (buf : list Z) (pos : nat) (v : Z) : list Z :=
  let buf := <[pos := Z.land (Z.shiftr v 24) 0xFF]> buf in
  let buf := <[(pos + 1)%nat := Z.land (Z.shiftr v 16) 0xFF]> buf in
  let buf := <[(pos + 2)%nat := Z.land (Z.shiftr v 8) 0xFF]> buf in
  <[(pos + 3)%nat := Z.land v 0xFF]> buf.

(** ** Flash hardware

    The flash array is addressed by flash offset.  The SDK primitives
    are outside the repository; they are modelled by their hardware
    contract: an erase fills the range with [0xFF], programming can only
    clear bits (each cell becomes the bitwise AND of its content and the
    programmed byte), and the execute-in-place window at [XIP_BASE]
    aliases the array for reads. *)

Definition flash_mem : Type := Z -> Z.

Definition flash_range_erase (f : flash_mem) (flash_offs count : Z) : flash_mem :=
  fun a => if (flash_offs <=? a) && (a <? flash_offs + count) then 0xFF else f a.

Definition flash_range_program (f : flash_mem) (flash_offs : Z) (data : list Z)
  : flash_mem :=
  fun a =>
    if (flash_offs <=? a) && (a <? flash_offs + Z.of_nat (length data))
    then Z.land (f a) (byte_at data (Z.to_nat (a - flash_offs)))
    else f a.

(** ** Key events and the firmware state *)

Record keyevent_t : Type := mkKeyEvent { pressed : bool }.
Record keyrecord_t : Type := mkKeyRecord { event : keyevent_t }.

(** The statics of the C file ([secret_busy], [secret_abort],
    [secret_sector_buf]), the flash array, and the key events that will
    reach the firmware while a command is being served.  [pending] is a
    schedule: its head holds the events that arrive before the next
    point at which the code looks at [secret_abort] or clears
    [secret_busy]. *)
Record state : Type := mkState {
  secret_busy       : bool;
  secret_abort      : bool;
  secret_sector_buf : list Z;
  flash             : flash_mem;
  pending           : list (list (Z * keyrecord_t))
}.

Definition set_busy (b : bool) (st : state) : state :=
  mkState b (secret_abort st) (secret_sector_buf st) (flash st) (pending st).
Definition set_abort (b : bool) (st : state) : state :=
  mkState (secret_busy st) b (secret_sector_buf st) (flash st) (pending st).
Definition set_sector_buf (buf : list Z) (st : state) : state :=
  mkState (secret_busy st) (secret_abort st) buf (flash st) (pending st).
Definition set_flash (f : flash_mem) (st : state) : state :=
  mkState (secret_busy st) (secret_abort st) (secret_sector_buf st) f (pending st).
Definition set_pending (p : list (list (Z * keyrecord_t))) (st : state) : state :=
  mkState (secret_busy st) (secret_abort st) (secret_sector_buf st) (flash st) p.

(** Results of running a piece of the firmware: it finishes with a value,
    it reads outside an array (undefined behaviour in C), or the
    iteration budget of the model is exhausted. *)
Inductive outcome (A : Type) : Type :=
| Done (a : A)
| OutOfBounds
| OutOfFuel.
Arguments Done {A} a.
Arguments OutOfBounds {A}.
Arguments OutOfFuel {A}.

Section Firmware.

Context (cfg : config).

Local Abbreviation SECTOR := (FLASH_SECTOR_SIZE cfg).
Local Abbreviation PAGE := (FLASH_PAGE_SIZE cfg).

(** Byte seen through the XIP window at pointer [ptr]. *)
Definition xip_byte (f : flash_mem) (ptr : Z) : Z := f (u32 (ptr - XIP_BASE cfg)).

(** [memcpy] of [n] bytes out of the XIP window, starting at [ptr]. *)
Definition xip_read (f : flash_mem) (ptr : Z) (n : nat) : list Z :=
  map (fun i => xip_byte f (u32 (ptr + Z.of_nat i))) (seq 0 n).

(** [secret_flash_offset] *)
Definition secret_flash_offset (offset : Z) : Z :=
  u32 (SECRET_STORAGE_BASE cfg + offset).

(** [secret_read_bytes]: the bytes stored at [dst]. *)
Definition secret_read_bytes (offset : Z) (length : Z) (st : state) : list Z :=
  let src := u32 (XIP_BASE cfg + secret_flash_offset offset) in
  xip_read (flash st) src (Z.to_nat length).

(** [secret_storage_process_record_user] *)
Definition secret_storage_process_record_user
    (keycode : Z) (record : keyrecord_t) (st : state) : bool * state :=
  if secret_busy st then
    (false,
     if pressed (event record) && (keycode =? KC_ESC cfg)
     then set_abort true st else st)
  else (true, st).

(** Delivery of a batch of key events to the hook. *)
Definition deliver (evs : list (Z * keyrecord_t)) (st : state) : state :=
  fold_left (fun s e => snd (secret_storage_process_record_user (fst e) (snd e) s))
            evs st.

(** The events of the next slot of the schedule reach the hook.  The
    hook runs asynchronously to the dispatcher; since [secret_abort] is
    only raised while [secret_busy] is up and only read at the loop heads
    of the engines and after [secret_busy] is cleared, it is enough to
    deliver the events that arrived since the previous such point right
    before each volatile read of [secret_abort] in a loop and right before
    the assignment [secret_busy = false]. *)
Definition poll (st : state) : state :=
  match pending st with
  | [] => st
  | evs :: rest => deliver evs (set_pending rest st)
  end.

(** The loop of [secret_erase_range]:
    [for (addr = start; addr < end; addr += FLASH_SECTOR_SIZE)]. *)
Fixpoint erase_loop (fuel : nat) (addr end_ : Z) (st : state)
  : outcome (bool * state) :=
  match fuel with
  | O => OutOfFuel
  | S fuel' =>
      if addr <? end_ then
        let st := poll st in
        if secret_abort st then Done (false, st)
        else
          let st := set_flash (flash_range_erase (flash st) addr SECTOR) st in
          erase_loop fuel' (u32 (addr + SECTOR)) end_ st
      else Done (true, st)
  end.

(** [secret_erase_range] *)
Definition secret_erase_range (fuel : nat) (offset length : Z) (st : state)
  : outcome (bool * state) :=
  if negb (offset mod SECTOR =? 0) || negb (length mod SECTOR =? 0) then
    Done (false, st)
  else
    let start := secret_flash_offset offset in
    let end_ := u32 (start + length) in
    erase_loop fuel start end_ st.

(** The programming loop of [secret_write_bytes]:
    [for (i = 0; i < FLASH_SECTOR_SIZE; i += FLASH_PAGE_SIZE)], with
    [n] the number of pages left. *)
Fixpoint program_pages (n : nat) (i : Z) (sector_start : Z) (buf : list Z)
    (f : flash_mem) : flash_mem :=
  match n with
  | O => f
  | S n' =>
      let page := take (Z.to_nat PAGE) (drop (Z.to_nat i) buf) in
      program_pages n' (i + PAGE) sector_start buf
                    (flash_range_program f (sector_start + i) page)
  end.

(** Number of iterations of the programming loop. *)
Definition pages_per_sector : nat := Z.to_nat ((SECTOR + PAGE - 1) / PAGE).

(** The loop of [secret_write_bytes]: [while (length > 0)].  The source
    pointer is the pair of the request array and an index into it. *)
Fixpoint write_loop (fuel : nat) (addr : Z) (req : list Z) (src : nat)
    (length : Z) (st : state) : outcome (bool * state) :=
  match fuel with
  | O => OutOfFuel
  | S fuel' =>
      if 0 <? length then
        let st := poll st in
        if secret_abort st then Done (false, st)
        else
          let sector_start := Z.land addr (u32 (Z.lnot (SECTOR - 1))) in
          let sector_offset := u32 (addr - sector_start) in
          let chunk := u32 (SECTOR - sector_offset) in
          let chunk := if chunk >? length then length else chunk in
          let buf := xip_read (flash st) (u32 (XIP_BASE cfg + sector_start))
                              (Z.to_nat SECTOR) in
          match frame_slice req src (Z.to_nat chunk) with
          | None => OutOfBounds
          | Some bytes =>
              let buf := memcpy_at buf (Z.to_nat sector_offset) bytes in
              let f := flash_range_erase (flash st) sector_start SECTOR in
              let f := program_pages pages_per_sector 0 sector_start buf f in
              let st := set_flash f (set_sector_buf buf st) in
              write_loop fuel' (u32 (addr + chunk)) req (src + Z.to_nat chunk)%nat
                         (u32 (length - chunk)) st
          end
      else Done (true, st)
  end.

(** [secret_write_bytes] *)
Definition secret_write_bytes (fuel : nat) (offset : Z) (req : list Z) (src : nat)
    (length : Z) (st : state) : outcome (bool * state) :=
  write_loop fuel (secret_flash_offset offset) req src length st.

(** *** The dispatcher *)

(** One of the four command codes. *)
Definition is_command (cmd : Z) : bool :=
  (cmd =? SECRET_CMD_INFO) || (cmd =? SECRET_CMD_READ)
  || (cmd =? SECRET_CMD_WRITE) || (cmd =? SECRET_CMD_ERASE).

(** The INFO branch: fills the descriptor behind [p = data + base]. *)
Definition info_response (data : list Z) (p : nat) : list Z :=
  let data := <[(p + 1)%nat := SECRET_STATUS_OK]> data in
  let data := write_u32_be data (p + 2) (u32 (SECRET_STORAGE_SIZE cfg)) in
  let data := write_u32_be data (p + 6) (u32 (PICO_FLASH_SIZE_BYTES cfg)) in
  let data := write_u32_be data (p + 10) (u32 (WEAR_LEVELING_BACKING_SIZE cfg)) in
  let data := write_u32_be data (p + 14) (u32 (SECRET_STORAGE_BASE cfg)) in
  let data := <[(p + 18)%nat := SECRET_MAX_READ]> data in
  <[(p + 19)%nat := SECRET_MAX_WRITE]> data.

(** The status reported after an engine call: [p[1] = SECRET_STATUS_ABORT]
    if the abort flag is up, else the engine's verdict. *)
Definition engine_status (ok : bool) (st : state) : Z :=
  if secret_abort st then SECRET_STATUS_ABORT
  else if ok then SECRET_STATUS_OK else SECRET_STATUS_ERR.

(** The part of [raw_hid_receive_kb] after the framing is known: [base]
    is 0 or 1, [cmd] the command byte, [req] the private copy of the
    request and [data] the buffer that becomes the response. *)
Definition serve (fuel : nat) (base : nat) (cmd : Z) (req data : list Z)
    (st : state) : outcome (list Z * state) :=
  let r := base in
  let p := base in
  let data := memset_at data 1 0 31 in
  let data := if (base =? 1)%nat then <[0%nat := byte_at req 0]> data else data in
  if cmd =? SECRET_CMD_INFO then Done (info_response data p, st)
  else if secret_busy st then
    Done (<[(p + 1)%nat := SECRET_STATUS_BUSY]> data, st)
  else if cmd =? SECRET_CMD_READ then
    let offset := read_u32_be req (r + 1) in
    let size := byte_at req (r + 5) in
    if (size =? 0) || (size >? SECRET_MAX_READ) then
      Done (<[(p + 1)%nat := SECRET_STATUS_ERR]> data, st)
    else if u32 (offset + size) >? SECRET_STORAGE_SIZE cfg then
      Done (<[(p + 1)%nat := SECRET_STATUS_RANGE]> data, st)
    else
      let st := set_abort false (set_busy true st) in
      let data := memcpy_at data (p + 3) (secret_read_bytes offset size st) in
      let st := set_busy false (poll st) in
      if secret_abort st then
        Done (<[(p + 1)%nat := SECRET_STATUS_ABORT]> data, st)
      else
        Done (<[(p + 2)%nat := size]> (<[(p + 1)%nat := SECRET_STATUS_OK]> data), st)
  else if cmd =? SECRET_CMD_WRITE then
    let offset := read_u32_be req (r + 1) in
    let size := byte_at req (r + 5) in
    if (size =? 0) || (size >? SECRET_MAX_WRITE) then
      Done (<[(p + 1)%nat := SECRET_STATUS_ERR]> data, st)
    else if u32 (offset + size) >? SECRET_STORAGE_SIZE cfg then
      Done (<[(p + 1)%nat := SECRET_STATUS_RANGE]> data, st)
    else
      let st := set_abort false (set_busy true st) in
      match secret_write_bytes fuel offset req (r + 6) size st with
      | Done (ok, st) =>
          let st := set_busy false (poll st) in
          Done (<[(p + 1)%nat := engine_status ok st]> data, st)
      | OutOfBounds => OutOfBounds
      | OutOfFuel => OutOfFuel
      end
  else if cmd =? SECRET_CMD_ERASE then
    let offset := read_u32_be req (r + 1) in
    let size := read_u32_be req (r + 5) in
    if size =? 0 then
      Done (<[(p + 1)%nat := SECRET_STATUS_ERR]> data, st)
    else if u32 (offset + size) >? SECRET_STORAGE_SIZE cfg then
      Done (<[(p + 1)%nat := SECRET_STATUS_RANGE]> data, st)
    else if negb (offset mod SECTOR =? 0) || negb (size mod SECTOR =? 0) then
      Done (<[(p + 1)%nat := SECRET_STATUS_ALIGN]> data, st)
    else
      let st := set_abort false (set_busy true st) in
      match secret_erase_range fuel offset size st with
      | Done (ok, st) =>
          let st := set_busy false (poll st) in
          Done (<[(p + 1)%nat := engine_status ok st]> data, st)
      | OutOfBounds => OutOfBounds
      | OutOfFuel => OutOfFuel
      end
  else Done (data, st).

(** [raw_hid_receive_kb]: [data] is the transport's buffer, read as the
    request and left holding the response. *)
Definition raw_hid_receive_kb (fuel : nat) (data : list Z) (st : state)
  : outcome (list Z * state) :=
  match frame_slice data 0 FRAME_SIZE with
  | None => OutOfBounds
  | Some req =>
      let cmd := byte_at req 0 in
      if negb (is_command cmd) then
        let shifted := byte_at req 1 in
        if is_command shifted then serve fuel 1 shifted req data st
        else Done (<[0%nat := 0xFF]> data, st)
      else serve fuel 0 cmd req data st
  end.

End Firmware.

(** ** Observations on responses and frames *)

(** Frames hold bytes. *)
Definition bytes_ok (l : list Z) : Prop := Forall (fun b => 0 <= b < 256) l.

(** The same, as a test. *)
Definition bytes_okb (l : list Z) : bool :=
  forallb (fun b => (0 <=? b) && (b <? 256)) l.

(** Flash cells hold bytes. *)
Definition flash_ok (f : flash_mem) : Prop := forall a, 0 <= f a < 256.

(** The four bytes of [v] in big-endian order. *)
Definition u32be_bytes (v : Z) : list Z :=
  [v / 2 ^ 24 mod 256; v / 2 ^ 16 mod 256; v / 2 ^ 8 mod 256; v mod 256].

(** An idle firmware with the given flash content and event schedule. *)
Definition idle (f : flash_mem) (evs : list (list (Z * keyrecord_t))) : state :=
  mkState false false [] f evs.

(** A press or release of key [kc]. *)
Definition key (kc : Z) (down : bool) : Z * keyrecord_t :=
  (kc, mkKeyRecord (mkKeyEvent down)).

(** [data] carries command [cmd] with its command byte at index [base]:
    unprefixed when byte 0 is the command, prefixed by a report ID when
    byte 0 is no command code and byte 1 is the command. *)
Definition framed (base : nat) (cmd : Z) (data : list Z) : Prop :=
  is_command cmd = true
  /\ ((base = 0%nat /\ byte_at data 0 = cmd)
      \/ (base = 1%nat /\ is_command (byte_at data 0) = false /\ byte_at data 1 = cmd)).

(** The response buffer once its tail is cleared: the first byte of the
    request followed by 31 zero bytes. *)
Definition cleared (data : list Z) : list Z := byte_at data 0 :: replicate 31 0.

(** The response with status [status] behind the command byte at [base]
    and nothing else. *)
Definition status_only (base : nat) (status : Z) (data : list Z) : list Z :=
  <[(base + 1)%nat := status]> (cleared data).

(** The INFO descriptor laid out in [resp] with its status byte at index
    [at_]: status, four big-endian 32-bit fields, two size bytes. *)
Definition info_layout (cfg : config) (resp : list Z) (at_ : nat) : Prop :=
  byte_at resp at_ = SECRET_STATUS_OK
  /\ frame_slice resp (at_ + 1) 4 = Some (u32be_bytes (SECRET_STORAGE_SIZE cfg))
  /\ frame_slice resp (at_ + 5) 4 = Some (u32be_bytes (PICO_FLASH_SIZE_BYTES cfg))
  /\ frame_slice resp (at_ + 9) 4 = Some (u32be_bytes (WEAR_LEVELING_BACKING_SIZE cfg))
  /\ frame_slice resp (at_ + 13) 4 = Some (u32be_bytes (SECRET_STORAGE_BASE cfg))
  /\ byte_at resp (at_ + 17) = 28
  /\ byte_at resp (at_ + 18) = 26.

(** The [n] flash bytes from flash offset [a] on. *)
Definition flash_bytes (f : flash_mem) (a : Z) (n : nat) : list Z :=
  map (fun i => f (a + Z.of_nat i)) (seq 0 n).

(** A response [r1] in the report-ID-prefixed framing as seen next to the
    response [r0] to the same request without the prefix: byte 0 is the
    report ID [id], the command position is cleared, and from the status
    on every byte sits one place further back. *)
Definition prefixed_view (id : Z) (r1 r0 : list Z) : Prop :=
  length r1 = FRAME_SIZE /\ length r0 = FRAME_SIZE
  /\ byte_at r1 0 = id /\ byte_at r1 1 = 0
  /\ forall j, (1 <= j <= 30)%nat -> byte_at r1 (j + 1) = byte_at r0 j.

(** ** Sample frames and states *)

(** A flash in the erased state. *)
Definition erased_flash : flash_mem := fun _ => 0xFF.

(** A 32-byte frame that starts with [hd] and is padded with zeros. *)
Definition frame_of (hd : list Z) : list Z :=
  hd ++ replicate (FRAME_SIZE - length hd) 0.

(** An erased flash except for one marked byte just below the secret
    region of [rp2040_example]. *)
Definition marked_flash : flash_mem :=
  fun a => if a =? SECRET_STORAGE_BASE rp2040_example - 1 then 0x5A else 0xFF.

(** A build with a two-sector secret region. *)
Definition rp2040_wide : config :=
  {| PICO_FLASH_SIZE_BYTES      := 2097152;
     WEAR_LEVELING_BACKING_SIZE := 8192;
     SECRET_STORAGE_SIZE        := 8192;
     FLASH_SECTOR_SIZE          := 4096;
     FLASH_PAGE_SIZE            := 256;
     XIP_BASE                   := 0x10000000;
     KC_ESC                     := 0x29 |}.

(** A flash holding zeros. *)
Definition zero_flash : flash_mem := fun _ => 0.

(** The payload [0x01 .. 0x1A] of the specification's example. *)
Definition sample_payload : list Z := map Z.of_nat (seq 1 26).

(** WRITE of [sample_payload] at offset 0, and READ of 26 bytes there. *)
Definition sample_write : list Z := frame_of ([0xA2; 0; 0; 0; 0; 26] ++ sample_payload).
Definition sample_read : list Z := frame_of [0xA1; 0; 0; 0; 0; 26].

(** ERASE of both sectors of [rp2040_wide], and a WRITE of ten bytes
    that straddles its sector boundary (offset 4090). *)
Definition sample_erase : list Z := frame_of [0xA3; 0; 0; 0; 0; 0; 0; 0x20; 0].
Definition sample_straddle : list Z :=
  frame_of [0xA2; 0; 0; 0x0F; 0xFA; 10; 1; 2; 3; 4; 5; 6; 7; 8; 9; 10].

(** One quiet slot, then a press of Escape. *)
Definition escape_second : list (list (Z * keyrecord_t)) := [[]; [key 0x29 true]].

(** ** Asynchronous key events *)

(** The event is a press of Escape. *)
Definition is_escape (cfg : config) (e : Z * keyrecord_t) : bool :=
  pressed (event (snd e)) && (fst e =? KC_ESC cfg).

(** Some event of the batch is a press of Escape. *)
Definition has_escape (cfg : config) (evs : list (Z * keyrecord_t)) : bool :=
  existsb (is_escape cfg) evs.

(** The events of slot [k] of a schedule. *)
Definition slot (sched : list (list (Z * keyrecord_t))) (k : nat)
  : list (Z * keyrecord_t) :=
  default [] (sched !! k).

(** No press of Escape in the first [k] slots. *)
Definition quiet_before (cfg : config) (sched : list (list (Z * keyrecord_t)))
    (k : nat) : bool :=
  forallb (fun evs => negb (has_escape cfg evs)) (take k sched).

(** No press of Escape anywhere in the schedule. *)
Definition quiet (cfg : config) (sched : list (list (Z * keyrecord_t))) : bool :=
  forallb (fun evs => negb (has_escape cfg evs)) sched.

(** Bytes committed by the first [k] chunks of a write of [length] bytes
    at flash address [addr]: the data up to the [k]-th sector boundary
    above [addr], or all of it when it ends before that boundary. *)
Definition committed_bytes (cfg : config) (k : nat) (addr length : Z) : Z :=
  match k with
  | O => 0
  | S _ =>
      Z.min length
            (Z.of_nat k * FLASH_SECTOR_SIZE cfg - addr mod FLASH_SECTOR_SIZE cfg)
  end.

(** The same count, chunk by chunk as the loop of [secret_write_bytes]
    advances: a chunk ends at the next sector boundary or with the data,
    whichever comes first. *)
Fixpoint committed (cfg : config) (k : nat) (addr length : Z) : Z :=
  match k with
  | O => 0
  | S k' =>
      if 0 <? length then
        let chunk := Z.min length (FLASH_SECTOR_SIZE cfg - addr mod FLASH_SECTOR_SIZE cfg) in
        chunk + committed cfg k' (addr + chunk) (length - chunk)
      else 0
  end.

(** [lo <= a < hi] *)
Definition in_range (lo hi a : Z) : bool := (lo <=? a) && (a <? hi).

(** * Basic facts *)

(** ** 32-bit arithmetic *)

Lemma u32_small (x : Z) : 0 <= x < 2 ^ 32 -> u32 x = x.
Proof. intros H. unfold u32. apply Z.mod_small. exact H. Qed.

Lemma u32_range (x : Z) : 0 <= u32 x < 2 ^ 32.
Proof. unfold u32. apply Z.mod_pos_bound. lia. Qed.

Lemma u32_add_l (x y : Z) : u32 (u32 x + y) = u32 (x + y).
Proof. unfold u32. apply Zplus_mod_idemp_l. Qed.

Lemma u32_add_r (x y : Z) : u32 (x + u32 y) = u32 (x + y).
Proof. unfold u32. apply Zplus_mod_idemp_r. Qed.

(** The sector mask [addr & ~(FLASH_SECTOR_SIZE - 1)] rounds down to a
    sector boundary. *)
Lemma sector_mask (addr k : Z) :
  0 <= k <= 32 -> 0 <= addr < 2 ^ 32 ->
  Z.land addr (u32 (Z.lnot (2 ^ k - 1))) = addr - addr mod 2 ^ k.
Proof.
  intros Hk Ha.
  assert (Hpos : 0 < 2 ^ k) by (apply Z.pow_pos_nonneg; lia).
  assert (Hones : 2 ^ k - 1 = Z.ones k) by (rewrite Z.ones_equiv; lia).
  assert (Hdown : Z.land addr (Z.lnot (Z.ones k)) = addr - addr mod 2 ^ k).
  { rewrite <- Z.ldiff_land, Z.ldiff_ones_r by lia.
    rewrite Z.shiftr_div_pow2, Z.shiftl_mul_pow2 by lia.
    pose proof (Z.div_mod addr (2 ^ k) ltac:(lia)). lia. }
  rewrite Hones. unfold u32.
  rewrite <- (Z.land_ones _ 32) by lia.
  rewrite Z.land_assoc, Hdown, Z.land_ones by lia.
  pose proof (Z.mod_pos_bound addr (2 ^ k) Hpos).
  pose proof (Z.mod_le addr (2 ^ k) ltac:(lia) Hpos).
  apply Z.mod_small. lia.
Qed.

(** ** Byte buffers *)

Lemma byte_at_lookup (l : list Z) (i : nat) (x : Z) :
  l !! i = Some x -> byte_at l i = x.
Proof. intros H. unfold byte_at. rewrite H. reflexivity. Qed.

Lemma byte_at_insert_eq (l : list Z) (i : nat) (v : Z) :
  (i < length l)%nat -> byte_at (<[i := v]> l) i = v.
Proof. intros H. apply byte_at_lookup. apply list_lookup_insert_eq. exact H. Qed.

Lemma byte_at_insert_ne (l : list Z) (i j : nat) (v : Z) :
  i <> j -> byte_at (<[i := v]> l) j = byte_at l j.
Proof. intros H. unfold byte_at. rewrite list_lookup_insert_ne by exact H. reflexivity. Qed.

Lemma bytes_okb_ok (l : list Z) : bytes_okb l = true -> bytes_ok l.
Proof.
  intros H. apply Forall_forall. intros b Hb.
  unfold bytes_okb in H. rewrite forallb_forall in H.
  apply list_elem_of_In, H in Hb. lia.
Qed.

Lemma framed_unprefixed (cmd : Z) (data : list Z) :
  is_command cmd = true -> byte_at data 0 = cmd -> framed 0 cmd data.
Proof. intros Hc H. split; [exact Hc | left; split; [reflexivity | exact H]]. Qed.

Lemma framed_prefixed (cmd : Z) (data : list Z) :
  is_command cmd = true -> is_command (byte_at data 0) = false ->
  byte_at data 1 = cmd -> framed 1 cmd data.
Proof.
  intros Hc H0 H1. split; [exact Hc | right; split; [reflexivity | split; assumption]].
Qed.

Lemma bytes_ok_byte_at (l : list Z) (i : nat) : bytes_ok l -> 0 <= byte_at l i < 256.
Proof.
  intros H. unfold byte_at. destruct (l !! i) as [x|] eqn:E; simpl; [|lia].
  exact (Forall_lookup_1 _ _ _ _ H E).
Qed.

Lemma length_memcpy_at (dst : list Z) (pos : nat) (src : list Z) :
  (pos + length src <= length dst)%nat ->
  length (memcpy_at dst pos src) = length dst.
Proof.
  intros H. unfold memcpy_at.
  rewrite !length_app, length_take, length_drop. lia.
Qed.

Lemma byte_at_memcpy_at_in (dst : list Z) (pos : nat) (src : list Z) (j : nat) :
  (pos <= length dst)%nat -> (pos <= j < pos + length src)%nat ->
  byte_at (memcpy_at dst pos src) j = byte_at src (j - pos).
Proof.
  intros Hd Hj. unfold byte_at, memcpy_at.
  rewrite lookup_app_r by (rewrite length_take; lia).
  rewrite length_take, Nat.min_l by lia.
  rewrite lookup_app_l by lia. reflexivity.
Qed.

Lemma byte_at_memcpy_at_out (dst : list Z) (pos : nat) (src : list Z) (j : nat) :
  (pos + length src <= length dst)%nat -> (j < pos \/ pos + length src <= j)%nat ->
  byte_at (memcpy_at dst pos src) j = byte_at dst j.
Proof.
  intros Hd Hj. unfold byte_at, memcpy_at. destruct Hj as [Hj|Hj].
  - rewrite lookup_app_l by (rewrite length_take; lia).
    rewrite lookup_take_lt by lia. reflexivity.
  - rewrite lookup_app_r by (rewrite length_take; lia).
    rewrite length_take, Nat.min_l by lia.
    rewrite lookup_app_r by lia.
    rewrite lookup_drop. do 2 f_equal. lia.
Qed.

Lemma frame_slice_Some (buf : list Z) (pos n : nat) :
  (pos + n <= length buf)%nat -> frame_slice buf pos n = Some (take n (drop pos buf)).
Proof.
  intros H. unfold frame_slice.
  destruct (Nat.leb_spec (pos + n) (length buf)); [reflexivity | lia].
Qed.

Lemma frame_slice_None (buf : list Z) (pos n : nat) :
  (length buf < pos + n)%nat -> frame_slice buf pos n = None.
Proof.
  intros H. unfold frame_slice.
  destruct (Nat.leb_spec (pos + n) (length buf)); [lia | reflexivity].
Qed.

Lemma byte_at_take_drop (buf : list Z) (pos n i : nat) :
  (i < n)%nat -> byte_at (take n (drop pos buf)) i = byte_at buf (pos + i).
Proof.
  intros H. unfold byte_at. rewrite lookup_take_lt by exact H.
  rewrite lookup_drop. reflexivity.
Qed.

Lemma bytes_ok_take_drop (buf : list Z) (pos n : nat) :
  bytes_ok buf -> bytes_ok (take n (drop pos buf)).
Proof. intros H. unfold bytes_ok. apply Forall_take, Forall_drop, H. Qed.

Lemma length_xip_read (cfg : config) (f : flash_mem) (ptr : Z) (n : nat) :
  length (xip_read cfg f ptr n) = n.
Proof. unfold xip_read. rewrite length_map, length_seq. reflexivity. Qed.

Lemma byte_at_xip_read (cfg : config) (f : flash_mem) (ptr : Z) (n i : nat) :
  (i < n)%nat ->
  byte_at (xip_read cfg f ptr n) i = xip_byte cfg f (u32 (ptr + Z.of_nat i)).
Proof.
  intros H. apply byte_at_lookup. unfold xip_read.
  rewrite list_lookup_fmap, lookup_seq_lt by exact H. reflexivity.
Qed.

(** A flash offset seen through the XIP window. *)
Lemma xip_alias (cfg : config) (f : flash_mem) (o i : Z) :
  0 <= XIP_BASE cfg < 2 ^ 32 -> 0 <= o + i < 2 ^ 32 ->
  xip_byte cfg f (u32 (u32 (XIP_BASE cfg + o) + i)) = f (o + i).
Proof.
  intros Hx Ho. unfold xip_byte. f_equal.
  rewrite u32_add_l.
  unfold u32. rewrite Zminus_mod_idemp_l.
  replace (XIP_BASE cfg + o + i - XIP_BASE cfg) with (o + i) by lia.
  apply Z.mod_small. exact Ho.
Qed.

Lemma lor_bound (a b n : Z) :
  0 < n -> 0 <= a < 2 ^ n -> 0 <= b < 2 ^ n -> 0 <= Z.lor a b < 2 ^ n.
Proof.
  intros Hn Ha Hb. split; [apply Z.lor_nonneg; lia|].
  assert (Hlog : forall x, 0 <= x < 2 ^ n -> Z.log2 x < n).
  { intros x Hx. destruct (Z.eq_dec x 0) as [->|Hx0]; [simpl; lia|].
    apply Z.log2_lt_pow2; lia. }
  destruct (Z.eq_dec (Z.lor a b) 0) as [->|Hne]; [lia|].
  assert (0 <= Z.lor a b) by (apply Z.lor_nonneg; lia).
  apply Z.log2_lt_pow2; [lia|].
  rewrite Z.log2_lor by lia.
  pose proof (Hlog a Ha). pose proof (Hlog b Hb). lia.
Qed.

(** A decoded 32-bit field is a 32-bit value. *)
Lemma read_u32_be_range (buf : list Z) (pos : nat) :
  bytes_ok buf -> 0 <= read_u32_be buf pos < 2 ^ 32.
Proof.
  intros H. unfold read_u32_be.
  pose proof (bytes_ok_byte_at buf (pos + 3) H).
  repeat apply lor_bound; try apply u32_range; lia.
Qed.

(** The byte that [write_u32_be] stores for bit position [n]. *)
Lemma be_byte (v n : Z) :
  0 <= n -> Z.land (Z.shiftr v n) 0xFF = v / 2 ^ n mod 256.
Proof.
  intros Hn. change 0xFF with (Z.ones 8).
  rewrite Z.land_ones, Z.shiftr_div_pow2 by lia. reflexivity.
Qed.

Lemma frame_slice_ext (l1 l2 : list Z) (pos n : nat) :
  length l1 = length l2 ->
  (forall j, (pos <= j < pos + n)%nat -> l1 !! j = l2 !! j) ->
  frame_slice l1 pos n = frame_slice l2 pos n.
Proof.
  intros Hlen H. unfold frame_slice. rewrite Hlen.
  destruct (pos + n <=? length l2)%nat; [|reflexivity].
  f_equal. apply list_eq. intros i.
  rewrite !lookup_take, !lookup_drop.
  destruct (decide (i < n)%nat); [apply H; lia | reflexivity].
Qed.

Lemma frame_slice_insert_ne (buf : list Z) (i : nat) (x : Z) (pos n : nat) :
  (i < pos \/ pos + n <= i)%nat ->
  frame_slice (<[i := x]> buf) pos n = frame_slice buf pos n.
Proof.
  intros H. apply frame_slice_ext; [apply length_insert|].
  intros j Hj. apply list_lookup_insert_ne. lia.
Qed.

Lemma length_write_u32_be (buf : list Z) (pos : nat) (v : Z) :
  length (write_u32_be buf pos v) = length buf.
Proof. unfold write_u32_be. cbv zeta. rewrite !length_insert. reflexivity. Qed.

Lemma lookup_write_u32_be_ne (buf : list Z) (pos : nat) (v : Z) (j : nat) :
  (j < pos \/ pos + 4 <= j)%nat -> write_u32_be buf pos v !! j = buf !! j.
Proof.
  intros H. unfold write_u32_be. cbv zeta.
  rewrite !list_lookup_insert_ne by lia. reflexivity.
Qed.

Lemma frame_slice_write_u32_be_ne (buf : list Z) (p : nat) (v : Z) (pos n : nat) :
  (p + 4 <= pos \/ pos + n <= p)%nat ->
  frame_slice (write_u32_be buf p v) pos n = frame_slice buf pos n.
Proof.
  intros H. apply frame_slice_ext; [apply length_write_u32_be|].
  intros j Hj. apply lookup_write_u32_be_ne. lia.
Qed.

(** [write_u32_be] stores the big-endian bytes of its argument. *)
Lemma frame_slice_write_u32_be (buf : list Z) (pos : nat) (v : Z) :
  (pos + 4 <= length buf)%nat ->
  frame_slice (write_u32_be buf pos v) pos 4 = Some (u32be_bytes v).
Proof.
  intros H. rewrite frame_slice_Some by (rewrite length_write_u32_be; lia).
  f_equal. unfold write_u32_be, u32be_bytes. cbv zeta.
  rewrite !be_byte by lia.
  replace (Z.land v 255) with (v mod 256)
    by (change 255 with (Z.ones 8); rewrite Z.land_ones by lia; reflexivity).
  set (b0 := v / 2 ^ 24 mod 256). set (b1 := v / 2 ^ 16 mod 256).
  set (b2 := v / 2 ^ 8 mod 256). set (b3 := v mod 256).
  erewrite (drop_S _ b0 pos).
  2:{ rewrite !list_lookup_insert_ne by lia. apply list_lookup_insert_eq. lia. }
  erewrite (drop_S _ b1 (S pos)).
  2:{ rewrite !list_lookup_insert_ne by lia.
      replace (S pos) with (pos + 1)%nat by lia.
      apply list_lookup_insert_eq. rewrite !length_insert. lia. }
  erewrite (drop_S _ b2 (S (S pos))).
  2:{ rewrite !list_lookup_insert_ne by lia.
      replace (S (S pos)) with (pos + 2)%nat by lia.
      apply list_lookup_insert_eq. rewrite !length_insert. lia. }
  erewrite (drop_S _ b3 (S (S (S pos)))).
  2:{ replace (S (S (S pos))) with (pos + 3)%nat by lia.
      apply list_lookup_insert_eq. rewrite !length_insert. lia. }
  reflexivity.
Qed.

Lemma list_byte_ext (l1 l2 : list Z) :
  length l1 = length l2 ->
  (forall i, (i < length l1)%nat -> byte_at l1 i = byte_at l2 i) ->
  l1 = l2.
Proof.
  intros Hlen H. apply list_eq. intros i.
  destruct (decide (i < length l1)%nat) as [Hi|Hi].
  - specialize (H i Hi). unfold byte_at in H.
    destruct (lookup_lt_is_Some_2 l1 i Hi) as [x Hx].
    destruct (lookup_lt_is_Some_2 l2 i ltac:(lia)) as [y Hy].
    rewrite Hx, Hy in *. simpl in H. congruence.
  - rewrite !(proj2 (lookup_ge_None _ _)) by lia. reflexivity.
Qed.

Lemma frame_slice_memcpy_at (dst : list Z) (pos : nat) (src : list Z) :
  (pos + length src <= length dst)%nat ->
  frame_slice (memcpy_at dst pos src) pos (length src) = Some src.
Proof.
  intros H. rewrite frame_slice_Some by (rewrite length_memcpy_at; lia).
  f_equal. unfold memcpy_at.
  rewrite drop_app_length' by (rewrite length_take; lia).
  apply take_app_length.
Qed.

Lemma frame_slice_length (buf : list Z) (pos n : nat) (bytes : list Z) :
  frame_slice buf pos n = Some bytes ->
  (pos + n <= length buf)%nat /\ length bytes = n
  /\ bytes = take n (drop pos buf).
Proof.
  unfold frame_slice. destruct (Nat.leb_spec (pos + n) (length buf)); [|discriminate].
  intros [= <-]. split; [assumption|]. split; [|reflexivity].
  rewrite length_take, length_drop. lia.
Qed.

(** ** The cancellation hook and the event schedule *)

Ltac split_ands :=
  repeat match goal with |- _ /\ _ => split end; try reflexivity.

Ltac zbool :=
  repeat match goal with
  | |- context [?x <=? ?y] => destruct (Z.leb_spec x y)
  | |- context [?x <? ?y] => destruct (Z.ltb_spec x y)
  | |- context [?x >? ?y] => rewrite (Z.gtb_ltb x y)
  | |- context [?x =? ?y] => destruct (Z.eqb_spec x y)
  end; simpl; try reflexivity; try lia.

Section Events.

Context (cfg : config).

Lemma deliver_fields (evs : list (Z * keyrecord_t)) (st : state) :
  secret_busy (deliver cfg evs st) = secret_busy st
  /\ secret_abort (deliver cfg evs st)
     = secret_abort st || (secret_busy st && has_escape cfg evs)
  /\ secret_sector_buf (deliver cfg evs st) = secret_sector_buf st
  /\ flash (deliver cfg evs st) = flash st
  /\ pending (deliver cfg evs st) = pending st.
Proof.
  revert st. induction evs as [|e evs IH]; intros st; simpl.
  - rewrite andb_false_r, orb_false_r. auto.
  - destruct (IH (snd (secret_storage_process_record_user cfg (fst e) (snd e) st)))
      as (Hb & Ha & Hs & Hf & Hp).
    unfold deliver in *. rewrite Hb, Ha, Hs, Hf, Hp.
    unfold secret_storage_process_record_user, is_escape.
    destruct (secret_busy st) eqn:Eb; simpl.
    + destruct (pressed (event (snd e)) && (fst e =? KC_ESC cfg)); simpl;
        rewrite ?Eb; simpl; rewrite ?orb_true_r; auto.
    + rewrite Eb. auto.
Qed.

Lemma poll_fields (st : state) :
  secret_busy (poll cfg st) = secret_busy st
  /\ secret_abort (poll cfg st)
     = secret_abort st || (secret_busy st && has_escape cfg (slot (pending st) 0))
  /\ secret_sector_buf (poll cfg st) = secret_sector_buf st
  /\ flash (poll cfg st) = flash st
  /\ pending (poll cfg st) = drop 1 (pending st).
Proof.
  unfold poll, slot. destruct (pending st) as [|evs rest] eqn:E; simpl.
  - rewrite andb_false_r, orb_false_r. auto.
  - destruct (deliver_fields evs (set_pending rest st)) as (Hb & Ha & Hs & Hf & Hp).
    rewrite Hb, Ha, Hs, Hf, Hp. simpl. rewrite drop_0. auto.
Qed.

Lemma quiet_before_S (sched : list (list (Z * keyrecord_t))) (k : nat) :
  quiet_before cfg sched (S k)
  = negb (has_escape cfg (slot sched 0)) && quiet_before cfg (drop 1 sched) k.
Proof.
  unfold quiet_before, slot. destruct sched as [|evs rest]; simpl.
  - rewrite take_nil. reflexivity.
  - rewrite drop_0. reflexivity.
Qed.

Lemma slot_S (sched : list (list (Z * keyrecord_t))) (k : nat) :
  slot sched (S k) = slot (drop 1 sched) k.
Proof. unfold slot. rewrite lookup_drop. reflexivity. Qed.

Lemma quiet_drop (sched : list (list (Z * keyrecord_t))) (k : nat) :
  quiet cfg sched = true -> quiet cfg (drop k sched) = true.
Proof.
  unfold quiet. rewrite !forallb_forall.
  intros H x Hx. apply H. apply list_elem_of_In.
  apply list_elem_of_In in Hx. eapply subseteq_drop, Hx.
Qed.

Lemma quiet_slot (sched : list (list (Z * keyrecord_t))) (k : nat) :
  quiet cfg sched = true -> has_escape cfg (slot sched k) = false.
Proof.
  unfold quiet, slot. rewrite forallb_forall. intros H.
  destruct (sched !! k) as [evs|] eqn:E; simpl; [|reflexivity].
  apply negb_true_iff, H, list_elem_of_In, list_elem_of_lookup. eauto.
Qed.

Lemma slot_drop (sched : list (list (Z * keyrecord_t))) (k : nat) :
  slot (drop k sched) 0 = slot sched k.
Proof. unfold slot. rewrite lookup_drop. do 2 f_equal. lia. Qed.

(** After an engine call that ran with [secret_busy] up, a press of
    Escape seen by the engine or arriving before [secret_busy] is cleared
    makes the dispatcher report ABORT. *)
Lemma engine_status_abort (ok : bool) (st : state) :
  secret_busy st = true ->
  secret_abort st = true \/ has_escape cfg (slot (pending st) 0) = true ->
  engine_status ok (set_busy false (poll cfg st)) = SECRET_STATUS_ABORT.
Proof.
  intros Hb H. destruct (poll_fields st) as (Pb & Pa & _).
  unfold engine_status. cbn [secret_abort set_busy]. rewrite Pa, Hb.
  destruct H as [-> | ->]; rewrite ?orb_true_r; reflexivity.
Qed.

End Events.

(** ** The erase engine *)

Section EraseEngine.

Context (cfg : config).
Hypothesis sector_pos : 0 < FLASH_SECTOR_SIZE cfg.

Local Abbreviation SECTOR := (FLASH_SECTOR_SIZE cfg).

(** With no press of Escape in the first [n] slots, [n] sectors are
    erased and the loop reports success. *)
Lemma erase_loop_calm (n : nat) :
  forall (fuel : nat) (addr : Z) (st : state),
    (n < fuel)%nat ->
    0 <= addr -> addr + Z.of_nat n * SECTOR + SECTOR <= 2 ^ 32 ->
    secret_abort st = false ->
    quiet_before cfg (pending st) n = true ->
    exists st',
      erase_loop cfg fuel addr (addr + Z.of_nat n * SECTOR) st = Done (true, st')
      /\ secret_busy st' = secret_busy st
      /\ secret_abort st' = false
      /\ secret_sector_buf st' = secret_sector_buf st
      /\ pending st' = drop n (pending st)
      /\ forall a, flash st' a
                   = if in_range addr (addr + Z.of_nat n * SECTOR) a
                     then 0xFF else flash st a.
Proof.
  induction n as [|n IH]; intros fuel addr st Hfuel Haddr Hend Habort Hquiet.
  - destruct fuel as [|fuel]; [lia|]. cbn [erase_loop].
    replace (addr + Z.of_nat 0 * SECTOR) with addr by lia.
    rewrite Z.ltb_irrefl. exists st. rewrite drop_0.
    repeat split; try assumption.
    intros a. unfold in_range. zbool.
  - destruct fuel as [|fuel]; [lia|].
    rewrite quiet_before_S in Hquiet. apply andb_true_iff in Hquiet as [Hq0 Hq].
    apply negb_true_iff in Hq0.
    destruct (poll_fields cfg st) as (Pb & Pa & Ps & Pf & Pp).
    rewrite Habort, Hq0, andb_false_r in Pa. simpl in Pa.
    cbn [erase_loop].
    assert (Hlt : (addr <? addr + Z.of_nat (S n) * SECTOR) = true)
      by (apply Z.ltb_lt; nia).
    rewrite Hlt, Pa.
    rewrite (u32_small (addr + SECTOR)) by nia.
    set (st1 := set_flash _ (poll cfg st)).
    assert (Hq1 : quiet_before cfg (pending st1) n = true)
      by (subst st1; cbn [pending set_flash]; rewrite Pp; exact Hq).
    assert (Ha1 : secret_abort st1 = false) by exact Pa.
    destruct (IH fuel (addr + SECTOR) st1 ltac:(lia) ltac:(lia) ltac:(lia) Ha1 Hq1)
      as (st' & Hrun & Hb & Ha & Hs & Hp & Hf).
    exists st'.
    replace (addr + Z.of_nat (S n) * SECTOR)
      with (addr + SECTOR + Z.of_nat n * SECTOR) by lia.
    rewrite Hrun. subst st1. simpl in *.
    repeat split; try congruence.
    + rewrite Hp, Pp, drop_drop. reflexivity.
    + intros a. rewrite Hf, Pf. unfold in_range, flash_range_erase. zbool.
Qed.

(** A press of Escape in slot [k], the first [k] slots being quiet, stops
    the loop before sector [k]: the first [k] sectors are erased, the rest
    of the flash is as before, and the loop reports failure. *)
Lemma erase_loop_abort (k : nat) :
  forall (fuel : nat) (addr end_ : Z) (st : state),
    (k < fuel)%nat ->
    0 <= addr -> addr + Z.of_nat k * SECTOR < end_ -> end_ + SECTOR <= 2 ^ 32 ->
    secret_busy st = true ->
    secret_abort st = false ->
    quiet_before cfg (pending st) k = true ->
    has_escape cfg (slot (pending st) k) = true ->
    exists st',
      erase_loop cfg fuel addr end_ st = Done (false, st')
      /\ secret_busy st' = true
      /\ secret_abort st' = true
      /\ secret_sector_buf st' = secret_sector_buf st
      /\ pending st' = drop (S k) (pending st)
      /\ forall a, flash st' a
                   = if in_range addr (addr + Z.of_nat k * SECTOR) a
                     then 0xFF else flash st a.
Proof.
  induction k as [|k IH];
    intros fuel addr end_ st Hfuel Haddr Hlt Hend Hbusy Habort Hquiet Hesc;
    (destruct fuel as [|fuel]; [lia|]);
    destruct (poll_fields cfg st) as (Pb & Pa & Ps & Pf & Pp);
    cbn [erase_loop].
  - rewrite Habort, Hbusy, Hesc in Pa. simpl in Pa.
    assert (Hlt' : (addr <? end_) = true) by (apply Z.ltb_lt; lia).
    rewrite Hlt', Pa. exists (poll cfg st).
    repeat split; try congruence.
    intros a. rewrite Pf. unfold in_range. zbool.
  - rewrite quiet_before_S in Hquiet. apply andb_true_iff in Hquiet as [Hq0 Hq].
    apply negb_true_iff in Hq0.
    rewrite Habort, Hq0, andb_false_r in Pa. simpl in Pa.
    assert (Hlt' : (addr <? end_) = true) by (apply Z.ltb_lt; nia).
    rewrite Hlt', Pa.
    rewrite (u32_small (addr + SECTOR)) by nia.
    set (st1 := set_flash _ (poll cfg st)).
    assert (Hq1 : quiet_before cfg (pending st1) k = true)
      by (subst st1; cbn [pending set_flash]; rewrite Pp; exact Hq).
    assert (He1 : has_escape cfg (slot (pending st1) k) = true)
      by (subst st1; cbn [pending set_flash]; rewrite Pp, <- slot_S; exact Hesc).
    assert (Ha1 : secret_abort st1 = false) by exact Pa.
    assert (Hb1 : secret_busy st1 = true) by (rewrite <- Hbusy; exact Pb).
    destruct (IH fuel (addr + SECTOR) end_ st1 ltac:(lia) ltac:(lia) ltac:(lia)
                 Hend Hb1 Ha1 Hq1 He1)
      as (st' & Hrun & Hb & Ha & Hs & Hp & Hf).
    exists st'. rewrite Hrun. subst st1. simpl in *.
    repeat split; try congruence.
    + rewrite Hp, Pp, drop_drop. reflexivity.
    + intros a. rewrite Hf, Pf. unfold in_range, flash_range_erase. zbool.
Qed.

(** The engine never touches [secret_busy]. *)
Lemma erase_loop_busy (fuel : nat) :
  forall (addr end_ : Z) (st : state) (ok : bool) (st' : state),
    erase_loop cfg fuel addr end_ st = Done (ok, st') ->
    secret_busy st' = secret_busy st.
Proof.
  induction fuel as [|fuel IH]; intros addr end_ st ok st' H; [discriminate|].
  cbn [erase_loop] in H.
  destruct (poll_fields cfg st) as (Pb & _).
  destruct (addr <? end_); [|congruence].
  destruct (secret_abort (poll cfg st)); [congruence|].
  apply IH in H. simpl in H. congruence.
Qed.

End EraseEngine.

(** ** The write engine *)

Lemma land_erased (b : Z) : 0 <= b < 256 -> Z.land 0xFF b = b.
Proof.
  intros H. change 0xFF with (Z.ones 8).
  rewrite Z.land_comm, Z.land_ones by lia. apply Z.mod_small. exact H.
Qed.

Section WriteEngine.

Context (cfg : config).
Hypothesis cfg_ok : config_ok cfg.

Local Abbreviation SECTOR := (FLASH_SECTOR_SIZE cfg).
Local Abbreviation PAGE := (FLASH_PAGE_SIZE cfg).

Lemma sector_size_pos : 0 < SECTOR.
Proof.
  destruct (hw_sector_pow2 cfg cfg_ok) as (k & Hk & ->).
  apply Z.pow_pos_nonneg; lia.
Qed.

Lemma sector_size_32bit : SECTOR < 2 ^ 32.
Proof.
  pose proof (assert_storage_pos cfg cfg_ok).
  pose proof (assert_fits cfg cfg_ok).
  pose proof (hw_backing_nonneg cfg cfg_ok).
  pose proof (hw_flash_32bit cfg cfg_ok). lia.
Qed.

Lemma pages_per_sector_eq : Z.of_nat (pages_per_sector cfg) * PAGE = SECTOR.
Proof.
  pose proof (hw_page_pos cfg cfg_ok) as Hp.
  pose proof (hw_page_tiles cfg cfg_ok) as Ht.
  pose proof sector_size_pos as Hs.
  unfold pages_per_sector.
  apply Z.mod_divide in Ht; [|lia]. destruct Ht as [q Hq].
  rewrite Hq.
  replace (q * PAGE + PAGE - 1) with (q * PAGE + (PAGE - 1)) by lia.
  rewrite Z.div_add_l, (Z.div_small (PAGE - 1)) by lia.
  rewrite Z2Nat.id by nia. lia.
Qed.

(** The programming loop ANDs the scratch sector into the flash, page
    after page. *)
Lemma program_pages_spec (n : nat) :
  forall (i sector_start : Z) (buf : list Z) (f : flash_mem) (a : Z),
    0 <= i ->
    i + Z.of_nat n * PAGE <= Z.of_nat (length buf) ->
    program_pages cfg n i sector_start buf f a
    = if in_range (sector_start + i) (sector_start + i + Z.of_nat n * PAGE) a
      then Z.land (f a) (byte_at buf (Z.to_nat (a - sector_start)))
      else f a.
Proof.
  pose proof (hw_page_pos cfg cfg_ok) as Hp.
  induction n as [|n IH]; intros i ss buf f a Hi Hlen; cbn [program_pages].
  - unfold in_range. zbool.
  - rewrite IH by lia.
    unfold flash_range_program, in_range.
    rewrite length_take, length_drop.
    replace (Z.of_nat (Z.to_nat PAGE `min` (length buf - Z.to_nat i))) with PAGE
      by lia.
    destruct (Z.leb_spec (ss + i) a), (Z.ltb_spec a (ss + i + PAGE)); simpl.
    + rewrite byte_at_take_drop by lia.
      replace (Z.to_nat i + Z.to_nat (a - (ss + i)))%nat with (Z.to_nat (a - ss))
        by lia.
      zbool.
    + zbool.
    + zbool.
    + zbool.
Qed.

(** Erasing a sector and programming it from the scratch buffer leaves
    the buffer's bytes in the sector and nothing else changed. *)
Lemma sector_rewrite (sector_start : Z) (buf : list Z) (f : flash_mem) (a : Z) :
  length buf = Z.to_nat SECTOR -> bytes_ok buf ->
  program_pages cfg (pages_per_sector cfg) 0 sector_start buf
                (flash_range_erase f sector_start SECTOR) a
  = if in_range sector_start (sector_start + SECTOR) a
    then byte_at buf (Z.to_nat (a - sector_start))
    else f a.
Proof.
  intros Hlen Hbuf. pose proof sector_size_pos as Hs.
  rewrite program_pages_spec by (rewrite ?pages_per_sector_eq; lia).
  rewrite pages_per_sector_eq. unfold in_range, flash_range_erase.
  replace (sector_start + 0) with sector_start by lia.
  destruct ((sector_start <=? a) && (a <? sector_start + SECTOR)); [|reflexivity].
  apply land_erased, bytes_ok_byte_at, Hbuf.
Qed.

Lemma bytes_ok_xip_read (f : flash_mem) (ptr : Z) (n : nat) :
  flash_ok f -> bytes_ok (xip_read cfg f ptr n).
Proof.
  intros Hf. unfold bytes_ok, xip_read. apply Forall_fmap, Forall_forall.
  intros i _. apply Hf.
Qed.

Lemma bytes_ok_memcpy_at (dst : list Z) (pos : nat) (src : list Z) :
  bytes_ok dst -> bytes_ok src -> bytes_ok (memcpy_at dst pos src).
Proof.
  intros Hd Hs. unfold bytes_ok, memcpy_at.
  repeat apply Forall_app_2; [apply Forall_take | | apply Forall_drop]; assumption.
Qed.

(** A sector that starts below [2^32] ends at or below [2^32]. *)
Lemma sector_end_32bit (addr : Z) :
  0 <= addr < 2 ^ 32 -> addr - addr mod SECTOR + SECTOR <= 2 ^ 32.
Proof.
  intros Ha. destruct (hw_sector_pow2 cfg cfg_ok) as (k & Hk & HS).
  pose proof sector_size_pos as Hs.
  assert (Hsplit : 2 ^ 32 = SECTOR * 2 ^ (32 - k))
    by (rewrite HS, <- Z.pow_add_r by lia; f_equal; lia).
  pose proof (Z.div_mod addr SECTOR ltac:(lia)) as Hdm.
  pose proof (Z.mod_pos_bound addr SECTOR Hs) as Hm.
  assert (addr / SECTOR < 2 ^ (32 - k)) by nia.
  nia.
Qed.

(** One turn of the write loop that is not aborted: the chunk up to the
    next sector boundary is committed and nothing else changes. *)
Lemma write_loop_iter (req : list Z) (addr : Z) (src : nat) (len : Z) (st : state) :
  0 < len -> 0 <= addr -> addr + len < 2 ^ 32 ->
  (src + Z.to_nat (Z.min len (SECTOR - addr mod SECTOR)) <= length req)%nat ->
  bytes_ok req -> flash_ok (flash st) ->
  secret_abort (poll cfg st) = false ->
  let chunk := Z.min len (SECTOR - addr mod SECTOR) in
  exists st1,
    (forall fuel,
        write_loop cfg (S fuel) addr req src len st
        = write_loop cfg fuel (addr + chunk) req (src + Z.to_nat chunk)%nat
                     (len - chunk) st1)
    /\ 0 < chunk <= len
    /\ secret_busy st1 = secret_busy st
    /\ secret_abort st1 = false
    /\ pending st1 = drop 1 (pending st)
    /\ flash_ok (flash st1)
    /\ forall a, flash st1 a
                 = if in_range addr (addr + chunk) a
                   then byte_at req (src + Z.to_nat (a - addr))
                   else flash st a.
Proof.
  intros Hlen Haddr Hend Hsrc Hreq Hflash Habort chunk.
  destruct (hw_sector_pow2 cfg cfg_ok) as (k & Hk & HS).
  pose proof sector_size_pos as Hs.
  pose proof sector_size_32bit as Hs32.
  pose proof (hw_xip_32bit cfg cfg_ok) as Hxip.
  pose proof (Z.mod_pos_bound addr SECTOR Hs) as Hso.
  pose proof (Z.mod_le addr SECTOR Haddr Hs) as Hso'.
  pose proof (sector_end_32bit addr ltac:(lia)) as Hsend.
  destruct (poll_fields cfg st) as (Pb & Pa & Ps & Pf & Pp).
  set (so := addr mod SECTOR) in *.
  assert (Hmask : Z.land addr (u32 (Z.lnot (SECTOR - 1))) = addr - so)
    by (subst so; rewrite HS; apply sector_mask; lia).
  assert (Hchunk : 0 < chunk <= len /\ chunk <= SECTOR - so) by (subst chunk; lia).
  assert (Hbytes : frame_slice req src (Z.to_nat chunk)
                   = Some (take (Z.to_nat chunk) (drop src req)))
    by (apply frame_slice_Some; exact Hsrc).
  set (bytes := take (Z.to_nat chunk) (drop src req)) in *.
  assert (Hblen : length bytes = Z.to_nat chunk)
    by (subst bytes; rewrite length_take, length_drop; lia).
  set (buf := memcpy_at (xip_read cfg (flash (poll cfg st))
                                  (u32 (XIP_BASE cfg + (addr - so)))
                                  (Z.to_nat SECTOR))
                        (Z.to_nat so) bytes).
  exists (set_flash
            (program_pages cfg (pages_per_sector cfg) 0 (addr - so) buf
               (flash_range_erase (flash (poll cfg st)) (addr - so) SECTOR))
            (set_sector_buf buf (poll cfg st))).
  assert (Hbuflen : length buf = Z.to_nat SECTOR)
    by (subst buf; rewrite length_memcpy_at; rewrite length_xip_read; lia).
  assert (Hbufok : bytes_ok buf).
  { subst buf. apply bytes_ok_memcpy_at.
    - apply bytes_ok_xip_read. rewrite Pf. exact Hflash.
    - subst bytes. apply bytes_ok_take_drop, Hreq. }
  assert (Hcell : forall a,
             program_pages cfg (pages_per_sector cfg) 0 (addr - so) buf
               (flash_range_erase (flash (poll cfg st)) (addr - so) SECTOR) a
             = if in_range addr (addr + chunk) a
               then byte_at req (src + Z.to_nat (a - addr))
               else flash st a).
  { intros a. rewrite sector_rewrite by assumption. rewrite Pf.
    unfold in_range.
    destruct (Z.leb_spec (addr - so) a), (Z.ltb_spec a (addr - so + SECTOR));
      simpl; [|zbool..].
    subst buf.
    destruct (Z.leb_spec addr a), (Z.ltb_spec a (addr + chunk)); simpl.
    - rewrite byte_at_memcpy_at_in by (rewrite ?length_xip_read; lia).
      subst bytes. rewrite byte_at_take_drop by lia.
      f_equal. lia.
    - rewrite byte_at_memcpy_at_out by (rewrite ?length_xip_read; lia).
      rewrite byte_at_xip_read by lia.
      rewrite xip_alias, Pf by lia. f_equal. lia.
    - rewrite byte_at_memcpy_at_out by (rewrite ?length_xip_read; lia).
      rewrite byte_at_xip_read by lia.
      rewrite xip_alias, Pf by lia. f_equal. lia.
    - lia. }
  split.
  { intros fuel. cbn [write_loop].
    assert (Hpos : (0 <? len) = true) by (apply Z.ltb_lt; lia).
    rewrite Hpos, Habort, Hmask.
    replace (u32 (addr - (addr - so))) with so by (rewrite u32_small; lia).
    rewrite (u32_small (SECTOR - so)) by lia.
    replace (if SECTOR - so >? len then len else SECTOR - so) with chunk
      by (subst chunk; rewrite Z.gtb_ltb; destruct (Z.ltb_spec len (SECTOR - so)); lia).
    cbv zeta. rewrite Hbytes.
    rewrite (u32_small (addr + chunk)), (u32_small (len - chunk)) by lia.
    reflexivity. }
  split; [lia|].
  split; [exact Pb|].
  split; [exact Habort|].
  split; [exact Pp|].
  split; [|exact Hcell].
  intros a. cbn [flash set_flash]. rewrite Hcell.
  unfold in_range. destruct ((addr <=? a) && (a <? addr + chunk)).
  - apply bytes_ok_byte_at, Hreq.
  - apply Hflash.
Qed.

Lemma committed_range (k : nat) :
  forall addr len, 0 <= len -> 0 <= committed cfg k addr len <= len.
Proof.
  pose proof sector_size_pos as Hs.
  induction k as [|k IH]; intros addr len Hlen; cbn [committed]; [lia|].
  destruct (Z.ltb_spec 0 len); [|lia].
  pose proof (Z.mod_pos_bound addr SECTOR Hs).
  cbv zeta.
  specialize (IH (addr + Z.min len (SECTOR - addr mod SECTOR))
                 (len - Z.min len (SECTOR - addr mod SECTOR)) ltac:(lia)).
  lia.
Qed.

(** Chunk by chunk, the loop commits the data up to successive sector
    boundaries. *)
Lemma committed_closed_form (k : nat) :
  forall addr len,
    0 <= len -> committed cfg k addr len = committed_bytes cfg k addr len.
Proof.
  pose proof sector_size_pos as Hs.
  induction k as [|k IH]; intros addr len Hlen; [reflexivity|].
  cbn [committed].
  pose proof (Z.mod_pos_bound addr SECTOR Hs) as Hso.
  destruct (Z.ltb_spec 0 len) as [Hpos|Hzero].
  - cbv zeta. rewrite IH by lia. unfold committed_bytes.
    destruct k as [|k]; [lia|].
    destruct (Z.le_gt_cases len (SECTOR - addr mod SECTOR)) as [Hle|Hgt].
    + rewrite (Z.min_l len (SECTOR - addr mod SECTOR)) by lia.
      pose proof (Z.mod_pos_bound (addr + len) SECTOR Hs).
      nia.
    + rewrite (Z.min_r len (SECTOR - addr mod SECTOR)) by lia.
      assert (Hal : (addr + (SECTOR - addr mod SECTOR)) mod SECTOR = 0).
      { pose proof (Z.div_mod addr SECTOR ltac:(lia)) as Hdm.
        replace (addr + (SECTOR - addr mod SECTOR))
          with ((addr / SECTOR + 1) * SECTOR) by lia.
        apply Z.mod_mul. lia. }
      rewrite Hal. lia.
  - unfold committed_bytes. nia.
Qed.

(** With a quiet schedule the whole range is written and the loop
    reports success. *)
Lemma write_loop_quiet (req : list Z) (fuel : nat) :
  forall (addr : Z) (src : nat) (len : Z) (st : state),
    0 <= len < Z.of_nat fuel ->
    0 <= addr -> addr + len < 2 ^ 32 ->
    (src + Z.to_nat len <= length req)%nat ->
    bytes_ok req -> flash_ok (flash st) ->
    secret_abort st = false ->
    quiet cfg (pending st) = true ->
    exists st',
      write_loop cfg fuel addr req src len st = Done (true, st')
      /\ secret_busy st' = secret_busy st
      /\ secret_abort st' = false
      /\ quiet cfg (pending st') = true
      /\ flash_ok (flash st')
      /\ forall a, flash st' a
                   = if in_range addr (addr + len) a
                     then byte_at req (src + Z.to_nat (a - addr))
                     else flash st a.
Proof.
  induction fuel as [|fuel IH];
    intros addr src len st Hlen Haddr Hend Hsrc Hreq Hflash Habort Hquiet; [lia|].
  destruct (Z.eq_dec len 0) as [->|Hne].
  - cbn [write_loop]. rewrite Z.ltb_irrefl. exists st.
    split_ands; try assumption.
    intros a. unfold in_range. zbool.
  - destruct (poll_fields cfg st) as (Pb & Pa & Ps & Pf & Pp).
    rewrite Habort, (quiet_slot cfg _ 0 Hquiet), andb_false_r in Pa. simpl in Pa.
    destruct (write_loop_iter req addr src len st) as
      (st1 & Hrun & Hc & Hb1 & Ha1 & Hp1 & Hf1 & Hcell1); try assumption; try lia.
    set (chunk := Z.min len (SECTOR - addr mod SECTOR)) in *.
    destruct (IH (addr + chunk) (src + Z.to_nat chunk)%nat (len - chunk) st1)
      as (st' & Hrun' & Hb & Ha & Hq & Hf & Hcell); try assumption; try lia.
    { rewrite Hp1. apply quiet_drop, Hquiet. }
    exists st'. rewrite Hrun, Hrun'.
    split_ands; try assumption; try congruence.
    intros a. rewrite Hcell, Hcell1. unfold in_range.
    destruct (Z.leb_spec (addr + chunk) a), (Z.ltb_spec a (addr + chunk + (len - chunk)));
      simpl; zbool; f_equal; lia.
Qed.

(** The first [k] turns of the loop under a schedule whose first [k]
    slots are quiet, when the data lasts that long. *)
Lemma write_loop_prefix (req : list Z) (k : nat) :
  forall (addr : Z) (src : nat) (len : Z) (st : state),
    0 <= len -> 0 <= addr -> addr + len < 2 ^ 32 ->
    (src + Z.to_nat len <= length req)%nat ->
    bytes_ok req -> flash_ok (flash st) ->
    secret_abort st = false ->
    quiet_before cfg (pending st) k = true ->
    (k = 0%nat \/ committed cfg (pred k) addr len < len) ->
    exists st_k,
      (forall fuel,
          write_loop cfg (k + fuel) addr req src len st
          = write_loop cfg fuel (addr + committed cfg k addr len) req
                       (src + Z.to_nat (committed cfg k addr len))%nat
                       (len - committed cfg k addr len) st_k)
      /\ secret_busy st_k = secret_busy st
      /\ secret_abort st_k = false
      /\ pending st_k = drop k (pending st)
      /\ flash_ok (flash st_k)
      /\ forall a, flash st_k a
                   = if in_range addr (addr + committed cfg k addr len) a
                     then byte_at req (src + Z.to_nat (a - addr))
                     else flash st a.
Proof.
  induction k as [|k IH];
    intros addr src len st Hlen Haddr Hend Hsrc Hreq Hflash Habort Hquiet Hreach.
  - exists st. cbn [committed]. split.
    + intros fuel. simpl. do 3 f_equal; lia.
    + rewrite drop_0. split_ands; try assumption.
      intros a. unfold in_range. zbool.
  - destruct Hreach as [Hk|Hreach]; [discriminate|]. cbn [pred] in Hreach.
    pose proof (committed_range k addr len Hlen) as Hmk.
    rewrite quiet_before_S in Hquiet. apply andb_true_iff in Hquiet as [Hq0 Hq].
    apply negb_true_iff in Hq0.
    destruct (poll_fields cfg st) as (Pb & Pa & Ps & Pf & Pp).
    rewrite Habort, Hq0, andb_false_r in Pa. simpl in Pa.
    destruct (write_loop_iter req addr src len st) as
      (st1 & Hrun & Hc & Hb1 & Ha1 & Hp1 & Hf1 & Hcell1); try assumption; try lia.
    cbn [committed].
    assert (Hpos : (0 <? len) = true) by (apply Z.ltb_lt; lia).
    rewrite Hpos. cbv zeta.
    set (chunk := Z.min len (SECTOR - addr mod SECTOR)) in *.
    assert (Hreach1 : k = 0%nat \/ committed cfg (pred k) (addr + chunk) (len - chunk)
                                  < len - chunk).
    { destruct k as [|k']; [left; reflexivity|right]. cbn [pred].
      cbn [committed] in Hreach. rewrite Hpos in Hreach. cbv zeta in Hreach.
      fold chunk in Hreach. lia. }
    destruct (IH (addr + chunk) (src + Z.to_nat chunk)%nat (len - chunk) st1)
      as (st_k & Hrun' & Hb & Ha & Hp & Hf & Hcell); try assumption; try lia.
    { rewrite Hp1. exact Hq. }
    pose proof (committed_range k (addr + chunk) (len - chunk) ltac:(lia)) as Hm1.
    set (m1 := committed cfg k (addr + chunk) (len - chunk)) in *.
    exists st_k. split.
    { intros fuel. cbn [Nat.add]. rewrite Hrun, Hrun'.
      f_equal; lia. }
    split_ands; try assumption; try congruence.
    + rewrite Hp, Hp1, drop_drop. reflexivity.
    + intros a. rewrite Hcell, Hcell1. unfold in_range.
      destruct (Z.leb_spec (addr + chunk) a), (Z.ltb_spec a (addr + chunk + m1));
        simpl; zbool; f_equal; lia.
Qed.

(** A turn of the loop whose chunk does not fit the rest of the request
    array reads outside it. *)
Lemma write_loop_overrun_step (req : list Z) (fuel : nat) (addr : Z) (src : nat)
    (len : Z) (st : state) :
  0 < len -> 0 <= addr -> addr + len < 2 ^ 32 ->
  secret_abort (poll cfg st) = false ->
  (length req < src + Z.to_nat (Z.min len (SECTOR - addr mod SECTOR)))%nat ->
  write_loop cfg (S fuel) addr req src len st = OutOfBounds.
Proof.
  intros Hlen Haddr Hend Habort Hover.
  destruct (hw_sector_pow2 cfg cfg_ok) as (k & Hk & HS).
  pose proof sector_size_pos as Hs.
  pose proof sector_size_32bit as Hs32.
  pose proof (Z.mod_pos_bound addr SECTOR Hs) as Hso.
  pose proof (Z.mod_le addr SECTOR Haddr Hs) as Hso'.
  cbn [write_loop].
  assert (Hpos : (0 <? len) = true) by (apply Z.ltb_lt; lia).
  rewrite Hpos, Habort.
  replace (Z.land addr (u32 (Z.lnot (SECTOR - 1)))) with (addr - addr mod SECTOR)
    by (rewrite HS; symmetry; apply sector_mask; lia).
  replace (u32 (addr - (addr - addr mod SECTOR))) with (addr mod SECTOR)
    by (rewrite u32_small; lia).
  rewrite (u32_small (SECTOR - addr mod SECTOR)) by lia.
  replace (if SECTOR - addr mod SECTOR >? len then len else SECTOR - addr mod SECTOR)
    with (Z.min len (SECTOR - addr mod SECTOR))
    by (rewrite Z.gtb_ltb; destruct (Z.ltb_spec len (SECTOR - addr mod SECTOR)); lia).
  cbv zeta. rewrite frame_slice_None by exact Hover. reflexivity.
Qed.

(** With a quiet schedule, a write whose source range leaves the request
    array ends by reading outside it. *)
Lemma write_loop_overread (req : list Z) (fuel : nat) :
  forall (addr : Z) (src : nat) (len : Z) (st : state),
    0 < len < Z.of_nat fuel ->
    0 <= addr -> addr + len < 2 ^ 32 ->
    bytes_ok req -> flash_ok (flash st) ->
    secret_abort st = false ->
    quiet cfg (pending st) = true ->
    (length req < src + Z.to_nat len)%nat ->
    write_loop cfg fuel addr req src len st = OutOfBounds.
Proof.
  induction fuel as [|fuel IH];
    intros addr src len st Hlen Haddr Hend Hreq Hflash Habort Hquiet Hover; [lia|].
  destruct (poll_fields cfg st) as (Pb & Pa & Ps & Pf & Pp).
  rewrite Habort, (quiet_slot cfg _ 0 Hquiet), andb_false_r in Pa. simpl in Pa.
  destruct (le_lt_dec (src + Z.to_nat (Z.min len (SECTOR - addr mod SECTOR)))
              (length req)) as [Hfit|Hnofit].
  - destruct (write_loop_iter req addr src len st) as
      (st1 & Hrun & Hc & Hb1 & Ha1 & Hp1 & Hf1 & Hcell1); try assumption; try lia.
    rewrite Hrun.
    apply IH; try assumption; try lia.
    rewrite Hp1. apply quiet_drop, Hquiet.
  - apply write_loop_overrun_step; try assumption; lia.
Qed.

(** The engine never touches [secret_busy]. *)
Lemma write_loop_busy (req : list Z) (fuel : nat) :
  forall (addr : Z) (src : nat) (len : Z) (st : state) (ok : bool) (st' : state),
    write_loop cfg fuel addr req src len st = Done (ok, st') ->
    secret_busy st' = secret_busy st.
Proof.
  induction fuel as [|fuel IH]; intros addr src len st ok st' H; [discriminate|].
  cbn [write_loop] in H.
  destruct (poll_fields cfg st) as (Pb & _).
  destruct (0 <? len); [|congruence].
  destruct (secret_abort (poll cfg st)); [congruence|].
  cbv zeta in H.
  destruct (frame_slice _ _ _); [|discriminate].
  apply IH in H. simpl in H. congruence.
Qed.

End WriteEngine.

(** The sample build satisfies the static assertions and the hardware
    facts. *)
Lemma rp2040_example_ok : config_ok rp2040_example.
Proof.
  constructor; try (vm_compute; first [reflexivity | discriminate]).
  - exists 12. split; [lia | reflexivity].
  - split; vm_compute; first [reflexivity | discriminate].
Qed.

Lemma rp2040_wide_ok : config_ok rp2040_wide.
Proof.
  constructor; try (vm_compute; first [reflexivity | discriminate]).
  - exists 12. split; [lia | reflexivity].
  - split; vm_compute; first [reflexivity | discriminate].
Qed.

Lemma erased_flash_ok : flash_ok erased_flash.
Proof. intros a. unfold erased_flash. lia. Qed.

Lemma zero_flash_ok : flash_ok zero_flash.
Proof. intros a. unfold zero_flash. lia. Qed.

(** * The dispatcher *)

Section Dispatcher.

Context (cfg : config).

Local Abbreviation SECTOR := (FLASH_SECTOR_SIZE cfg).

Lemma frame_copy (data : list Z) :
  length data = FRAME_SIZE -> frame_slice data 0 FRAME_SIZE = Some data.
Proof.
  intros H. rewrite frame_slice_Some by lia.
  rewrite drop_0, take_ge by lia. reflexivity.
Qed.

(** The cleared response buffer, whatever the framing. *)
Lemma response_cleared (base : nat) (data : list Z) :
  length data = FRAME_SIZE ->
  (if (base =? 1)%nat then <[0%nat := byte_at data 0]> (memset_at data 1 0 31)
   else memset_at data 1 0 31) = cleared data.
Proof.
  intros H. unfold memset_at, memcpy_at, cleared, FRAME_SIZE in *.
  destruct data as [|d0 data]; [discriminate|].
  rewrite length_replicate, (drop_ge _ (1 + 31)) by (simpl in *; lia).
  rewrite app_nil_r. destruct (base =? 1)%nat; reflexivity.
Qed.

Lemma length_cleared (data : list Z) : length (cleared data) = FRAME_SIZE.
Proof. reflexivity. Qed.

(** A frame that carries [cmd] at [base] is served as such. *)
Lemma dispatch_framed (fuel : nat) (base : nat) (cmd : Z) (data : list Z) (st : state) :
  length data = FRAME_SIZE -> framed base cmd data ->
  raw_hid_receive_kb cfg fuel data st = serve cfg fuel base cmd data data st.
Proof.
  intros Hlen (Hcmd & [(-> & H0) | (-> & H0 & H1)]); unfold raw_hid_receive_kb;
    rewrite frame_copy by exact Hlen.
  - rewrite H0, Hcmd. reflexivity.
  - rewrite H0, H1, Hcmd. reflexivity.
Qed.

Lemma byte_at_memcpy_at_before (dst : list Z) (pos : nat) (src : list Z) (j : nat) :
  (j < pos <= length dst)%nat ->
  byte_at (memcpy_at dst pos src) j = byte_at dst j.
Proof.
  intros Hj. unfold byte_at, memcpy_at.
  rewrite lookup_app_l by (rewrite length_take; lia).
  rewrite lookup_take_lt by lia. reflexivity.
Qed.

Lemma byte_at_info_response_0 (data : list Z) (p : nat) :
  byte_at (info_response cfg data p) 0 = byte_at data 0.
Proof.
  unfold info_response, write_u32_be. cbv zeta.
  repeat rewrite byte_at_insert_ne by lia. reflexivity.
Qed.

Lemma byte_at_write_u32_be_ne (buf : list Z) (pos : nat) (v : Z) (j : nat) :
  (j < pos \/ pos + 4 <= j)%nat -> byte_at (write_u32_be buf pos v) j = byte_at buf j.
Proof. intros H. unfold byte_at. rewrite lookup_write_u32_be_ne by exact H. reflexivity. Qed.

(** The INFO branch stores the descriptor behind the status byte. *)
Lemma info_response_layout (data : list Z) (p : nat) :
  config_ok cfg -> (p + 20 <= length data)%nat ->
  info_layout cfg (info_response cfg data p) (p + 1).
Proof.
  intros Hok Hlen.
  pose proof (assert_storage_pos cfg Hok). pose proof (assert_fits cfg Hok).
  pose proof (hw_backing_nonneg cfg Hok). pose proof (hw_flash_32bit cfg Hok).
  pose proof (hw_sector_pow2 cfg Hok) as (k & Hk & HS).
  assert (0 < FLASH_SECTOR_SIZE cfg) by (rewrite HS; apply Z.pow_pos_nonneg; lia).
  unfold info_layout.
  replace (p + 1 + 1)%nat with (p + 2)%nat by lia.
  replace (p + 1 + 5)%nat with (p + 6)%nat by lia.
  replace (p + 1 + 9)%nat with (p + 10)%nat by lia.
  replace (p + 1 + 13)%nat with (p + 14)%nat by lia.
  replace (p + 1 + 17)%nat with (p + 18)%nat by lia.
  replace (p + 1 + 18)%nat with (p + 19)%nat by lia.
  unfold info_response. cbv zeta.
  rewrite (u32_small (SECRET_STORAGE_SIZE cfg)) by lia.
  rewrite (u32_small (PICO_FLASH_SIZE_BYTES cfg)) by lia.
  rewrite (u32_small (WEAR_LEVELING_BACKING_SIZE cfg)) by lia.
  rewrite (u32_small (SECRET_STORAGE_BASE cfg)) by (unfold SECRET_STORAGE_BASE; lia).
  split_ands.
  - rewrite !byte_at_insert_ne, !byte_at_write_u32_be_ne by lia.
    apply byte_at_insert_eq. lia.
  - rewrite !frame_slice_insert_ne, !frame_slice_write_u32_be_ne by lia.
    apply frame_slice_write_u32_be. rewrite length_insert. lia.
  - rewrite !frame_slice_insert_ne, !frame_slice_write_u32_be_ne by lia.
    apply frame_slice_write_u32_be.
    rewrite !length_write_u32_be, length_insert. lia.
  - rewrite !frame_slice_insert_ne, !frame_slice_write_u32_be_ne by lia.
    apply frame_slice_write_u32_be.
    rewrite !length_write_u32_be, length_insert. lia.
  - rewrite !frame_slice_insert_ne by lia.
    apply frame_slice_write_u32_be.
    rewrite !length_write_u32_be, length_insert. lia.
  - rewrite byte_at_insert_ne by lia. apply byte_at_insert_eq.
    rewrite !length_write_u32_be, length_insert. lia.
  - apply byte_at_insert_eq.
    rewrite length_insert, !length_write_u32_be, length_insert. lia.
Qed.

(** Every response keeps byte 0 of the request. *)
Lemma serve_echo (fuel : nat) (base : nat) (cmd : Z) (data : list Z) (st : state)
    (resp : list Z) (st' : state) :
  length data = FRAME_SIZE -> (base <= 1)%nat ->
  serve cfg fuel base cmd data data st = Done (resp, st') ->
  byte_at resp 0 = byte_at data 0.
Proof.
  intros Hlen Hbase H. unfold serve in H. cbv zeta in H.
  rewrite response_cleared in H by exact Hlen.
  assert (Hins : forall v l, byte_at (<[(base + 1)%nat := v]> l) 0 = byte_at l 0)
    by (intros; apply byte_at_insert_ne; lia).
  repeat match type of H with
         | context [if ?c then _ else _] => destruct c
         | context [match ?e with Done _ => _ | OutOfBounds => _ | OutOfFuel => _ end] =>
             destruct e as [[? ?]| |]
         end;
    try discriminate; injection H as <- <-;
    rewrite ?Hins, ?byte_at_info_response_0; try reflexivity.
  all: rewrite ?byte_at_insert_ne, ?Hins by lia.
  all: rewrite byte_at_memcpy_at_before
    by (rewrite length_cleared; unfold FRAME_SIZE; lia).
  all: reflexivity.
Qed.

Lemma byte_at_status_only (b : nat) (status : Z) (data : list Z) :
  (b <= 1)%nat -> byte_at (status_only b status data) (b + 1) = status.
Proof.
  intros Hb. unfold status_only. apply byte_at_insert_eq.
  rewrite length_cleared. unfold FRAME_SIZE. lia.
Qed.

Lemma framed_base (base : nat) (cmd : Z) (data : list Z) :
  framed base cmd data -> (base <= 1)%nat.
Proof. intros (_ & [(-> & _) | (-> & _)]); lia. Qed.

Lemma gtb_false (x y : Z) : x <= y -> (x >? y) = false.
Proof. intros H. rewrite Z.gtb_ltb. apply Z.ltb_ge. exact H. Qed.

(** An accepted READ: the engine runs between raising and clearing
    [secret_busy]. *)
Lemma serve_read (fuel : nat) (data : list Z) (st : state) (base : nat) :
  length data = FRAME_SIZE ->
  framed base SECRET_CMD_READ data ->
  secret_busy st = false ->
  let offset := read_u32_be data (base + 1) in
  let size := byte_at data (base + 5) in
  size <> 0 -> size <= SECRET_MAX_READ ->
  u32 (offset + size) <= SECRET_STORAGE_SIZE cfg ->
  raw_hid_receive_kb cfg fuel data st
  = let st0 := set_abort false (set_busy true st) in
    let resp := memcpy_at (cleared data) (base + 3) (secret_read_bytes cfg offset size st0) in
    let st1 := set_busy false (poll cfg st0) in
    if secret_abort st1
    then Done (<[(base + 1)%nat := SECRET_STATUS_ABORT]> resp, st1)
    else Done (<[(base + 2)%nat := size]> (<[(base + 1)%nat := SECRET_STATUS_OK]> resp),
               st1).
Proof.
  intros Hlen Hframed Hbusy offset size Hsize Hmax Hsum.
  rewrite (dispatch_framed fuel base SECRET_CMD_READ) by assumption.
  unfold serve. cbv zeta. rewrite response_cleared by exact Hlen.
  change (SECRET_CMD_READ =? SECRET_CMD_INFO) with false.
  change (SECRET_CMD_READ =? SECRET_CMD_READ) with true.
  rewrite Hbusy. cbv iota. fold offset size.
  apply Z.eqb_neq in Hsize. rewrite Hsize, !gtb_false by assumption.
  reflexivity.
Qed.

(** An accepted WRITE. *)
Lemma serve_write (fuel : nat) (data : list Z) (st : state) (base : nat) :
  length data = FRAME_SIZE ->
  framed base SECRET_CMD_WRITE data ->
  secret_busy st = false ->
  let offset := read_u32_be data (base + 1) in
  let size := byte_at data (base + 5) in
  size <> 0 -> size <= SECRET_MAX_WRITE ->
  u32 (offset + size) <= SECRET_STORAGE_SIZE cfg ->
  raw_hid_receive_kb cfg fuel data st
  = match secret_write_bytes cfg fuel offset data (base + 6) size
            (set_abort false (set_busy true st)) with
    | Done (ok, st1) =>
        Done (status_only base (engine_status ok (set_busy false (poll cfg st1))) data,
              set_busy false (poll cfg st1))
    | OutOfBounds => OutOfBounds
    | OutOfFuel => OutOfFuel
    end.
Proof.
  intros Hlen Hframed Hbusy offset size Hsize Hmax Hsum.
  rewrite (dispatch_framed fuel base SECRET_CMD_WRITE) by assumption.
  unfold serve. cbv zeta. rewrite response_cleared by exact Hlen.
  change (SECRET_CMD_WRITE =? SECRET_CMD_INFO) with false.
  change (SECRET_CMD_WRITE =? SECRET_CMD_READ) with false.
  change (SECRET_CMD_WRITE =? SECRET_CMD_WRITE) with true.
  rewrite Hbusy. cbv iota. fold offset size.
  apply Z.eqb_neq in Hsize. rewrite Hsize, !gtb_false by assumption.
  reflexivity.
Qed.

(** An accepted ERASE. *)
Lemma serve_erase (fuel : nat) (data : list Z) (st : state) (base : nat) :
  length data = FRAME_SIZE ->
  framed base SECRET_CMD_ERASE data ->
  secret_busy st = false ->
  let offset := read_u32_be data (base + 1) in
  let size := read_u32_be data (base + 5) in
  size <> 0 ->
  u32 (offset + size) <= SECRET_STORAGE_SIZE cfg ->
  offset mod SECTOR = 0 -> size mod SECTOR = 0 ->
  raw_hid_receive_kb cfg fuel data st
  = match erase_loop cfg fuel (secret_flash_offset cfg offset)
            (u32 (secret_flash_offset cfg offset + size))
            (set_abort false (set_busy true st)) with
    | Done (ok, st1) =>
        Done (status_only base (engine_status ok (set_busy false (poll cfg st1))) data,
              set_busy false (poll cfg st1))
    | OutOfBounds => OutOfBounds
    | OutOfFuel => OutOfFuel
    end.
Proof.
  intros Hlen Hframed Hbusy offset size Hsize Hsum Hoff Hsz.
  rewrite (dispatch_framed fuel base SECRET_CMD_ERASE) by assumption.
  unfold serve, secret_erase_range. cbv zeta. rewrite response_cleared by exact Hlen.
  change (SECRET_CMD_ERASE =? SECRET_CMD_INFO) with false.
  change (SECRET_CMD_ERASE =? SECRET_CMD_READ) with false.
  change (SECRET_CMD_ERASE =? SECRET_CMD_WRITE) with false.
  change (SECRET_CMD_ERASE =? SECRET_CMD_ERASE) with true.
  rewrite Hbusy. cbv iota. fold offset size.
  apply Z.eqb_neq in Hsize. rewrite Hsize, !gtb_false by assumption.
  rewrite Hoff, Hsz. reflexivity.
Qed.

End Dispatcher.

(** * Engine runs under the dispatcher *)

Section Abort.

Context (cfg : config).
Hypothesis cfg_ok : config_ok cfg.

Local Abbreviation SECTOR := (FLASH_SECTOR_SIZE cfg).

(** The end address computed by [secret_erase_range] for an accepted
    request lies within the flash. *)
Lemma erase_end_in_flash (offset size : Z) :
  u32 (offset + size) <= SECRET_STORAGE_SIZE cfg ->
  u32 (secret_flash_offset cfg offset + size) <= PICO_FLASH_SIZE_BYTES cfg.
Proof.
  intros Hsum.
  pose proof (assert_fits cfg cfg_ok). pose proof (hw_backing_nonneg cfg cfg_ok).
  pose proof (hw_flash_32bit cfg cfg_ok). pose proof (sector_size_pos cfg cfg_ok).
  pose proof (u32_range (offset + size)).
  unfold secret_flash_offset. rewrite u32_add_l.
  replace (SECRET_STORAGE_BASE cfg + offset + size)
    with (SECRET_STORAGE_BASE cfg + (offset + size)) by lia.
  rewrite <- u32_add_r, u32_small; unfold SECRET_STORAGE_BASE; lia.
Qed.

(** Abort of an accepted ERASE at sector boundary [k]. *)
Lemma erase_abort (fuel : nat) (data : list Z) (st : state) (base k : nat) :
  length data = FRAME_SIZE ->
  framed base SECRET_CMD_ERASE data ->
  secret_busy st = false ->
  let offset := read_u32_be data (base + 1) in
  let size := read_u32_be data (base + 5) in
  let start := secret_flash_offset cfg offset in
  size <> 0 ->
  u32 (offset + size) <= SECRET_STORAGE_SIZE cfg ->
  offset mod SECTOR = 0 -> size mod SECTOR = 0 ->
  (k < fuel)%nat ->
  quiet_before cfg (pending st) k = true ->
  has_escape cfg (slot (pending st) k) = true ->
  start + Z.of_nat k * SECTOR <= u32 (start + size) ->
  exists resp st',
    raw_hid_receive_kb cfg fuel data st = Done (resp, st')
    /\ byte_at resp (base + 1) = SECRET_STATUS_ABORT
    /\ secret_busy st' = false
    /\ forall a, flash st' a
                 = if in_range start (start + Z.of_nat k * SECTOR) a
                   then 0xFF else flash st a.
Proof.
  intros Hlen Hframed Hbusy offset size start Hsize Hsum Hoff Hsz Hfuel Hquiet Hesc
         Hreach.
  pose proof (sector_size_pos cfg cfg_ok) as Hs.
  pose proof (hw_flash_32bit cfg cfg_ok).
  pose proof (erase_end_in_flash offset size Hsum) as Hend. fold start in Hend.
  pose proof (u32_range (SECRET_STORAGE_BASE cfg + offset)) as Hstart.
  fold (secret_flash_offset cfg offset) in Hstart. fold start in Hstart.
  pose proof (framed_base _ _ _ Hframed) as Hbase.
  rewrite (serve_erase cfg fuel data st base Hlen Hframed Hbusy Hsize Hsum Hoff Hsz).
  fold offset size start.
  set (st0 := set_abort false (set_busy true st)).
  destruct (Z.eq_dec (start + Z.of_nat k * SECTOR) (u32 (start + size))) as [Heq|Hne].
  - destruct (erase_loop_calm cfg Hs k fuel start st0)
      as (st1 & Hrun & Hb & Ha & _ & Hp & Hf); try assumption; try lia;
      try reflexivity.
    rewrite <- Heq, Hrun.
    eexists _, _. split; [reflexivity|].
    split; [rewrite byte_at_status_only by exact Hbase|split; [reflexivity|]].
    + apply engine_status_abort; [exact Hb|]. right.
      rewrite Hp, slot_drop. exact Hesc.
    + intros a. cbn [flash set_busy].
      destruct (poll_fields cfg st1) as (_ & _ & _ & Pf & _). rewrite Pf. apply Hf.
  - destruct (erase_loop_abort cfg Hs k fuel start (u32 (start + size)) st0)
      as (st1 & Hrun & Hb & Ha & _ & Hp & Hf); try assumption; try lia;
      try reflexivity.
    rewrite Hrun.
    eexists _, _. split; [reflexivity|].
    split; [rewrite byte_at_status_only by exact Hbase|split; [reflexivity|]].
    + apply engine_status_abort; [exact Hb|]. left. exact Ha.
    + intros a. cbn [flash set_busy].
      destruct (poll_fields cfg st1) as (_ & _ & _ & Pf & _). rewrite Pf. apply Hf.
Qed.

(** Abort of an accepted WRITE at chunk boundary [k]. *)
Lemma write_abort (fuel : nat) (data : list Z) (st : state) (base k : nat) :
  length data = FRAME_SIZE -> bytes_ok data ->
  framed base SECRET_CMD_WRITE data ->
  secret_busy st = false -> flash_ok (flash st) ->
  let offset := read_u32_be data (base + 1) in
  let size := byte_at data (base + 5) in
  let start := secret_flash_offset cfg offset in
  1 <= size <= 26 ->
  (base + 6 + Z.to_nat size <= FRAME_SIZE)%nat ->
  u32 (offset + size) <= SECRET_STORAGE_SIZE cfg ->
  start + size < 2 ^ 32 ->
  (k < fuel)%nat ->
  quiet_before cfg (pending st) k = true ->
  has_escape cfg (slot (pending st) k) = true ->
  (k = 0%nat \/ committed_bytes cfg (pred k) start size < size) ->
  exists resp st',
    raw_hid_receive_kb cfg fuel data st = Done (resp, st')
    /\ byte_at resp (base + 1) = SECRET_STATUS_ABORT
    /\ secret_busy st' = false
    /\ forall a, flash st' a
                 = if in_range start (start + committed_bytes cfg k start size) a
                   then byte_at data (base + 6 + Z.to_nat (a - start))
                   else flash st a.
Proof.
  intros Hlen Hbytes Hframed Hbusy Hflash offset size start Hsize Hfit Hsum Hwrap
         Hfuel Hquiet Hesc Hreach.
  rewrite <- (committed_closed_form cfg cfg_ok k) by lia.
  rewrite <- (committed_closed_form cfg cfg_ok (pred k)) in Hreach by lia.
  pose proof (u32_range (SECRET_STORAGE_BASE cfg + offset)) as Hstart.
  fold (secret_flash_offset cfg offset) in Hstart. fold start in Hstart.
  pose proof (framed_base _ _ _ Hframed) as Hbase.
  rewrite (serve_write cfg fuel data st base Hlen Hframed Hbusy);
    fold offset size; unfold SECRET_MAX_WRITE; try lia; try exact Hsum.
  unfold secret_write_bytes. fold start.
  set (st0 := set_abort false (set_busy true st)).
  destruct (write_loop_prefix cfg cfg_ok data k start (base + 6) size st0)
    as (st_k & Hrun & Hb & Ha & Hp & Hfok & Hf); try assumption; try lia;
    try reflexivity.
  subst st0. cbn [secret_busy pending flash set_abort set_busy] in Hb, Hp, Hf.
  pose proof (committed_range cfg cfg_ok k start size ltac:(lia)) as Hm.
  set (m := committed cfg k start size) in *.
  destruct fuel as [|fuel]; [lia|].
  replace (S fuel) with (k + S (fuel - k))%nat by lia.
  rewrite Hrun. cbn [write_loop].
  destruct (Z.ltb_spec 0 (size - m)).
  - destruct (poll_fields cfg st_k) as (Pb & Pa & Ps & Pf & Pp).
    assert (Habort : secret_abort (poll cfg st_k) = true).
    { rewrite Pa, Ha, Hb, Hp, slot_drop, Hesc. reflexivity. }
    rewrite Habort.
    eexists _, _. split; [reflexivity|].
    split; [rewrite byte_at_status_only by exact Hbase|split; [reflexivity|]].
    + apply engine_status_abort; [rewrite Pb; exact Hb|]. left. exact Habort.
    + intros a. cbn [flash set_busy].
      destruct (poll_fields cfg (poll cfg st_k)) as (_ & _ & _ & Qf & _).
      rewrite Qf, Pf. apply Hf.
  - eexists _, _. split; [reflexivity|].
    split; [rewrite byte_at_status_only by exact Hbase|split; [reflexivity|]].
    + apply engine_status_abort; [exact Hb|]. right.
      rewrite Hp, slot_drop. exact Hesc.
    + intros a. cbn [flash set_busy].
      destruct (poll_fields cfg st_k) as (_ & _ & _ & Pf & _). rewrite Pf. apply Hf.
Qed.

End Abort.

Section Termination.

Context (cfg : config).
Hypothesis cfg_ok : config_ok cfg.

Local Abbreviation SECTOR := (FLASH_SECTOR_SIZE cfg).

(** The erase loop returns, whatever the key events, once the budget
    covers the sectors between [addr] and [end_]. *)
Lemma erase_loop_returns (fuel : nat) :
  forall (addr end_ : Z) (st : state),
    (1 <= fuel)%nat ->
    0 <= addr -> end_ + SECTOR <= 2 ^ 32 ->
    end_ - addr < (Z.of_nat fuel - 1) * SECTOR ->
    exists ok st', erase_loop cfg fuel addr end_ st = Done (ok, st').
Proof.
  pose proof (sector_size_pos cfg cfg_ok) as Hs.
  induction fuel as [|fuel IH]; intros addr end_ st Hfuel Haddr Hend Hbound; [lia|].
  cbn [erase_loop]. destruct (Z.ltb_spec addr end_); [|eauto].
  destruct (secret_abort (poll cfg st)); [eauto|].
  rewrite (u32_small (addr + SECTOR)) by lia.
  assert (1 <= fuel)%nat by (destruct fuel; [simpl in Hbound; lia | lia]).
  apply IH; lia.
Qed.

(** The write loop returns, whatever the key events, unless the payload
    range leaves the request array. *)
Lemma write_loop_returns (req : list Z) (fuel : nat) :
  forall (addr : Z) (src : nat) (len : Z) (st : state),
    0 <= len < Z.of_nat fuel -> len < 2 ^ 32 -> 0 <= addr < 2 ^ 32 ->
    match write_loop cfg fuel addr req src len st with
    | Done _ => True
    | OutOfBounds => (length req < src + Z.to_nat len)%nat
    | OutOfFuel => False
    end.
Proof.
  destruct (hw_sector_pow2 cfg cfg_ok) as (k & Hk & HS).
  pose proof (sector_size_pos cfg cfg_ok) as Hs.
  pose proof (sector_size_32bit cfg cfg_ok) as Hs32.
  induction fuel as [|fuel IH]; intros addr src len st Hlen Hlen32 Haddr; [lia|].
  cbn [write_loop]. destruct (Z.ltb_spec 0 len); [|exact I].
  destruct (secret_abort (poll cfg st)); [exact I|].
  pose proof (Z.mod_pos_bound addr SECTOR Hs) as Hso.
  pose proof (Z.mod_le addr SECTOR ltac:(lia) Hs) as Hso'.
  replace (Z.land addr (u32 (Z.lnot (SECTOR - 1)))) with (addr - addr mod SECTOR)
    by (rewrite HS; symmetry; apply sector_mask; lia).
  replace (u32 (addr - (addr - addr mod SECTOR))) with (addr mod SECTOR)
    by (rewrite u32_small; lia).
  rewrite (u32_small (SECTOR - addr mod SECTOR)) by lia.
  cbv zeta.
  set (chunk := if SECTOR - addr mod SECTOR >? len then len
                else SECTOR - addr mod SECTOR).
  assert (Hchunk : 0 < chunk <= len)
    by (subst chunk; rewrite Z.gtb_ltb;
        destruct (Z.ltb_spec len (SECTOR - addr mod SECTOR)); lia).
  unfold frame_slice at 1.
  destruct (Nat.leb_spec (src + Z.to_nat chunk) (length req)); [|cbv iota; lia].
  rewrite (u32_small (len - chunk)) by lia.
  match goal with
  | |- match write_loop cfg fuel ?a req ?s ?l ?st' with _ => _ end =>
      specialize (IH a s l st' ltac:(lia) ltac:(lia) (u32_range _));
      destruct (write_loop cfg fuel a req s l st')
  end; [exact I | lia | exact IH].
Qed.

End Termination.

Section BusyFlag.

Context (cfg : config).
Hypothesis cfg_ok : config_ok cfg.

Local Abbreviation SECTOR := (FLASH_SECTOR_SIZE cfg).

Lemma is_command_cases (cmd : Z) :
  is_command cmd = true ->
  cmd = SECRET_CMD_INFO \/ cmd = SECRET_CMD_READ
  \/ cmd = SECRET_CMD_WRITE \/ cmd = SECRET_CMD_ERASE.
Proof.
  unfold is_command. rewrite !orb_true_iff, !Z.eqb_eq. tauto.
Qed.

(** Serving a frame from an idle state ends with [secret_busy] clear,
    unless the payload of a prefixed WRITE of 26 bytes runs off the
    request array. *)
Lemma serve_busy_restored (fuel : nat) (base : nat) (cmd : Z) (data : list Z)
    (st : state) :
  (base <= 1)%nat -> is_command cmd = true ->
  length data = FRAME_SIZE -> bytes_ok data ->
  secret_busy st = false ->
  PICO_FLASH_SIZE_BYTES cfg / SECTOR + 1 < Z.of_nat fuel ->
  26 < Z.of_nat fuel ->
  match serve cfg fuel base cmd data data st with
  | Done (_, st') => secret_busy st' = false
  | OutOfBounds =>
      base = 1%nat /\ cmd = SECRET_CMD_WRITE /\ byte_at data (base + 5) = 26
  | OutOfFuel => False
  end.
Proof.
  intros Hbase Hcmd Hlen Hbytes Hbusy Hfuel Hfuel'.
  pose proof (sector_size_pos cfg cfg_ok) as Hs.
  pose proof (hw_flash_32bit cfg cfg_ok) as H32.
  unfold serve. cbv zeta. rewrite response_cleared by exact Hlen.
  destruct (is_command_cases cmd Hcmd) as [-> | [-> | [-> | ->]]].
  - change (SECRET_CMD_INFO =? SECRET_CMD_INFO) with true. cbv iota. exact Hbusy.
  - change (SECRET_CMD_READ =? SECRET_CMD_INFO) with false.
    change (SECRET_CMD_READ =? SECRET_CMD_READ) with true.
    rewrite Hbusy. cbv iota.
    repeat match goal with
           | |- context [if ?c then _ else _] => destruct c
           end; first [exact Hbusy | reflexivity].
  - change (SECRET_CMD_WRITE =? SECRET_CMD_INFO) with false.
    change (SECRET_CMD_WRITE =? SECRET_CMD_READ) with false.
    change (SECRET_CMD_WRITE =? SECRET_CMD_WRITE) with true.
    rewrite Hbusy. cbv iota.
    pose proof (bytes_ok_byte_at data (base + 5) Hbytes) as Hsz.
    set (size := byte_at data (base + 5)) in *.
    unfold SECRET_MAX_WRITE. rewrite Z.gtb_ltb.
    destruct (Z.eqb_spec size 0); [exact Hbusy|].
    destruct (Z.ltb_spec 26 size); [exact Hbusy|]. cbn [orb].
    destruct (_ >? _); [exact Hbusy|].
    unfold secret_write_bytes.
    match goal with
    | |- context [write_loop cfg fuel ?a data ?s size ?st0] =>
        pose proof (write_loop_returns cfg cfg_ok data fuel a s size st0
                      ltac:(lia) ltac:(lia) (u32_range _)) as Hret;
        destruct (write_loop cfg fuel a data s size st0) as [[ok st1]| |]
    end.
    + reflexivity.
    + rewrite Hlen in Hret. unfold FRAME_SIZE in Hret. split_ands; lia.
    + exact Hret.
  - change (SECRET_CMD_ERASE =? SECRET_CMD_INFO) with false.
    change (SECRET_CMD_ERASE =? SECRET_CMD_READ) with false.
    change (SECRET_CMD_ERASE =? SECRET_CMD_WRITE) with false.
    change (SECRET_CMD_ERASE =? SECRET_CMD_ERASE) with true.
    rewrite Hbusy. cbv iota.
    set (offset := read_u32_be data (base + 1)).
    set (size := read_u32_be data (base + 5)).
    destruct (size =? 0); [exact Hbusy|].
    rewrite Z.gtb_ltb.
    destruct (Z.ltb_spec (SECRET_STORAGE_SIZE cfg) (u32 (offset + size)));
      [exact Hbusy|].
    unfold secret_erase_range.
    destruct (negb (offset mod SECTOR =? 0) || negb (size mod SECTOR =? 0));
      [exact Hbusy|].
    pose proof (erase_end_in_flash cfg cfg_ok offset size ltac:(lia)) as Hend.
    pose proof (u32_range (SECRET_STORAGE_BASE cfg + offset)) as Hstart.
    fold (secret_flash_offset cfg offset) in Hstart.
    pose proof (Z.mul_succ_div_gt (PICO_FLASH_SIZE_BYTES cfg) SECTOR Hs) as Hdiv.
    destruct (erase_loop_returns cfg cfg_ok fuel (secret_flash_offset cfg offset)
                (u32 (secret_flash_offset cfg offset + size))
                (set_abort false (set_busy true st)))
      as (ok & st1 & Hrun); try lia; try nia.
    rewrite Hrun. reflexivity.
Qed.

End BusyFlag.

(** * The claims *)

(** C10. The cancellation hook: while [secret_busy] is false it returns
    true and changes nothing; while [secret_busy] is true it returns false
    for every key, and it raises [secret_abort] exactly on a press of
    Escape, leaving the state as it is for releases and other keys. *)
Theorem hook_blocks_and_cancels (cfg : config) (keycode : Z) (record : keyrecord_t)
    (st : state) :
  (secret_busy st = false ->
   secret_storage_process_record_user cfg keycode record st = (true, st))
  /\ (secret_busy st = true ->
      fst (secret_storage_process_record_user cfg keycode record st) = false
      /\ snd (secret_storage_process_record_user cfg keycode record st)
         = (if pressed (event record) && (keycode =? KC_ESC cfg)
            then set_abort true st else st)
      /\ (secret_abort (snd (secret_storage_process_record_user cfg keycode record st))
          = true
          <-> secret_abort st = true
              \/ (pressed (event record) = true /\ keycode = KC_ESC cfg))).
Proof.
  unfold secret_storage_process_record_user. split; intros Hb; rewrite Hb.
  - reflexivity.
  - cbn [fst snd]. split; [reflexivity|]. split; [reflexivity|].
    destruct (pressed (event record)); cbn [andb].
    + destruct (Z.eqb_spec keycode (KC_ESC cfg)); cbn [set_abort secret_abort].
      * tauto.
      * intuition congruence.
    + intuition congruence.
Qed.

Lemma hook_blocks_and_cancels_witness :
  secret_storage_process_record_user rp2040_example 0x04 (mkKeyRecord (mkKeyEvent true))
    (idle (fun _ => 0xFF) [])
  = (true, idle (fun _ => 0xFF) [])
  /\ secret_abort
       (snd (secret_storage_process_record_user rp2040_example 0x29
               (mkKeyRecord (mkKeyEvent true))
               (set_busy true (idle (fun _ => 0xFF) []))))
     = true.
Proof.
  split.
  - apply (hook_blocks_and_cancels rp2040_example 0x04 (mkKeyRecord (mkKeyEvent true))
             (idle (fun _ => 0xFF) [])).
    reflexivity.
  - apply (hook_blocks_and_cancels rp2040_example 0x29 (mkKeyRecord (mkKeyEvent true))
             (set_busy true (idle (fun _ => 0xFF) []))).
    + reflexivity.
    + right. split; reflexivity.
Defined.

(** C6. While [secret_busy] is true, every command other than INFO is
    answered with status BUSY in an otherwise cleared response that
    depends only on the framing and on byte 0 of the request, and the
    state (flags, scratch sector, flash, pending events) is returned as it
    was. *)
Theorem busy_rejects (cfg : config) (fuel : nat) (data : list Z) (st : state)
    (base : nat) (cmd : Z) :
  length data = FRAME_SIZE ->
  framed base cmd data ->
  cmd <> SECRET_CMD_INFO ->
  secret_busy st = true ->
  raw_hid_receive_kb cfg fuel data st
  = Done (status_only base SECRET_STATUS_BUSY data, st).
Proof.
  intros Hlen Hframed Hcmd Hbusy.
  rewrite (dispatch_framed cfg fuel base cmd) by assumption.
  unfold serve. cbv zeta. rewrite response_cleared by exact Hlen.
  apply Z.eqb_neq in Hcmd. rewrite Hcmd, Hbusy. reflexivity.
Qed.

Lemma busy_rejects_witness :
  raw_hid_receive_kb rp2040_example 1
    (frame_of [0x01; 0xA2; 0; 0; 0; 0; 3; 7; 8; 9])
    (set_busy true (idle erased_flash []))
  = Done (0x01 :: 0 :: SECRET_STATUS_BUSY :: replicate 29 0,
          set_busy true (idle erased_flash [])).
Proof.
  apply (busy_rejects rp2040_example 1 (frame_of [0x01; 0xA2; 0; 0; 0; 0; 3; 7; 8; 9])
           (set_busy true (idle erased_flash [])) 1 SECRET_CMD_WRITE).
  - reflexivity.
  - apply framed_prefixed; reflexivity.
  - unfold SECRET_CMD_WRITE, SECRET_CMD_INFO. lia.
  - reflexivity.
Defined.

(** The part of C7 that holds.  An ERASE request served while not busy
    is validated in this order: a zero size yields ERR; otherwise a 32-bit
    sum [offset + size] above the region size yields RANGE (in particular
    whenever the exact sum fits 32 bits and exceeds the region size);
    otherwise an offset or size that is no multiple of the sector size
    yields ALIGN.  Each rejection returns the state, flash included, as it
    was. *)
Theorem erase_validation_order (cfg : config) (fuel : nat) (data : list Z)
    (st : state) (base : nat) :
  length data = FRAME_SIZE ->
  bytes_ok data ->
  framed base SECRET_CMD_ERASE data ->
  secret_busy st = false ->
  let offset := read_u32_be data (base + 1) in
  let size := read_u32_be data (base + 5) in
  (size = 0 ->
   raw_hid_receive_kb cfg fuel data st
   = Done (status_only base SECRET_STATUS_ERR data, st))
  /\ (size <> 0 -> SECRET_STORAGE_SIZE cfg < u32 (offset + size) ->
      raw_hid_receive_kb cfg fuel data st
      = Done (status_only base SECRET_STATUS_RANGE data, st))
  /\ (size <> 0 -> offset + size < 2 ^ 32 -> SECRET_STORAGE_SIZE cfg < offset + size ->
      raw_hid_receive_kb cfg fuel data st
      = Done (status_only base SECRET_STATUS_RANGE data, st))
  /\ (size <> 0 -> u32 (offset + size) <= SECRET_STORAGE_SIZE cfg ->
      offset mod FLASH_SECTOR_SIZE cfg <> 0 \/ size mod FLASH_SECTOR_SIZE cfg <> 0 ->
      raw_hid_receive_kb cfg fuel data st
      = Done (status_only base SECRET_STATUS_ALIGN data, st)).
Proof.
  intros Hlen Hbytes Hframed Hbusy offset size.
  rewrite (dispatch_framed cfg fuel base SECRET_CMD_ERASE) by assumption.
  unfold serve. cbv zeta. rewrite response_cleared by exact Hlen.
  change (SECRET_CMD_ERASE =? SECRET_CMD_INFO) with false.
  change (SECRET_CMD_ERASE =? SECRET_CMD_READ) with false.
  change (SECRET_CMD_ERASE =? SECRET_CMD_WRITE) with false.
  change (SECRET_CMD_ERASE =? SECRET_CMD_ERASE) with true.
  rewrite Hbusy. cbv iota. fold offset size.
  assert (Hrange : forall s, SECRET_STORAGE_SIZE cfg < s ->
                             (s >? SECRET_STORAGE_SIZE cfg) = true)
    by (intros s Hs; rewrite Z.gtb_ltb; apply Z.ltb_lt; exact Hs).
  split_ands.
  - intros ->. reflexivity.
  - intros Hsize Hsum. apply Z.eqb_neq in Hsize. rewrite Hsize, Hrange by exact Hsum.
    reflexivity.
  - intros Hsize Hfit Hsum. apply Z.eqb_neq in Hsize.
    pose proof (read_u32_be_range data (base + 1) Hbytes).
    pose proof (read_u32_be_range data (base + 5) Hbytes).
    rewrite Hsize, Hrange; [reflexivity|].
    rewrite u32_small by (subst offset size; lia). exact Hsum.
  - intros Hsize Hsum Halign. apply Z.eqb_neq in Hsize. rewrite Hsize.
    rewrite Z.gtb_ltb. destruct (Z.ltb_spec (SECRET_STORAGE_SIZE cfg) (u32 (offset + size)));
      [lia|].
    destruct Halign as [Ha|Ha]; apply Z.eqb_neq in Ha; rewrite Ha; cbn [negb orb];
      [reflexivity|].
    rewrite orb_true_r. reflexivity.
Qed.

Lemma erase_validation_order_witness :
  raw_hid_receive_kb rp2040_example 1
    (frame_of [0xA3; 0; 0; 0; 0; 0; 0; 0; 0]) (idle erased_flash [])
  = Done (0xA3 :: SECRET_STATUS_ERR :: replicate 30 0, idle erased_flash [])
  /\ raw_hid_receive_kb rp2040_example 1
       (frame_of [0xA3; 0; 0; 0x10; 0; 0; 0; 0x10; 0]) (idle erased_flash [])
     = Done (0xA3 :: SECRET_STATUS_RANGE :: replicate 30 0, idle erased_flash [])
  /\ raw_hid_receive_kb rp2040_example 1
       (frame_of [0xA3; 0; 0; 0; 0x10; 0; 0; 0; 0x20]) (idle erased_flash [])
     = Done (0xA3 :: SECRET_STATUS_ALIGN :: replicate 30 0, idle erased_flash []).
Proof.
  split; [|split].
  - destruct (erase_validation_order rp2040_example 1
                (frame_of [0xA3; 0; 0; 0; 0; 0; 0; 0; 0]) (idle erased_flash []) 0
                eq_refl (bytes_okb_ok (frame_of [0xA3; 0; 0; 0; 0; 0; 0; 0; 0]) eq_refl)
                (framed_unprefixed SECRET_CMD_ERASE (frame_of [0xA3; 0; 0; 0; 0; 0; 0; 0; 0]) eq_refl eq_refl)
                eq_refl)
      as (H & _).
    apply H. reflexivity.
  - destruct (erase_validation_order rp2040_example 1
                (frame_of [0xA3; 0; 0; 0x10; 0; 0; 0; 0x10; 0]) (idle erased_flash []) 0
                eq_refl (bytes_okb_ok (frame_of [0xA3; 0; 0; 0x10; 0; 0; 0; 0x10; 0]) eq_refl)
                (framed_unprefixed SECRET_CMD_ERASE (frame_of [0xA3; 0; 0; 0x10; 0; 0; 0; 0x10; 0]) eq_refl eq_refl)
                eq_refl)
      as (_ & H & _).
    apply H; vm_compute; [discriminate | reflexivity].
  - destruct (erase_validation_order rp2040_example 1
                (frame_of [0xA3; 0; 0; 0; 0x10; 0; 0; 0; 0x20]) (idle erased_flash []) 0
                eq_refl (bytes_okb_ok (frame_of [0xA3; 0; 0; 0; 0x10; 0; 0; 0; 0x20]) eq_refl)
                (framed_unprefixed SECRET_CMD_ERASE (frame_of [0xA3; 0; 0; 0; 0x10; 0; 0; 0; 0x20]) eq_refl eq_refl)
                eq_refl)
      as (_ & _ & _ & H).
    apply H; [vm_compute; discriminate | vm_compute; discriminate |].
    left. vm_compute. discriminate.
Defined.

(** C7 fails on the code.  The range check of ERASE adds offset and size
    in 32 bits, as that of READ and WRITE does.  With offset [0xFFFFFFFF]
    and size 1 the exact sum [2^32] exceeds the region size, yet the sum
    wraps to 0, the range check passes and the answer is ALIGN, not RANGE.
    With offset [0xFFE03000] and size [0x1FD000], both sector-aligned, the
    sum wraps to 0 as well, so does the flash address
    [SECRET_STORAGE_BASE + offset], and the request is answered OK after
    erasing every sector from flash offset 0 up to the secret region: a
    request that the claim rejects with RANGE leaves no flash byte below
    the region as it was. *)
Theorem erase_wrapped_sum_passes_range_check :
  (read_u32_be (frame_of [0xA3; 0xFF; 0xFF; 0xFF; 0xFF; 0; 0; 0; 1]) 1 = 0xFFFFFFFF
   /\ read_u32_be (frame_of [0xA3; 0xFF; 0xFF; 0xFF; 0xFF; 0; 0; 0; 1]) 5 = 1
   /\ SECRET_STORAGE_SIZE rp2040_example < 0xFFFFFFFF + 1
   /\ raw_hid_receive_kb rp2040_example 1
        (frame_of [0xA3; 0xFF; 0xFF; 0xFF; 0xFF; 0; 0; 0; 1]) (idle zero_flash [])
      = Done (frame_of [0xA3; SECRET_STATUS_ALIGN], idle zero_flash []))
  /\ (read_u32_be (frame_of [0xA3; 0xFF; 0xE0; 0x30; 0; 0; 0x1F; 0xD0; 0]) 1 = 0xFFE03000
      /\ read_u32_be (frame_of [0xA3; 0xFF; 0xE0; 0x30; 0; 0; 0x1F; 0xD0; 0]) 5 = 0x1FD000
      /\ SECRET_STORAGE_SIZE rp2040_example < 0xFFE03000 + 0x1FD000
      /\ exists resp st',
           raw_hid_receive_kb rp2040_example 510
             (frame_of [0xA3; 0xFF; 0xE0; 0x30; 0; 0; 0x1F; 0xD0; 0]) (idle zero_flash [])
           = Done (resp, st')
           /\ byte_at resp 1 = SECRET_STATUS_OK
           /\ forall a, flash st' a
                        = if in_range 0 (SECRET_STORAGE_BASE rp2040_example) a
                          then 0xFF else 0).
Proof.
  split; [vm_compute; repeat split|].
  split; [reflexivity|]. split; [reflexivity|]. split; [reflexivity|].
  set (data := frame_of [0xA3; 0xFF; 0xE0; 0x30; 0; 0; 0x1F; 0xD0; 0]).
  set (st0 := set_abort false (set_busy true (idle zero_flash []))).
  assert (Hr : raw_hid_receive_kb rp2040_example 510 data (idle zero_flash [])
               = match erase_loop rp2040_example 510 0
                         (0 + Z.of_nat 509 * FLASH_SECTOR_SIZE rp2040_example) st0 with
                 | Done (ok, st1) =>
                     Done (status_only 0
                             (engine_status ok (set_busy false (poll rp2040_example st1)))
                             data,
                           set_busy false (poll rp2040_example st1))
                 | OutOfBounds => OutOfBounds
                 | OutOfFuel => OutOfFuel
                 end).
  { rewrite (serve_erase rp2040_example 510 data (idle zero_flash []) 0 eq_refl
               (framed_unprefixed SECRET_CMD_ERASE data eq_refl eq_refl) eq_refl);
      [reflexivity | vm_compute; discriminate | vm_compute; discriminate
       | reflexivity | reflexivity]. }
  destruct (erase_loop_calm rp2040_example ltac:(reflexivity) 509 510 0 st0)
    as (st1 & Hrun & _ & Ha1 & _ & Hp1 & Hcell);
    try reflexivity; try lia.
  { vm_compute. discriminate. }
  rewrite Hrun in Hr.
  assert (Hq1 : quiet rp2040_example (pending st1) = true)
    by (rewrite Hp1; reflexivity).
  destruct (poll_fields rp2040_example st1) as (_ & Pa & _ & Pf & _).
  rewrite Ha1, (quiet_slot rp2040_example _ 0 Hq1), andb_false_r in Pa. simpl in Pa.
  eexists _, _. split; [exact Hr|]. split.
  - rewrite byte_at_status_only by lia.
    unfold engine_status. cbn [secret_abort set_busy]. rewrite Pa. reflexivity.
  - intros a. cbn [flash set_busy]. rewrite Pf, Hcell. reflexivity.
Qed.

(** C3 as stated does not hold: in the response to an unprefixed INFO
    request the byte at the position of the command byte is the command
    code [0xA0], not the status OK, so the descriptor is not laid out
    from offset 0. *)
Lemma info_status_not_at_command_byte :
  exists resp st',
    raw_hid_receive_kb rp2040_example 1 (frame_of [0xA0]) (idle erased_flash [])
    = Done (resp, st')
    /\ byte_at resp 0 = SECRET_CMD_INFO
    /\ ~ info_layout rp2040_example resp 0.
Proof.
  eexists _, _. split; [vm_compute; reflexivity|].
  split; [reflexivity|].
  intros (H & _). vm_compute in H. discriminate H.
Qed.

(** C3, amended. Every INFO request, busy or not, is answered with the
    descriptor laid out one byte behind the command byte: with offsets
    relative to the command byte, [1] is OK, [2..6) the storage size,
    [6..10) the total flash size, [10..14) the backing size, [14..18) the
    storage base, all big-endian and equal to the build constants, [18]
    is 28 and [19] is 26; the state is returned as it was. *)
Theorem info_descriptor (cfg : config) (fuel : nat) (data : list Z) (st : state)
    (base : nat) :
  config_ok cfg ->
  length data = FRAME_SIZE ->
  framed base SECRET_CMD_INFO data ->
  exists resp,
    raw_hid_receive_kb cfg fuel data st = Done (resp, st)
    /\ info_layout cfg resp (base + 1).
Proof.
  intros Hok Hlen Hframed.
  rewrite (dispatch_framed cfg fuel base SECRET_CMD_INFO) by assumption.
  unfold serve. cbv zeta. rewrite response_cleared by exact Hlen.
  change (SECRET_CMD_INFO =? SECRET_CMD_INFO) with true. cbv iota.
  eexists. split; [reflexivity|].
  apply info_response_layout; [exact Hok|].
  rewrite length_cleared. unfold FRAME_SIZE.
  destruct Hframed as (_ & [(-> & _) | (-> & _)]); lia.
Qed.

Lemma info_descriptor_witness :
  exists resp,
    raw_hid_receive_kb rp2040_example 1 (frame_of [0x02; 0xA0])
      (set_busy true (idle erased_flash []))
    = Done (resp, set_busy true (idle erased_flash []))
    /\ info_layout rp2040_example resp 2.
Proof.
  apply (info_descriptor rp2040_example 1 (frame_of [0x02; 0xA0])
           (set_busy true (idle erased_flash [])) 1 rp2040_example_ok eq_refl
           (framed_prefixed SECRET_CMD_INFO (frame_of [0x02; 0xA0])
              eq_refl eq_refl eq_refl)).
Defined.

(** C1 fails on the code. A report-ID-prefixed WRITE whose size byte is
    26 is accepted, and its payload is then read from indices 7 to 32 of
    the 32-byte request array: the last byte lies outside the frame. *)
Theorem prefixed_write_reads_past_frame :
  raw_hid_receive_kb rp2040_example 2
    (frame_of ([0x01; 0xA2; 0; 0; 0; 0; 26] ++ replicate 25 0x11))
    (idle erased_flash [])
  = OutOfBounds
  /\ frame_slice (frame_of ([0x01; 0xA2; 0; 0; 0; 0; 26] ++ replicate 25 0x11)) 7 26
     = None
  /\ length (frame_of ([0x01; 0xA2; 0; 0; 0; 0; 26] ++ replicate 25 0x11)) = FRAME_SIZE.
Proof. vm_compute. repeat split. Qed.

(** The over-read of C1 does not depend on the build or on the flash
    content: every accepted report-ID-prefixed WRITE of 26 bytes that is
    not aborted reads past the request array. *)
Lemma prefixed_write_26_overreads (cfg : config) (fuel : nat) (data : list Z)
    (st : state) :
  config_ok cfg ->
  length data = FRAME_SIZE -> bytes_ok data ->
  framed 1 SECRET_CMD_WRITE data ->
  byte_at data 6 = 26 ->
  secret_busy st = false -> flash_ok (flash st) -> quiet cfg (pending st) = true ->
  u32 (read_u32_be data 2 + 26) <= SECRET_STORAGE_SIZE cfg ->
  secret_flash_offset cfg (read_u32_be data 2) + 26 < 2 ^ 32 ->
  26 < Z.of_nat fuel ->
  raw_hid_receive_kb cfg fuel data st = OutOfBounds.
Proof.
  intros Hok Hlen Hbytes Hframed Hsize Hbusy Hflash Hquiet Hsum Hwrap Hfuel.
  pose proof (u32_range (SECRET_STORAGE_BASE cfg + read_u32_be data 2)) as Hstart.
  fold (secret_flash_offset cfg (read_u32_be data 2)) in Hstart.
  rewrite (serve_write cfg fuel data st 1 Hlen Hframed Hbusy);
    cbn [Nat.add]; rewrite ?Hsize; unfold SECRET_MAX_WRITE; try lia; try exact Hsum.
  unfold secret_write_bytes.
  rewrite (write_loop_overread cfg Hok data fuel); try assumption; try lia;
    try reflexivity.
  rewrite Hlen. unfold FRAME_SIZE. lia.
Qed.

(** The part of C2 that holds: when the exact sum [offset + size] fits 32
    bits and exceeds the region size, a READ or WRITE with a valid size is
    answered RANGE and the state is returned as it was. *)
Lemma range_check_without_wrap (cfg : config) (fuel : nat) (data : list Z)
    (st : state) (base : nat) (cmd : Z) :
  length data = FRAME_SIZE -> bytes_ok data ->
  framed base cmd data ->
  (cmd = SECRET_CMD_READ /\ 0 < byte_at data (base + 5) <= SECRET_MAX_READ
   \/ cmd = SECRET_CMD_WRITE /\ 0 < byte_at data (base + 5) <= SECRET_MAX_WRITE) ->
  secret_busy st = false ->
  read_u32_be data (base + 1) + byte_at data (base + 5) < 2 ^ 32 ->
  SECRET_STORAGE_SIZE cfg < read_u32_be data (base + 1) + byte_at data (base + 5) ->
  raw_hid_receive_kb cfg fuel data st
  = Done (status_only base SECRET_STATUS_RANGE data, st).
Proof.
  intros Hlen Hbytes Hframed Hcmd Hbusy Hfit Hsum.
  pose proof (read_u32_be_range data (base + 1) Hbytes) as Hoff.
  rewrite (dispatch_framed cfg fuel base cmd) by assumption.
  unfold serve. cbv zeta. rewrite response_cleared by exact Hlen.
  assert (Hgt : (u32 (read_u32_be data (base + 1) + byte_at data (base + 5))
                 >? SECRET_STORAGE_SIZE cfg) = true).
  { rewrite u32_small by lia. rewrite Z.gtb_ltb. apply Z.ltb_lt. exact Hsum. }
  destruct Hcmd as [(-> & Hsz) | (-> & Hsz)].
  - change (SECRET_CMD_READ =? SECRET_CMD_INFO) with false.
    change (SECRET_CMD_READ =? SECRET_CMD_READ) with true.
    rewrite Hbusy. cbv iota.
    rewrite (proj2 (Z.eqb_neq _ 0)), gtb_false, Hgt by lia. reflexivity.
  - change (SECRET_CMD_WRITE =? SECRET_CMD_INFO) with false.
    change (SECRET_CMD_WRITE =? SECRET_CMD_READ) with false.
    change (SECRET_CMD_WRITE =? SECRET_CMD_WRITE) with true.
    rewrite Hbusy. cbv iota.
    rewrite (proj2 (Z.eqb_neq _ 0)), gtb_false, Hgt by lia. reflexivity.
Qed.

(** C2 fails on the code. The range check adds offset and size in 32
    bits, so with offset [0xFFFFFFFF] and size 1 the sum wraps to 0 and
    passes: the READ answers OK with the flash byte just below the region,
    and the WRITE answers OK after rewriting that byte. *)
Theorem wrapped_offset_passes_range_check :
  raw_hid_receive_kb rp2040_example 1
    (frame_of [0xA1; 0xFF; 0xFF; 0xFF; 0xFF; 1]) (idle marked_flash [])
  = Done (frame_of [0xA1; SECRET_STATUS_OK; 1; 0x5A], idle marked_flash [])
  /\ match raw_hid_receive_kb rp2040_example 2
             (frame_of [0xA2; 0xFF; 0xFF; 0xFF; 0xFF; 1; 0x42]) (idle marked_flash [])
     with
     | Done (resp, st') =>
         byte_at resp 1 = SECRET_STATUS_OK
         /\ flash st' (SECRET_STORAGE_BASE rp2040_example - 1) = 0x42
     | _ => False
     end.
Proof. vm_compute. repeat split. Qed.

(** C4. Round trip. With no press of Escape pending, a WRITE of [n]
    payload bytes ([1 <= n <= 26], the payload carried by the frame) at
    an offset with [offset + n] within the region is answered OK, and a
    following READ of [n] bytes at the same offset is answered OK with
    size [n] and a payload equal to the written bytes. *)
Theorem write_read_roundtrip (cfg : config) (fuel : nat) (wdata rdata : list Z)
    (st : state) (bw br : nat) (offset n : Z) (payload : list Z) :
  config_ok cfg ->
  secret_busy st = false -> flash_ok (flash st) -> quiet cfg (pending st) = true ->
  length wdata = FRAME_SIZE -> bytes_ok wdata ->
  framed bw SECRET_CMD_WRITE wdata ->
  read_u32_be wdata (bw + 1) = offset -> byte_at wdata (bw + 5) = n ->
  frame_slice wdata (bw + 6) (Z.to_nat n) = Some payload ->
  length rdata = FRAME_SIZE ->
  framed br SECRET_CMD_READ rdata ->
  read_u32_be rdata (br + 1) = offset -> byte_at rdata (br + 5) = n ->
  1 <= n <= 26 ->
  offset + n <= SECRET_STORAGE_SIZE cfg ->
  n < Z.of_nat fuel ->
  exists resp1 st1 resp2 st2,
    raw_hid_receive_kb cfg fuel wdata st = Done (resp1, st1)
    /\ byte_at resp1 (bw + 1) = SECRET_STATUS_OK
    /\ raw_hid_receive_kb cfg fuel rdata st1 = Done (resp2, st2)
    /\ byte_at resp2 (br + 1) = SECRET_STATUS_OK
    /\ byte_at resp2 (br + 2) = n
    /\ frame_slice resp2 (br + 3) (Z.to_nat n) = Some payload.
Proof.
  intros Hok Hbusy Hflash Hquiet Hwlen Hwbytes Hwframed Hwoff Hwsize Hpayload
         Hrlen Hrframed Hroff Hrsize Hn Hrange Hfuel.
  pose proof (read_u32_be_range wdata (bw + 1) Hwbytes) as Hoff. rewrite Hwoff in Hoff.
  pose proof (assert_fits cfg Hok). pose proof (hw_backing_nonneg cfg Hok).
  pose proof (hw_flash_32bit cfg Hok). pose proof (sector_size_pos cfg Hok).
  pose proof (hw_xip_32bit cfg Hok) as Hxip.
  pose proof (framed_base _ _ _ Hwframed) as Hbw.
  pose proof (framed_base _ _ _ Hrframed) as Hbr.
  destruct (frame_slice_length _ _ _ _ Hpayload) as (Hfit & Hplen & Hpeq).
  assert (Hbase : 0 <= SECRET_STORAGE_BASE cfg) by (unfold SECRET_STORAGE_BASE; lia).
  assert (Htop : SECRET_STORAGE_BASE cfg + SECRET_STORAGE_SIZE cfg < 2 ^ 32)
    by (unfold SECRET_STORAGE_BASE; lia).
  assert (Haddr : secret_flash_offset cfg offset = SECRET_STORAGE_BASE cfg + offset)
    by (unfold secret_flash_offset; apply u32_small; lia).
  assert (Hsum : u32 (offset + n) <= SECRET_STORAGE_SIZE cfg)
    by (rewrite u32_small; lia).
  (* the WRITE *)
  rewrite (serve_write cfg fuel wdata st bw Hwlen Hwframed Hbusy);
    rewrite ?Hwoff, ?Hwsize; unfold SECRET_MAX_WRITE; try lia; try exact Hsum.
  unfold secret_write_bytes. rewrite Haddr.
  destruct (write_loop_quiet cfg Hok wdata fuel (SECRET_STORAGE_BASE cfg + offset)
              (bw + 6) n (set_abort false (set_busy true st)))
    as (st1 & Hrun & Hb1 & Ha1 & Hq1 & Hf1 & Hcell);
    try assumption; try lia; try reflexivity.
  rewrite Hrun.
  destruct (poll_fields cfg st1) as (Pb & Pa & Ps & Pf & Pp).
  rewrite Ha1, (quiet_slot cfg _ 0 Hq1), andb_false_r in Pa. simpl in Pa.
  set (st2 := set_busy false (poll cfg st1)).
  assert (Hstatus : engine_status true st2 = SECRET_STATUS_OK)
    by (unfold engine_status; subst st2; cbn [secret_abort set_busy]; rewrite Pa;
        reflexivity).
  rewrite Hstatus.
  (* the READ *)
  assert (Hq2 : quiet cfg (pending st2) = true)
    by (subst st2; cbn [pending set_busy]; rewrite Pp; apply quiet_drop, Hq1).
  assert (Hr : raw_hid_receive_kb cfg fuel rdata st2 = _)
    by (apply (serve_read cfg fuel rdata st2 br Hrlen Hrframed eq_refl);
        rewrite ?Hroff, ?Hrsize; unfold SECRET_MAX_READ; try lia; exact Hsum).
  cbv zeta in Hr. rewrite Hroff, Hrsize in Hr.
  set (st3 := set_abort false (set_busy true st2)) in *.
  destruct (poll_fields cfg st3) as (Qb & Qa & Qs & Qf & Qp).
  assert (Hq3 : has_escape cfg (slot (pending st3) 0) = false)
    by (apply quiet_slot; exact Hq2).
  rewrite Hq3, andb_false_r in Qa. cbn in Qa.
  cbn [secret_abort set_busy] in Hr. rewrite Qa in Hr.
  set (bytes := secret_read_bytes cfg offset n st3) in *.
  assert (Hblen : length bytes = Z.to_nat n)
    by (subst bytes; unfold secret_read_bytes; apply length_xip_read).
  assert (Hbytes : bytes = payload).
  { apply list_byte_ext; [lia|]. intros i Hi.
    subst bytes. unfold secret_read_bytes. rewrite byte_at_xip_read by lia.
    rewrite Haddr, xip_alias by lia.
    subst st3 st2. cbn [flash set_abort set_busy]. rewrite Pf, Hcell.
    unfold in_range.
    destruct (Z.leb_spec (SECRET_STORAGE_BASE cfg + offset)
                (SECRET_STORAGE_BASE cfg + offset + Z.of_nat i)); [|lia].
    destruct (Z.ltb_spec (SECRET_STORAGE_BASE cfg + offset + Z.of_nat i)
                (SECRET_STORAGE_BASE cfg + offset + n)); [|lia].
    cbn [andb]. rewrite Hpeq, byte_at_take_drop by lia. f_equal. lia. }
  exists (status_only bw SECRET_STATUS_OK wdata), st2.
  eexists _, _. split; [reflexivity|].
  split; [apply byte_at_status_only; exact Hbw|].
  split; [exact Hr|].
  assert (Hmlen : length (memcpy_at (cleared rdata) (br + 3) bytes) = FRAME_SIZE)
    by (rewrite length_memcpy_at; rewrite length_cleared; unfold FRAME_SIZE; lia).
  split_ands.
  - rewrite byte_at_insert_ne by lia. apply byte_at_insert_eq.
    rewrite Hmlen. unfold FRAME_SIZE. lia.
  - apply byte_at_insert_eq. rewrite length_insert, Hmlen. unfold FRAME_SIZE. lia.
  - rewrite !frame_slice_insert_ne by lia.
    rewrite <- Hblen, <- Hbytes. apply frame_slice_memcpy_at.
    rewrite length_cleared. unfold FRAME_SIZE. lia.
Qed.


Lemma write_read_roundtrip_witness :
  exists resp1 st1 resp2 st2,
    raw_hid_receive_kb rp2040_example 27 sample_write (idle erased_flash [])
    = Done (resp1, st1)
    /\ byte_at resp1 1 = SECRET_STATUS_OK
    /\ raw_hid_receive_kb rp2040_example 27 sample_read st1 = Done (resp2, st2)
    /\ byte_at resp2 1 = SECRET_STATUS_OK
    /\ byte_at resp2 2 = 26
    /\ frame_slice resp2 3 26 = Some sample_payload.
Proof.
  apply (write_read_roundtrip rp2040_example 27 sample_write sample_read
           (idle erased_flash []) 0 0 0 26 sample_payload
           rp2040_example_ok eq_refl erased_flash_ok eq_refl
           eq_refl (bytes_okb_ok sample_write eq_refl)
           (framed_unprefixed SECRET_CMD_WRITE sample_write eq_refl eq_refl)
           eq_refl eq_refl eq_refl
           eq_refl (framed_unprefixed SECRET_CMD_READ sample_read eq_refl eq_refl)
           eq_refl eq_refl).
  - lia.
  - vm_compute. discriminate.
  - lia.
Defined.

(** C9. An invocation of [raw_hid_receive_kb] that starts with
    [secret_busy] clear returns with [secret_busy] clear on every path:
    unrecognised command, INFO, validation failures, and engine success,
    failure or abort under any schedule of key events.  The only frames
    for which the model does not return are prefixed WRITEs of 26 bytes,
    whose payload leaves the request array.  The engines themselves never
    change [secret_busy]: it stays up from the assignment before the
    engine call to the assignment after it. *)
Theorem busy_restored (cfg : config) (fuel : nat) (data : list Z) (st : state) :
  config_ok cfg ->
  length data = FRAME_SIZE -> bytes_ok data ->
  secret_busy st = false ->
  PICO_FLASH_SIZE_BYTES cfg / FLASH_SECTOR_SIZE cfg + 1 < Z.of_nat fuel ->
  26 < Z.of_nat fuel ->
  match raw_hid_receive_kb cfg fuel data st with
  | Done (_, st') => secret_busy st' = false
  | OutOfBounds => framed 1 SECRET_CMD_WRITE data /\ byte_at data 6 = 26
  | OutOfFuel => False
  end
  /\ (forall offset length st0,
         match secret_erase_range cfg fuel offset length (set_busy true st0) with
         | Done (_, st1) => secret_busy st1 = true
         | _ => True
         end)
  /\ (forall offset src length st0,
         match secret_write_bytes cfg fuel offset data src length (set_busy true st0) with
         | Done (_, st1) => secret_busy st1 = true
         | _ => True
         end).
Proof.
  intros Hok Hlen Hbytes Hbusy Hfuel Hfuel'. split_ands.
  - unfold raw_hid_receive_kb. rewrite frame_copy by exact Hlen. cbv zeta.
    destruct (is_command (byte_at data 0)) eqn:H0; cbn [negb].
    + pose proof (serve_busy_restored cfg Hok fuel 0 (byte_at data 0) data st
                    ltac:(lia) H0 Hlen Hbytes Hbusy Hfuel Hfuel') as H.
      destruct (serve cfg fuel 0 (byte_at data 0) data data st) as [[resp st']| |];
        [exact H | lia | exact H].
    + destruct (is_command (byte_at data 1)) eqn:H1; [|exact Hbusy].
      pose proof (serve_busy_restored cfg Hok fuel 1 (byte_at data 1) data st
                    ltac:(lia) H1 Hlen Hbytes Hbusy Hfuel Hfuel') as H.
      destruct (serve cfg fuel 1 (byte_at data 1) data data st) as [[resp st']| |];
        [exact H | | exact H].
      destruct H as (_ & Hw & Hsz). split; [|exact Hsz].
      apply framed_prefixed; [reflexivity | exact H0 | exact Hw].
  - intros offset length st0. unfold secret_erase_range.
    destruct (_ || _); [reflexivity|].
    destruct (erase_loop _ _ _ _ _) as [[ok st1]| |] eqn:E; try exact I.
    apply erase_loop_busy in E. exact E.
  - intros offset src length st0. unfold secret_write_bytes.
    destruct (write_loop _ _ _ _ _ _ _) as [[ok st1]| |] eqn:E; try exact I.
    apply write_loop_busy in E. exact E.
Qed.

Lemma busy_restored_witness :
  match raw_hid_receive_kb rp2040_example 514 sample_write
          (idle erased_flash [[key 0x29 true]]) with
  | Done (_, st') => secret_busy st' = false
  | OutOfBounds => framed 1 SECRET_CMD_WRITE sample_write /\ byte_at sample_write 6 = 26
  | OutOfFuel => False
  end.
Proof.
  exact (proj1 (busy_restored rp2040_example 514 sample_write
                  (idle erased_flash [[key 0x29 true]])
                  rp2040_example_ok eq_refl (bytes_okb_ok sample_write eq_refl)
                  eq_refl eq_refl eq_refl)).
Defined.

(** C5. Abort at a unit boundary. An accepted ERASE or WRITE is in
    flight, the first [k] event slots hold no press of Escape and slot
    [k] holds one, and the operation lasts long enough for that slot to be
    reached.  Then the response status is ABORT, [secret_busy] is clear
    again, and the flash differs from its previous content exactly on the
    committed prefix: the first [k] sectors read [0xFF] after an ERASE, the
    bytes of the first [k] chunks hold the payload after a WRITE, and every
    other byte is unchanged. *)
Theorem abort_at_unit_boundary (cfg : config) (fuel : nat) (data : list Z)
    (st : state) (base k : nat) :
  config_ok cfg ->
  length data = FRAME_SIZE -> bytes_ok data ->
  secret_busy st = false -> flash_ok (flash st) ->
  (k < fuel)%nat ->
  quiet_before cfg (pending st) k = true ->
  has_escape cfg (slot (pending st) k) = true ->
  let offset := read_u32_be data (base + 1) in
  let start := secret_flash_offset cfg offset in
  (framed base SECRET_CMD_ERASE data ->
   let size := read_u32_be data (base + 5) in
   size <> 0 ->
   u32 (offset + size) <= SECRET_STORAGE_SIZE cfg ->
   offset mod FLASH_SECTOR_SIZE cfg = 0 -> size mod FLASH_SECTOR_SIZE cfg = 0 ->
   start + Z.of_nat k * FLASH_SECTOR_SIZE cfg <= u32 (start + size) ->
   exists resp st',
     raw_hid_receive_kb cfg fuel data st = Done (resp, st')
     /\ byte_at resp (base + 1) = SECRET_STATUS_ABORT
     /\ secret_busy st' = false
     /\ forall a, flash st' a
                  = if in_range start (start + Z.of_nat k * FLASH_SECTOR_SIZE cfg) a
                    then 0xFF else flash st a)
  /\ (framed base SECRET_CMD_WRITE data ->
      let size := byte_at data (base + 5) in
      1 <= size <= 26 ->
      (base + 6 + Z.to_nat size <= FRAME_SIZE)%nat ->
      u32 (offset + size) <= SECRET_STORAGE_SIZE cfg ->
      start + size < 2 ^ 32 ->
      (k = 0%nat \/ committed_bytes cfg (pred k) start size < size) ->
      exists resp st',
        raw_hid_receive_kb cfg fuel data st = Done (resp, st')
        /\ byte_at resp (base + 1) = SECRET_STATUS_ABORT
        /\ secret_busy st' = false
        /\ forall a, flash st' a
                     = if in_range start (start + committed_bytes cfg k start size) a
                       then byte_at data (base + 6 + Z.to_nat (a - start))
                       else flash st a).
Proof.
  intros Hok Hlen Hbytes Hbusy Hflash Hfuel Hquiet Hesc offset start. split.
  - intros Hframed size Hsize Hsum Hoff Hsz Hreach.
    apply (erase_abort cfg Hok fuel data st base k); assumption.
  - intros Hframed size Hsize Hfit Hsum Hwrap Hreach.
    apply (write_abort cfg Hok fuel data st base k); assumption.
Qed.

Lemma abort_at_unit_boundary_witness :
  (exists resp st',
      raw_hid_receive_kb rp2040_wide 3 sample_erase (idle zero_flash escape_second)
      = Done (resp, st')
      /\ byte_at resp 1 = SECRET_STATUS_ABORT
      /\ secret_busy st' = false
      /\ forall a, flash st' a = if in_range 2080768 2084864 a then 0xFF else 0)
  /\ (exists resp st',
         raw_hid_receive_kb rp2040_wide 3 sample_straddle (idle zero_flash escape_second)
         = Done (resp, st')
         /\ byte_at resp 1 = SECRET_STATUS_ABORT
         /\ secret_busy st' = false
         /\ forall a, flash st' a
                      = if in_range 2084858 2084864 a
                        then byte_at sample_straddle (6 + Z.to_nat (a - 2084858))
                        else 0).
Proof.
  split.
  - destruct (abort_at_unit_boundary rp2040_wide 3 sample_erase
                (idle zero_flash escape_second) 0 1
                rp2040_wide_ok eq_refl (bytes_okb_ok sample_erase eq_refl) eq_refl
                zero_flash_ok ltac:(lia) eq_refl eq_refl) as [H _].
    apply H.
    + apply framed_unprefixed; reflexivity.
    + vm_compute. discriminate.
    + vm_compute. discriminate.
    + reflexivity.
    + reflexivity.
    + vm_compute. discriminate.
  - destruct (abort_at_unit_boundary rp2040_wide 3 sample_straddle
                (idle zero_flash escape_second) 0 1
                rp2040_wide_ok eq_refl (bytes_okb_ok sample_straddle eq_refl) eq_refl
                zero_flash_ok ltac:(lia) eq_refl eq_refl) as [_ H].
    apply H.
    + apply framed_unprefixed; reflexivity.
    + vm_compute. split; discriminate.
    + vm_compute. lia.
    + vm_compute. discriminate.
    + vm_compute. reflexivity.
    + right. vm_compute. reflexivity.
Defined.

(** * Further properties of the code *)

(** ** The big-endian field codec *)

(** Bits that do not overlap add up. *)
Lemma lor_disjoint (hi lo n q : Z) :
  0 <= n -> 0 <= lo < 2 ^ n -> hi = q * 2 ^ n -> Z.lor hi lo = hi + lo.
Proof.
  intros Hn Hlo ->. symmetry. apply Z.add_nocarry_lor.
  apply Z.bits_inj'. intros i Hi. rewrite Z.land_spec, Z.bits_0.
  destruct (Z.lt_ge_cases i n) as [Hlt|Hge].
  - rewrite Z.mul_pow2_bits_low by exact Hlt. reflexivity.
  - destruct (Z.eq_dec lo 0) as [->|Hne].
    + rewrite Z.bits_0. apply andb_false_r.
    + rewrite (Z.bits_above_log2 lo i); [apply andb_false_r | lia |].
      assert (Z.log2 lo < n) by (apply Z.log2_lt_pow2; lia). lia.
Qed.

Lemma byte_at_write_u32_be (buf : list Z) (pos : nat) (v : Z) :
  (pos + 4 <= length buf)%nat ->
  byte_at (write_u32_be buf pos v) pos = v / 2 ^ 24 mod 256
  /\ byte_at (write_u32_be buf pos v) (pos + 1) = v / 2 ^ 16 mod 256
  /\ byte_at (write_u32_be buf pos v) (pos + 2) = v / 2 ^ 8 mod 256
  /\ byte_at (write_u32_be buf pos v) (pos + 3) = v mod 256.
Proof.
  intros Hlen.
  pose proof (frame_slice_write_u32_be buf pos v Hlen) as H.
  apply frame_slice_length in H as (_ & _ & H).
  assert (Hb : forall i, (i < 4)%nat ->
                         byte_at (write_u32_be buf pos v) (pos + i)
                         = byte_at (u32be_bytes v) i)
    by (intros i Hi; rewrite H, byte_at_take_drop by exact Hi; reflexivity).
  rewrite <- (Nat.add_0_r pos) at 2.
  rewrite !Hb by lia. repeat split.
Qed.

(** The ORs of [read_u32_be] add up: the shifted bytes do not overlap. *)
Lemma read_u32_be_value (buf : list Z) (pos : nat) :
  bytes_ok buf ->
  read_u32_be buf pos
  = byte_at buf pos * 2 ^ 24 + byte_at buf (pos + 1) * 2 ^ 16
    + byte_at buf (pos + 2) * 2 ^ 8 + byte_at buf (pos + 3).
Proof.
  intros Hok.
  pose proof (bytes_ok_byte_at buf pos Hok) as H0.
  pose proof (bytes_ok_byte_at buf (pos + 1) Hok) as H1.
  pose proof (bytes_ok_byte_at buf (pos + 2) Hok) as H2.
  pose proof (bytes_ok_byte_at buf (pos + 3) Hok) as H3.
  unfold read_u32_be. rewrite !Z.shiftl_mul_pow2 by lia.
  rewrite !u32_small by lia.
  rewrite (lor_disjoint (byte_at buf pos * 2 ^ 24) _ 24 (byte_at buf pos))
    by lia.
  rewrite (lor_disjoint _ (byte_at buf (pos + 2) * 2 ^ 8) 16
             (byte_at buf pos * 2 ^ 8 + byte_at buf (pos + 1))) by lia.
  rewrite (lor_disjoint _ (byte_at buf (pos + 3)) 8
             (byte_at buf pos * 2 ^ 16 + byte_at buf (pos + 1) * 2 ^ 8
              + byte_at buf (pos + 2))) by lia.
  reflexivity.
Qed.

(** X2. [read_u32_be] decodes four bytes as a big-endian number: the
    result is [b0 * 2^24 + b1 * 2^16 + b2 * 2^8 + b3] and fits 32 bits. *)
Theorem read_u32_be_big_endian (buf : list Z) (pos : nat) :
  bytes_ok buf ->
  read_u32_be buf pos
  = byte_at buf pos * 2 ^ 24 + byte_at buf (pos + 1) * 2 ^ 16
    + byte_at buf (pos + 2) * 2 ^ 8 + byte_at buf (pos + 3)
  /\ 0 <= read_u32_be buf pos < 2 ^ 32.
Proof.
  intros Hok.
  pose proof (bytes_ok_byte_at buf pos Hok) as H0.
  pose proof (bytes_ok_byte_at buf (pos + 1) Hok) as H1.
  pose proof (bytes_ok_byte_at buf (pos + 2) Hok) as H2.
  pose proof (bytes_ok_byte_at buf (pos + 3) Hok) as H3.
  pose proof (read_u32_be_value buf pos Hok) as Hval.
  split; [exact Hval | rewrite Hval; lia].
Qed.

Lemma read_u32_be_big_endian_witness :
  read_u32_be [0x12; 0x34; 0x56; 0x78] 0 = 0x12345678.
Proof.
  apply (read_u32_be_big_endian [0x12; 0x34; 0x56; 0x78] 0
           (bytes_okb_ok [0x12; 0x34; 0x56; 0x78] eq_refl)).
Defined.

(** X1. Encoding then decoding: [write_u32_be] followed by [read_u32_be]
    at the same place returns the 32-bit value, and the write keeps the
    length of the buffer and every byte outside the four it stores. *)
Theorem u32_be_encode_decode (buf : list Z) (pos : nat) (v : Z) :
  (pos + 4 <= length buf)%nat -> 0 <= v < 2 ^ 32 ->
  read_u32_be (write_u32_be buf pos v) pos = v
  /\ length (write_u32_be buf pos v) = length buf
  /\ forall j, (j < pos \/ pos + 4 <= j)%nat ->
               write_u32_be buf pos v !! j = buf !! j.
Proof.
  intros Hlen Hv.
  destruct (byte_at_write_u32_be buf pos v Hlen) as (B0 & B1 & B2 & B3).
  split; [|split; [apply length_write_u32_be | intros j Hj;
                                               apply lookup_write_u32_be_ne, Hj]].
  unfold read_u32_be. rewrite B0, B1, B2, B3.
  rewrite !Z.shiftl_mul_pow2 by lia.
  assert (H0 : 0 <= v / 2 ^ 24 mod 256 < 256) by (apply Z.mod_pos_bound; lia).
  assert (H1 : 0 <= v / 2 ^ 16 mod 256 < 256) by (apply Z.mod_pos_bound; lia).
  assert (H2 : 0 <= v / 2 ^ 8 mod 256 < 256) by (apply Z.mod_pos_bound; lia).
  assert (H3 : 0 <= v mod 256 < 256) by (apply Z.mod_pos_bound; lia).
  rewrite !u32_small by lia.
  rewrite (lor_disjoint (v / 2 ^ 24 mod 256 * 2 ^ 24) _ 24 (v / 2 ^ 24 mod 256))
    by lia.
  rewrite (lor_disjoint _ (v / 2 ^ 8 mod 256 * 2 ^ 8) 16
             (v / 2 ^ 24 mod 256 * 2 ^ 8 + v / 2 ^ 16 mod 256)) by lia.
  rewrite (lor_disjoint _ (v mod 256) 8
             (v / 2 ^ 24 mod 256 * 2 ^ 16 + v / 2 ^ 16 mod 256 * 2 ^ 8
              + v / 2 ^ 8 mod 256)) by lia.
  clear - Hv. Z.div_mod_to_equations. lia.
Qed.

Lemma u32_be_encode_decode_witness :
  read_u32_be (write_u32_be (replicate 8 0) 2 0xDEADBEEF) 2 = 0xDEADBEEF.
Proof.
  apply (u32_be_encode_decode (replicate 8 0) 2 0xDEADBEEF); [simpl; lia | lia].
Defined.

(** X3. Decoding then encoding: writing back the value that
    [read_u32_be] decodes from a buffer of bytes leaves the buffer as it
    was. *)
Theorem u32_be_decode_encode (buf : list Z) (pos : nat) :
  bytes_ok buf -> (pos + 4 <= length buf)%nat ->
  write_u32_be buf pos (read_u32_be buf pos) = buf.
Proof.
  intros Hok Hlen.
  pose proof (read_u32_be_value buf pos Hok) as Hval.
  pose proof (bytes_ok_byte_at buf pos Hok) as H0.
  pose proof (bytes_ok_byte_at buf (pos + 1) Hok) as H1.
  pose proof (bytes_ok_byte_at buf (pos + 2) Hok) as H2.
  pose proof (bytes_ok_byte_at buf (pos + 3) Hok) as H3.
  destruct (byte_at_write_u32_be buf pos (read_u32_be buf pos) Hlen)
    as (B0 & B1 & B2 & B3).
  apply list_byte_ext; [apply length_write_u32_be|].
  rewrite length_write_u32_be. intros i Hi.
  destruct (decide (i = pos)) as [->|N0].
  { rewrite B0, Hval. clear - H0 H1 H2 H3. Z.div_mod_to_equations. lia. }
  destruct (decide (i = pos + 1)%nat) as [->|N1].
  { rewrite B1, Hval. clear - H0 H1 H2 H3. Z.div_mod_to_equations. lia. }
  destruct (decide (i = pos + 2)%nat) as [->|N2].
  { rewrite B2, Hval. clear - H0 H1 H2 H3. Z.div_mod_to_equations. lia. }
  destruct (decide (i = pos + 3)%nat) as [->|N3].
  { rewrite B3, Hval. clear - H0 H1 H2 H3. Z.div_mod_to_equations. lia. }
  apply byte_at_write_u32_be_ne. lia.
Qed.

Lemma u32_be_decode_encode_witness :
  write_u32_be [0xA1; 0; 0; 0x0F; 0xFA; 10] 1 (read_u32_be [0xA1; 0; 0; 0x0F; 0xFA; 10] 1)
  = [0xA1; 0; 0; 0x0F; 0xFA; 10].
Proof.
  apply (u32_be_decode_encode [0xA1; 0; 0; 0x0F; 0xFA; 10] 1
           (bytes_okb_ok [0xA1; 0; 0; 0x0F; 0xFA; 10] eq_refl)).
  simpl. lia.
Defined.

(** ** Engine runs under an arbitrary schedule of key events *)

Section AnySchedule.

Context (cfg : config).
Hypothesis cfg_ok : config_ok cfg.

Local Abbreviation SECTOR := (FLASH_SECTOR_SIZE cfg).

(** Whatever the key events, the erase loop over [n] sectors returns; it
    reports failure only with [secret_abort] up, it changes no byte
    outside the range, and when it reports success the range is erased. *)
Lemma erase_loop_any (n : nat) :
  forall (fuel : nat) (addr : Z) (st : state),
    (n < fuel)%nat ->
    0 <= addr -> addr + Z.of_nat n * SECTOR + SECTOR <= 2 ^ 32 ->
    exists ok st',
      erase_loop cfg fuel addr (addr + Z.of_nat n * SECTOR) st = Done (ok, st')
      /\ secret_busy st' = secret_busy st
      /\ secret_sector_buf st' = secret_sector_buf st
      /\ (ok = false -> secret_abort st' = true)
      /\ (forall a, in_range addr (addr + Z.of_nat n * SECTOR) a = false ->
                    flash st' a = flash st a)
      /\ (ok = true ->
          forall a, in_range addr (addr + Z.of_nat n * SECTOR) a = true ->
                    flash st' a = 0xFF).
Proof.
  pose proof (sector_size_pos cfg cfg_ok) as Hs.
  induction n as [|n IH]; intros fuel addr st Hfuel Haddr Hend;
    (destruct fuel as [|fuel]; [lia|]); cbn [erase_loop].
  - replace (addr + Z.of_nat 0 * SECTOR) with addr by lia.
    rewrite Z.ltb_irrefl. exists true, st. split_ands; try discriminate.
    + intros _ a Ha. unfold in_range in Ha. lia.
  - assert (Hlt : (addr <? addr + Z.of_nat (S n) * SECTOR) = true)
      by (apply Z.ltb_lt; nia).
    rewrite Hlt.
    destruct (poll_fields cfg st) as (Pb & Pa & Ps & Pf & Pp).
    destruct (secret_abort (poll cfg st)) eqn:Hab.
    + exists false, (poll cfg st). split_ands; try assumption; try discriminate.
      * intros _. exact Hab.
      * intros a _. rewrite Pf. reflexivity.
    + rewrite (u32_small (addr + SECTOR)) by nia.
      set (st1 := set_flash _ (poll cfg st)).
      destruct (IH fuel (addr + SECTOR) st1 ltac:(lia) ltac:(lia) ltac:(lia))
        as (ok & st' & Hrun & Hb & Hsb & Hfalse & Hout & Hin).
      replace (addr + Z.of_nat (S n) * SECTOR)
        with (addr + SECTOR + Z.of_nat n * SECTOR) by lia.
      exists ok, st'. rewrite Hrun. subst st1.
      cbn [secret_busy secret_sector_buf flash set_flash] in *.
      split_ands; try assumption; try congruence.
      * intros a Ha. unfold in_range in Ha.
        rewrite Hout by (unfold in_range; lia).
        unfold flash_range_erase. rewrite Pf.
        destruct (Z.leb_spec addr a), (Z.ltb_spec a (addr + SECTOR)); simpl;
          try reflexivity; lia.
      * intros Hok a Ha. unfold in_range in Ha.
        destruct (in_range (addr + SECTOR) (addr + SECTOR + Z.of_nat n * SECTOR) a)
          eqn:Hr.
        -- apply Hin; assumption.
        -- rewrite Hout by exact Hr. unfold in_range in Hr.
           unfold flash_range_erase.
           destruct (Z.leb_spec addr a), (Z.ltb_spec a (addr + SECTOR)); simpl;
             try reflexivity; lia.
Qed.

(** Whatever the key events, the write loop returns when its source lies
    in the request array; it reports failure only with [secret_abort] up,
    it changes no byte outside the range, and when it reports success the
    range holds the source bytes. *)
Lemma write_loop_any (req : list Z) (fuel : nat) :
  forall (addr : Z) (src : nat) (len : Z) (st : state),
    0 <= len < Z.of_nat fuel ->
    0 <= addr -> addr + len < 2 ^ 32 ->
    (src + Z.to_nat len <= length req)%nat ->
    bytes_ok req -> flash_ok (flash st) ->
    exists ok st',
      write_loop cfg fuel addr req src len st = Done (ok, st')
      /\ secret_busy st' = secret_busy st
      /\ flash_ok (flash st')
      /\ (ok = false -> secret_abort st' = true)
      /\ (forall a, in_range addr (addr + len) a = false ->
                    flash st' a = flash st a)
      /\ (ok = true ->
          forall a, in_range addr (addr + len) a = true ->
                    flash st' a = byte_at req (src + Z.to_nat (a - addr))).
Proof.
  induction fuel as [|fuel IH];
    intros addr src len st Hlen Haddr Hend Hsrc Hreq Hflash; [lia|].
  destruct (Z.eq_dec len 0) as [->|Hne].
  - cbn [write_loop]. rewrite Z.ltb_irrefl. exists true, st.
    split_ands; try assumption; try discriminate.
    intros _ a Ha. unfold in_range in Ha. lia.
  - destruct (poll_fields cfg st) as (Pb & Pa & Ps & Pf & Pp).
    destruct (secret_abort (poll cfg st)) eqn:Hab.
    + exists false, (poll cfg st). cbn [write_loop].
      assert (Hpos : (0 <? len) = true) by (apply Z.ltb_lt; lia).
      rewrite Hpos, Hab. split_ands; try assumption; try discriminate.
      * rewrite Pf. exact Hflash.
      * intros a _. rewrite Pf. reflexivity.
    + destruct (write_loop_iter cfg cfg_ok req addr src len st) as
        (st1 & Hrun & Hc & Hb1 & Ha1 & Hp1 & Hf1 & Hcell1); try assumption; try lia.
      set (chunk := Z.min len (SECTOR - addr mod SECTOR)) in *.
      destruct (IH (addr + chunk) (src + Z.to_nat chunk)%nat (len - chunk) st1)
        as (ok & st' & Hrun' & Hb & Hfok & Hfalse & Hout & Hin);
        try assumption; try lia.
      exists ok, st'. rewrite Hrun, Hrun'.
      split_ands; try assumption; try congruence.
      * intros a Ha. unfold in_range in Ha.
        rewrite Hout by (unfold in_range; lia).
        rewrite Hcell1. unfold in_range.
        destruct (Z.leb_spec addr a), (Z.ltb_spec a (addr + chunk)); simpl;
          try reflexivity; lia.
      * intros Hok a Ha. unfold in_range in Ha.
        destruct (in_range (addr + chunk) (addr + chunk + (len - chunk)) a) eqn:Hr.
        -- rewrite (Hin Hok a Hr). unfold in_range in Hr. f_equal. lia.
        -- rewrite Hout by exact Hr. rewrite Hcell1. unfold in_range in *.
           destruct (Z.leb_spec addr a), (Z.ltb_spec a (addr + chunk)); simpl;
             try reflexivity; lia.
Qed.

End AnySchedule.

(** ** Outcomes of ERASE and WRITE *)

Lemma quiet_quiet_before (cfg : config) (sched : list (list (Z * keyrecord_t)))
    (k : nat) :
  quiet cfg sched = true -> quiet_before cfg sched k = true.
Proof.
  unfold quiet, quiet_before. rewrite !forallb_forall.
  intros H x Hx. apply H. apply list_elem_of_In.
  apply list_elem_of_In in Hx. eapply subseteq_take, Hx.
Qed.

Lemma engine_status_cases (ok : bool) (st : state) :
  (ok = false -> secret_abort st = true) ->
  (engine_status ok st = SECRET_STATUS_OK \/ engine_status ok st = SECRET_STATUS_ABORT)
  /\ (engine_status ok st = SECRET_STATUS_OK -> ok = true /\ secret_abort st = false).
Proof.
  unfold engine_status. intros H.
  destruct (secret_abort st); [split; [right; reflexivity | discriminate]|].
  destruct ok; [split; [left; reflexivity | auto] | specialize (H eq_refl); discriminate].
Qed.

(** X7. An ERASE that passes validation with an exact sum
    [offset + size] within the region returns under every schedule of key
    events, with status OK or ABORT and never ERR.  Completed or aborted,
    it changes no flash byte outside the addressed range and leaves the
    scratch sector alone; status OK means that the whole range reads
    [0xFF]; and with no press of Escape pending the status is OK,
    whatever the abort flag was before the request. *)
Theorem erase_outcome (cfg : config) (fuel : nat) (data : list Z) (st : state)
    (base : nat) :
  config_ok cfg ->
  length data = FRAME_SIZE -> bytes_ok data ->
  framed base SECRET_CMD_ERASE data ->
  secret_busy st = false ->
  let offset := read_u32_be data (base + 1) in
  let size := read_u32_be data (base + 5) in
  let start := SECRET_STORAGE_BASE cfg + offset in
  size <> 0 ->
  offset + size <= SECRET_STORAGE_SIZE cfg ->
  offset mod FLASH_SECTOR_SIZE cfg = 0 -> size mod FLASH_SECTOR_SIZE cfg = 0 ->
  size / FLASH_SECTOR_SIZE cfg < Z.of_nat fuel ->
  exists resp st',
    raw_hid_receive_kb cfg fuel data st = Done (resp, st')
    /\ (byte_at resp (base + 1) = SECRET_STATUS_OK
        \/ byte_at resp (base + 1) = SECRET_STATUS_ABORT)
    /\ secret_busy st' = false
    /\ secret_sector_buf st' = secret_sector_buf st
    /\ (forall a, in_range start (start + size) a = false -> flash st' a = flash st a)
    /\ (byte_at resp (base + 1) = SECRET_STATUS_OK ->
        forall a, in_range start (start + size) a = true -> flash st' a = 0xFF)
    /\ (quiet cfg (pending st) = true -> byte_at resp (base + 1) = SECRET_STATUS_OK).
Proof.
  intros Hok Hlen Hbytes Hframed Hbusy offset size start Hsize Hsum Hoff Hsz Hfuel.
  pose proof (read_u32_be_range data (base + 1) Hbytes) as Ho. fold offset in Ho.
  pose proof (read_u32_be_range data (base + 5) Hbytes) as Hs. fold size in Hs.
  pose proof (assert_fits cfg Hok). pose proof (hw_backing_nonneg cfg Hok).
  pose proof (hw_flash_32bit cfg Hok). pose proof (sector_size_pos cfg Hok) as Hsec.
  pose proof (framed_base _ _ _ Hframed) as Hbase.
  assert (Hstart : secret_flash_offset cfg offset = start)
    by (unfold secret_flash_offset, start, SECRET_STORAGE_BASE; apply u32_small; lia).
  assert (Hend : u32 (start + size) = start + size)
    by (unfold start, SECRET_STORAGE_BASE; apply u32_small; lia).
  assert (Hn : size = Z.of_nat (Z.to_nat (size / FLASH_SECTOR_SIZE cfg))
                      * FLASH_SECTOR_SIZE cfg).
  { rewrite Z2Nat.id by (apply Z.div_pos; lia).
    pose proof (Z.div_mod size (FLASH_SECTOR_SIZE cfg) ltac:(lia)). lia. }
  set (n := Z.to_nat (size / FLASH_SECTOR_SIZE cfg)) in *.
  rewrite (serve_erase cfg fuel data st base Hlen Hframed Hbusy);
    fold offset size; try assumption; [|rewrite u32_small; lia].
  rewrite Hstart, Hend.
  set (st0 := set_abort false (set_busy true st)).
  destruct (erase_loop_any cfg Hok n fuel start st0)
    as (ok & st1 & Hrun & Hb & Hsb & Hfalse & Hout & Hin);
    try (unfold start, SECRET_STORAGE_BASE; lia).
  rewrite <- Hn in Hrun, Hout, Hin. rewrite Hrun.
  destruct (poll_fields cfg st1) as (Pb & Pa & Ps & Pf & Pp).
  set (st2 := set_busy false (poll cfg st1)).
  assert (Hfalse2 : ok = false -> secret_abort st2 = true).
  { intros E. subst st2. cbn [secret_abort set_busy]. rewrite Pa, (Hfalse E).
    reflexivity. }
  destruct (engine_status_cases ok st2 Hfalse2) as (Hcases & Hokay).
  exists (status_only base (engine_status ok st2) data), st2.
  rewrite byte_at_status_only by exact Hbase.
  split_ands.
  - exact Hcases.
  - subst st2. cbn [secret_sector_buf set_busy]. rewrite Ps. exact Hsb.
  - intros a Ha. subst st2. cbn [flash set_busy]. rewrite Pf. apply Hout, Ha.
  - intros Hst a Ha. subst st2. cbn [flash set_busy]. rewrite Pf.
    apply Hin; [apply Hokay, Hst | exact Ha].
  - intros Hquiet.
    destruct (erase_loop_calm cfg Hsec n fuel start st0)
      as (st1' & Hrun' & _ & Ha' & _ & Hp' & _);
      try (unfold start, SECRET_STORAGE_BASE; lia); try reflexivity.
    { apply quiet_quiet_before. exact Hquiet. }
    rewrite <- Hn in Hrun'. rewrite Hrun in Hrun'. injection Hrun' as -> <-.
    change (pending st0) with (pending st) in Hp'.
    unfold engine_status. subst st2. cbn [secret_abort set_busy].
    rewrite Pa, Ha', Hp', slot_drop, (quiet_slot cfg _ n Hquiet), andb_false_r.
    reflexivity.
Qed.

Lemma erase_outcome_witness :
  exists resp st',
    raw_hid_receive_kb rp2040_wide 3 sample_erase (idle zero_flash escape_second)
    = Done (resp, st')
    /\ (byte_at resp 1 = SECRET_STATUS_OK \/ byte_at resp 1 = SECRET_STATUS_ABORT)
    /\ secret_busy st' = false
    /\ secret_sector_buf st' = []
    /\ (forall a, in_range 2080768 2088960 a = false -> flash st' a = 0)
    /\ (byte_at resp 1 = SECRET_STATUS_OK ->
        forall a, in_range 2080768 2088960 a = true -> flash st' a = 0xFF)
    /\ (quiet rp2040_wide escape_second = true -> byte_at resp 1 = SECRET_STATUS_OK).
Proof.
  destruct (erase_outcome rp2040_wide 3 sample_erase (idle zero_flash escape_second) 0
              rp2040_wide_ok eq_refl (bytes_okb_ok sample_erase eq_refl)
              (framed_unprefixed SECRET_CMD_ERASE sample_erase eq_refl eq_refl)
              eq_refl)
    as (resp & st' & H).
  - vm_compute. discriminate.
  - vm_compute. discriminate.
  - reflexivity.
  - reflexivity.
  - vm_compute. reflexivity.
  - exists resp, st'. exact H.
Defined.

(** X8. A WRITE that passes validation with its payload in the frame
    and an exact sum [offset + size] within the region returns under every
    schedule of key events, with status OK or ABORT and never ERR.
    Completed or aborted, it changes no flash byte outside the addressed
    range, the rest of the rewritten sectors included; status OK means that
    the whole range holds the payload; and with no press of Escape pending
    the status is OK, whatever the abort flag was before the request. *)
Theorem write_outcome (cfg : config) (fuel : nat) (data : list Z) (st : state)
    (base : nat) (payload : list Z) :
  config_ok cfg ->
  length data = FRAME_SIZE -> bytes_ok data ->
  framed base SECRET_CMD_WRITE data ->
  secret_busy st = false -> flash_ok (flash st) ->
  let offset := read_u32_be data (base + 1) in
  let size := byte_at data (base + 5) in
  let start := SECRET_STORAGE_BASE cfg + offset in
  1 <= size <= 26 ->
  frame_slice data (base + 6) (Z.to_nat size) = Some payload ->
  offset + size <= SECRET_STORAGE_SIZE cfg ->
  size < Z.of_nat fuel ->
  exists resp st',
    raw_hid_receive_kb cfg fuel data st = Done (resp, st')
    /\ (byte_at resp (base + 1) = SECRET_STATUS_OK
        \/ byte_at resp (base + 1) = SECRET_STATUS_ABORT)
    /\ secret_busy st' = false
    /\ flash_ok (flash st')
    /\ (forall a, in_range start (start + size) a = false -> flash st' a = flash st a)
    /\ (byte_at resp (base + 1) = SECRET_STATUS_OK ->
        forall a, in_range start (start + size) a = true ->
                  flash st' a = byte_at payload (Z.to_nat (a - start)))
    /\ (quiet cfg (pending st) = true -> byte_at resp (base + 1) = SECRET_STATUS_OK).
Proof.
  intros Hok Hlen Hbytes Hframed Hbusy Hflash offset size start Hsize Hpayload Hsum
         Hfuel.
  pose proof (read_u32_be_range data (base + 1) Hbytes) as Ho. fold offset in Ho.
  pose proof (assert_fits cfg Hok). pose proof (hw_backing_nonneg cfg Hok).
  pose proof (hw_flash_32bit cfg Hok). pose proof (sector_size_pos cfg Hok) as Hsec.
  pose proof (framed_base _ _ _ Hframed) as Hbase.
  destruct (frame_slice_length _ _ _ _ Hpayload) as (Hfit & Hplen & Hpeq).
  assert (Hstart : secret_flash_offset cfg offset = start)
    by (unfold secret_flash_offset, start, SECRET_STORAGE_BASE; apply u32_small; lia).
  assert (Htop : start + size < 2 ^ 32) by (unfold start, SECRET_STORAGE_BASE; lia).
  assert (Hstart0 : 0 <= start) by (unfold start, SECRET_STORAGE_BASE; lia).
  rewrite (serve_write cfg fuel data st base Hlen Hframed Hbusy);
    fold offset size; unfold SECRET_MAX_WRITE; try lia; [|rewrite u32_small; lia].
  unfold secret_write_bytes. rewrite Hstart.
  set (st0 := set_abort false (set_busy true st)).
  destruct (write_loop_any cfg Hok data fuel start (base + 6) size st0)
    as (ok & st1 & Hrun & Hb & Hfok & Hfalse & Hout & Hin); try assumption; try lia.
  rewrite Hrun.
  destruct (poll_fields cfg st1) as (Pb & Pa & Ps & Pf & Pp).
  set (st2 := set_busy false (poll cfg st1)).
  assert (Hfalse2 : ok = false -> secret_abort st2 = true).
  { intros E. subst st2. cbn [secret_abort set_busy]. rewrite Pa, (Hfalse E).
    reflexivity. }
  destruct (engine_status_cases ok st2 Hfalse2) as (Hcases & Hokay).
  exists (status_only base (engine_status ok st2) data), st2.
  rewrite byte_at_status_only by exact Hbase.
  split_ands.
  - exact Hcases.
  - subst st2. cbn [flash set_busy]. rewrite Pf. exact Hfok.
  - intros a Ha. subst st2. cbn [flash set_busy]. rewrite Pf. apply Hout, Ha.
  - intros Hst a Ha. subst st2. cbn [flash set_busy]. rewrite Pf.
    rewrite (Hin (proj1 (Hokay Hst)) a Ha). unfold in_range in Ha.
    rewrite Hpeq, byte_at_take_drop by lia. reflexivity.
  - intros Hquiet.
    destruct (write_loop_quiet cfg Hok data fuel start (base + 6) size st0)
      as (st1' & Hrun' & _ & Ha' & Hq' & _); try assumption; try lia;
      try reflexivity.
    rewrite Hrun in Hrun'. injection Hrun' as -> <-.
    unfold engine_status. subst st2. cbn [secret_abort set_busy].
    rewrite Pa, Ha', (quiet_slot cfg _ 0 Hq'), andb_false_r.
    reflexivity.
Qed.

(** ** READ *)

Lemma write_outcome_witness :
  exists resp st',
    raw_hid_receive_kb rp2040_example 27 sample_write (idle erased_flash [])
    = Done (resp, st')
    /\ (byte_at resp 1 = SECRET_STATUS_OK \/ byte_at resp 1 = SECRET_STATUS_ABORT)
    /\ secret_busy st' = false
    /\ flash_ok (flash st')
    /\ (forall a, in_range 2084864 2084890 a = false -> flash st' a = 0xFF)
    /\ (byte_at resp 1 = SECRET_STATUS_OK ->
        forall a, in_range 2084864 2084890 a = true ->
                  flash st' a = byte_at sample_payload (Z.to_nat (a - 2084864)))
    /\ (quiet rp2040_example [] = true -> byte_at resp 1 = SECRET_STATUS_OK).
Proof.
  destruct (write_outcome rp2040_example 27 sample_write (idle erased_flash []) 0
              sample_payload
              rp2040_example_ok eq_refl (bytes_okb_ok sample_write eq_refl)
              (framed_unprefixed SECRET_CMD_WRITE sample_write eq_refl eq_refl)
              eq_refl erased_flash_ok)
    as (resp & st' & H).
  - vm_compute. split; discriminate.
  - reflexivity.
  - vm_compute. discriminate.
  - vm_compute. reflexivity.
  - exists resp, st'. exact H.
Defined.

Lemma byte_at_cleared (data : list Z) (j : nat) :
  (1 <= j)%nat -> byte_at (cleared data) j = 0.
Proof.
  intros Hj. destruct j as [|j]; [lia|]. unfold byte_at, cleared. cbn [lookup list_lookup].
  destruct (replicate 31 0 !! j) as [x|] eqn:E; [|reflexivity].
  apply lookup_replicate_1 in E as [-> _]. reflexivity.
Qed.

Lemma secret_read_bytes_flash (cfg : config) (offset size : Z) (st : state) :
  config_ok cfg ->
  0 <= offset -> 0 <= size -> offset + size <= SECRET_STORAGE_SIZE cfg ->
  secret_read_bytes cfg offset size st
  = flash_bytes (flash st) (SECRET_STORAGE_BASE cfg + offset) (Z.to_nat size).
Proof.
  intros Hok Ho Hsz Hsum.
  pose proof (assert_fits cfg Hok). pose proof (hw_backing_nonneg cfg Hok).
  pose proof (hw_flash_32bit cfg Hok). pose proof (sector_size_pos cfg Hok).
  pose proof (hw_xip_32bit cfg Hok) as Hxip.
  unfold secret_read_bytes, xip_read, flash_bytes, secret_flash_offset.
  rewrite (u32_small (SECRET_STORAGE_BASE cfg + offset))
    by (unfold SECRET_STORAGE_BASE; lia).
  apply map_ext_in. intros i Hi. apply in_seq in Hi.
  apply xip_alias; [exact Hxip | unfold SECRET_STORAGE_BASE; lia].
Qed.

(** X6. A READ that passes validation with an exact sum [offset + size]
    within the region copies the [size] flash bytes at
    [SECRET_STORAGE_BASE + offset] behind the header and leaves the rest of
    the response zero; flash and scratch sector are as before and
    [secret_busy] is clear again.  With no press of Escape during the call
    the status is OK and the size is echoed; a press of Escape during the
    call turns the status into ABORT and leaves the size slot zero, the
    payload being in the response all the same. *)
Theorem read_outcome (cfg : config) (fuel : nat) (data : list Z) (st : state)
    (base : nat) :
  config_ok cfg ->
  length data = FRAME_SIZE -> bytes_ok data ->
  framed base SECRET_CMD_READ data ->
  secret_busy st = false ->
  let offset := read_u32_be data (base + 1) in
  let size := byte_at data (base + 5) in
  let start := SECRET_STORAGE_BASE cfg + offset in
  1 <= size <= 28 ->
  offset + size <= SECRET_STORAGE_SIZE cfg ->
  exists resp st',
    raw_hid_receive_kb cfg fuel data st = Done (resp, st')
    /\ frame_slice resp (base + 3) (Z.to_nat size)
       = Some (flash_bytes (flash st) start (Z.to_nat size))
    /\ (forall j, (base + 3 + Z.to_nat size <= j)%nat -> byte_at resp j = 0)
    /\ flash st' = flash st
    /\ secret_sector_buf st' = secret_sector_buf st
    /\ secret_busy st' = false
    /\ (has_escape cfg (slot (pending st) 0) = false ->
        byte_at resp (base + 1) = SECRET_STATUS_OK /\ byte_at resp (base + 2) = size)
    /\ (has_escape cfg (slot (pending st) 0) = true ->
        byte_at resp (base + 1) = SECRET_STATUS_ABORT /\ byte_at resp (base + 2) = 0).
Proof.
  intros Hok Hlen Hbytes Hframed Hbusy offset size start Hsize Hsum.
  pose proof (read_u32_be_range data (base + 1) Hbytes) as Ho. fold offset in Ho.
  pose proof (framed_base _ _ _ Hframed) as Hbase.
  pose proof (assert_fits cfg Hok). pose proof (hw_backing_nonneg cfg Hok).
  pose proof (hw_flash_32bit cfg Hok). pose proof (sector_size_pos cfg Hok).
  assert (Hr : raw_hid_receive_kb cfg fuel data st = _)
    by (apply (serve_read cfg fuel data st base Hlen Hframed Hbusy);
        fold offset size; unfold SECRET_MAX_READ; try lia; rewrite u32_small; lia).
  cbv zeta in Hr. fold offset size in Hr.
  set (st0 := set_abort false (set_busy true st)) in *.
  rewrite (secret_read_bytes_flash cfg offset size st0 Hok) in Hr by lia.
  change (flash st0) with (flash st) in Hr. fold start in Hr.
  set (bytes := flash_bytes (flash st) start (Z.to_nat size)) in *.
  assert (Hblen : length bytes = Z.to_nat size)
    by (subst bytes; unfold flash_bytes; rewrite length_map, length_seq; reflexivity).
  set (resp0 := memcpy_at (cleared data) (base + 3) bytes) in *.
  assert (Hlen0 : length resp0 = FRAME_SIZE)
    by (subst resp0; rewrite length_memcpy_at; rewrite length_cleared;
        unfold FRAME_SIZE; lia).
  assert (Hslice0 : frame_slice resp0 (base + 3) (Z.to_nat size) = Some bytes)
    by (subst resp0; rewrite <- Hblen; apply frame_slice_memcpy_at;
        rewrite length_cleared; unfold FRAME_SIZE; lia).
  assert (Hzero0 : forall j, (base + 3 + Z.to_nat size <= j)%nat -> byte_at resp0 j = 0).
  { intros j Hj. subst resp0.
    rewrite byte_at_memcpy_at_out by (rewrite ?length_cleared; unfold FRAME_SIZE; lia).
    apply byte_at_cleared. lia. }
  assert (Hsize0 : byte_at resp0 (base + 2) = 0).
  { subst resp0.
    rewrite byte_at_memcpy_at_before by (rewrite length_cleared; unfold FRAME_SIZE; lia).
    apply byte_at_cleared. lia. }
  destruct (poll_fields cfg st0) as (Pb & Pa & Ps & Pf & Pp).
  change (secret_abort st0) with false in Pa.
  change (secret_busy st0) with true in Pa.
  change (pending st0) with (pending st) in Pa.
  cbn [orb andb] in Pa.
  cbn [secret_abort set_busy] in Hr. rewrite Pa in Hr.
  destruct (has_escape cfg (slot (pending st) 0)) eqn:Hesc;
    eexists _, _; (split; [exact Hr|]).
  - split; [rewrite frame_slice_insert_ne by lia; exact Hslice0|].
    split; [intros j Hj; rewrite byte_at_insert_ne by lia; apply Hzero0, Hj|].
    split; [exact Pf|]. split; [exact Ps|]. split; [reflexivity|].
    split; [discriminate|]. intros _. split.
    + apply byte_at_insert_eq. rewrite Hlen0. unfold FRAME_SIZE. lia.
    + rewrite byte_at_insert_ne by lia. exact Hsize0.
  - split; [rewrite !frame_slice_insert_ne by lia; exact Hslice0|].
    split; [intros j Hj; rewrite !byte_at_insert_ne by lia; apply Hzero0, Hj|].
    split; [exact Pf|]. split; [exact Ps|]. split; [reflexivity|].
    split; [|discriminate]. intros _. split.
    + rewrite byte_at_insert_ne by lia. apply byte_at_insert_eq.
      rewrite Hlen0. unfold FRAME_SIZE. lia.
    + apply byte_at_insert_eq. rewrite length_insert, Hlen0. unfold FRAME_SIZE. lia.
Qed.

(** ** Validation of the size byte *)

Lemma read_outcome_witness :
  exists resp st',
    raw_hid_receive_kb rp2040_example 1 sample_read (idle marked_flash [[key 0x29 true]])
    = Done (resp, st')
    /\ frame_slice resp 3 26 = Some (flash_bytes marked_flash 2084864 26)
    /\ (forall j, (29 <= j)%nat -> byte_at resp j = 0)
    /\ flash st' = marked_flash
    /\ secret_sector_buf st' = []
    /\ secret_busy st' = false
    /\ (has_escape rp2040_example [key 0x29 true] = false ->
        byte_at resp 1 = SECRET_STATUS_OK /\ byte_at resp 2 = 26)
    /\ (has_escape rp2040_example [key 0x29 true] = true ->
        byte_at resp 1 = SECRET_STATUS_ABORT /\ byte_at resp 2 = 0).
Proof.
  destruct (read_outcome rp2040_example 1 sample_read
              (idle marked_flash [[key 0x29 true]]) 0
              rp2040_example_ok eq_refl (bytes_okb_ok sample_read eq_refl)
              (framed_unprefixed SECRET_CMD_READ sample_read eq_refl eq_refl)
              eq_refl)
    as (resp & st' & H).
  - vm_compute. split; discriminate.
  - vm_compute. discriminate.
  - exists resp, st'. exact H.
Defined.

(** X4. A READ whose size byte is 0 or above 28, and a WRITE whose size
    byte is 0 or above 26, is answered ERR whatever its offset, and the
    state is returned as it was: the size is checked before the range. *)
Theorem size_validation (cfg : config) (fuel : nat) (data : list Z) (st : state)
    (base : nat) (cmd : Z) :
  length data = FRAME_SIZE ->
  framed base cmd data ->
  secret_busy st = false ->
  (cmd = SECRET_CMD_READ
   /\ (byte_at data (base + 5) = 0 \/ SECRET_MAX_READ < byte_at data (base + 5))
   \/ cmd = SECRET_CMD_WRITE
      /\ (byte_at data (base + 5) = 0 \/ SECRET_MAX_WRITE < byte_at data (base + 5))) ->
  raw_hid_receive_kb cfg fuel data st
  = Done (status_only base SECRET_STATUS_ERR data, st).
Proof.
  intros Hlen Hframed Hbusy Hcmd.
  rewrite (dispatch_framed cfg fuel base cmd) by assumption.
  unfold serve. cbv zeta. rewrite response_cleared by exact Hlen.
  assert (Hbad : forall s m, s = 0 \/ m < s -> (s =? 0) || (s >? m) = true).
  { intros s m [-> | H]; [reflexivity|].
    rewrite Z.gtb_ltb, (proj2 (Z.ltb_lt m s) H). apply orb_true_r. }
  destruct Hcmd as [(-> & Hsz) | (-> & Hsz)].
  - change (SECRET_CMD_READ =? SECRET_CMD_INFO) with false.
    change (SECRET_CMD_READ =? SECRET_CMD_READ) with true.
    rewrite Hbusy. cbv iota. rewrite (Hbad _ _ Hsz). reflexivity.
  - change (SECRET_CMD_WRITE =? SECRET_CMD_INFO) with false.
    change (SECRET_CMD_WRITE =? SECRET_CMD_READ) with false.
    change (SECRET_CMD_WRITE =? SECRET_CMD_WRITE) with true.
    rewrite Hbusy. cbv iota. rewrite (Hbad _ _ Hsz). reflexivity.
Qed.

Lemma size_validation_witness :
  raw_hid_receive_kb rp2040_example 1
    (frame_of [0xA1; 0xFF; 0xFF; 0xFF; 0xFF; 29]) (idle erased_flash [])
  = Done (0xA1 :: SECRET_STATUS_ERR :: replicate 30 0, idle erased_flash []).
Proof.
  apply (size_validation rp2040_example 1 (frame_of [0xA1; 0xFF; 0xFF; 0xFF; 0xFF; 29])
           (idle erased_flash []) 0 SECRET_CMD_READ eq_refl
           (framed_unprefixed SECRET_CMD_READ
              (frame_of [0xA1; 0xFF; 0xFF; 0xFF; 0xFF; 29]) eq_refl eq_refl)
           eq_refl).
  left. split; [reflexivity|]. right. vm_compute. reflexivity.
Defined.

(** X5. The range check of READ and WRITE is exact whenever the sum
    [offset + size] fits 32 bits: a request with a valid size is answered
    RANGE if and only if the sum exceeds [SECRET_STORAGE_SIZE], and a
    RANGE answer carries nothing but the status and leaves the state as it
    was. *)
Theorem range_check_exact (cfg : config) (fuel : nat) (data : list Z) (st : state)
    (base : nat) (cmd : Z) (resp : list Z) (st' : state) :
  length data = FRAME_SIZE -> bytes_ok data ->
  framed base cmd data ->
  (cmd = SECRET_CMD_READ /\ 0 < byte_at data (base + 5) <= SECRET_MAX_READ
   \/ cmd = SECRET_CMD_WRITE /\ 0 < byte_at data (base + 5) <= SECRET_MAX_WRITE) ->
  secret_busy st = false ->
  read_u32_be data (base + 1) + byte_at data (base + 5) < 2 ^ 32 ->
  raw_hid_receive_kb cfg fuel data st = Done (resp, st') ->
  (byte_at resp (base + 1) = SECRET_STATUS_RANGE
   <-> SECRET_STORAGE_SIZE cfg < read_u32_be data (base + 1) + byte_at data (base + 5))
  /\ (byte_at resp (base + 1) = SECRET_STATUS_RANGE ->
      resp = status_only base SECRET_STATUS_RANGE data /\ st' = st).
Proof.
  intros Hlen Hbytes Hframed Hcmd Hbusy Hfit H.
  pose proof (framed_base _ _ _ Hframed) as Hbase.
  pose proof (read_u32_be_range data (base + 1) Hbytes) as Hoff.
  destruct (Z.lt_ge_cases (SECRET_STORAGE_SIZE cfg)
              (read_u32_be data (base + 1) + byte_at data (base + 5))) as [Hgt | Hle].
  - rewrite (range_check_without_wrap cfg fuel data st base cmd) in H by assumption.
    injection H as <- <-.
    rewrite byte_at_status_only by exact Hbase. tauto.
  - assert (Hno : byte_at resp (base + 1) <> SECRET_STATUS_RANGE).
    { destruct Hcmd as [(-> & Hsz) | (-> & Hsz)].
      - rewrite (serve_read cfg fuel data st base Hlen Hframed Hbusy) in H
          by (try rewrite u32_small; lia).
        cbv zeta in H.
        match type of H with
        | context [memcpy_at (cleared data) (base + 3) ?b] =>
            assert (Hm : length (memcpy_at (cleared data) (base + 3) b) = FRAME_SIZE)
              by (unfold secret_read_bytes;
                  rewrite length_memcpy_at; rewrite ?length_xip_read, ?length_cleared;
                  unfold FRAME_SIZE, SECRET_MAX_READ in *; lia)
        end.
        destruct (secret_abort _); injection H as <- <-.
        + rewrite byte_at_insert_eq by (rewrite Hm; unfold FRAME_SIZE; lia).
          discriminate.
        + rewrite byte_at_insert_ne by lia.
          rewrite byte_at_insert_eq by (rewrite Hm; unfold FRAME_SIZE; lia).
          discriminate.
      - rewrite (serve_write cfg fuel data st base Hlen Hframed Hbusy) in H
          by (try rewrite u32_small; lia).
        destruct (secret_write_bytes _ _ _ _ _ _ _) as [[ok st1]| |]; try discriminate.
        injection H as <- <-. rewrite byte_at_status_only by exact Hbase.
        unfold engine_status. destruct (secret_abort _), ok; discriminate. }
    split; [split; [intros E; contradiction | lia] | intros E; contradiction].
Qed.

Lemma range_check_exact_witness :
  (byte_at (0xA2 :: SECRET_STATUS_RANGE :: replicate 30 0) 1 = SECRET_STATUS_RANGE
   <-> SECRET_STORAGE_SIZE rp2040_example
       < read_u32_be (frame_of [0xA2; 0; 0; 0x0F; 0xFF; 2; 7; 8]) 1
         + byte_at (frame_of [0xA2; 0; 0; 0x0F; 0xFF; 2; 7; 8]) 5)
  /\ (byte_at (0xA2 :: SECRET_STATUS_RANGE :: replicate 30 0) 1 = SECRET_STATUS_RANGE ->
      0xA2 :: SECRET_STATUS_RANGE :: replicate 30 0
      = status_only 0 SECRET_STATUS_RANGE (frame_of [0xA2; 0; 0; 0x0F; 0xFF; 2; 7; 8])
      /\ idle erased_flash [] = idle erased_flash []).
Proof.
  apply (range_check_exact rp2040_example 1
           (frame_of [0xA2; 0; 0; 0x0F; 0xFF; 2; 7; 8]) (idle erased_flash [])
           0 SECRET_CMD_WRITE (0xA2 :: SECRET_STATUS_RANGE :: replicate 30 0)
           (idle erased_flash []) eq_refl
           (bytes_okb_ok (frame_of [0xA2; 0; 0; 0x0F; 0xFF; 2; 7; 8]) eq_refl)
           (framed_unprefixed SECRET_CMD_WRITE
              (frame_of [0xA2; 0; 0; 0x0F; 0xFF; 2; 7; 8]) eq_refl eq_refl)).
  - right. split; [reflexivity|]. vm_compute. split; [reflexivity | discriminate].
  - reflexivity.
  - vm_compute. reflexivity.
  - vm_compute. reflexivity.
Defined.

(** ** The cancellation hook over sequences of events *)

(** X13. Over any sequence of key events the hook leaves [secret_busy],
    the scratch sector and the flash alone and never clears
    [secret_abort]; while [secret_busy] is clear the sequence changes
    nothing at all, and while it is up [secret_abort] ends up set exactly
    when it was set before or the sequence holds a press of Escape. *)
Theorem hook_over_event_sequence (cfg : config) (evs : list (Z * keyrecord_t))
    (st : state) :
  let run :=
    fold_left
      (fun s e => snd (secret_storage_process_record_user cfg (fst e) (snd e) s))
      evs st in
  secret_busy run = secret_busy st
  /\ secret_sector_buf run = secret_sector_buf st
  /\ flash run = flash st
  /\ secret_abort run
     = secret_abort st || (secret_busy st && has_escape cfg evs)
  /\ (if secret_busy st then True else run = st).
Proof.
  cbv zeta. fold (deliver cfg evs st).
  destruct (deliver_fields cfg evs st) as (Hb & Ha & Hs & Hf & _).
  split_ands; try assumption.
  destruct (secret_busy st) eqn:E; [exact I|].
  clear - E. revert st E. induction evs as [|e evs IH]; intros st E; [reflexivity|].
  cbn [deliver fold_left]. unfold secret_storage_process_record_user at 2.
  rewrite E. cbn [snd]. apply IH, E.
Qed.

(** ** What every response looks like *)

Lemma land_byte_range (x : Z) : 0 <= Z.land x 0xFF < 256.
Proof.
  change 0xFF with (Z.ones 8). rewrite Z.land_ones by lia.
  apply Z.mod_pos_bound. lia.
Qed.

Lemma bytes_ok_insert (l : list Z) (i : nat) (v : Z) :
  bytes_ok l -> 0 <= v < 256 -> bytes_ok (<[i := v]> l).
Proof. intros Hl Hv. apply Forall_insert; assumption. Qed.

Lemma bytes_ok_write_u32_be (l : list Z) (pos : nat) (v : Z) :
  bytes_ok l -> bytes_ok (write_u32_be l pos v).
Proof.
  intros Hl. unfold write_u32_be. cbv zeta.
  repeat apply bytes_ok_insert; try apply land_byte_range. exact Hl.
Qed.

Lemma bytes_ok_cleared (data : list Z) : bytes_ok data -> bytes_ok (cleared data).
Proof.
  intros H. unfold cleared. apply Forall_cons. split.
  - apply bytes_ok_byte_at, H.
  - apply Forall_replicate. lia.
Qed.

Lemma engine_status_byte (ok : bool) (st : state) : 0 <= engine_status ok st < 256.
Proof.
  unfold engine_status, SECRET_STATUS_ABORT, SECRET_STATUS_OK, SECRET_STATUS_ERR.
  destruct (secret_abort st), ok; lia.
Qed.

Section Responses.

Context (cfg : config).

(** What [serve] returns is a frame of bytes. *)
Lemma serve_well_formed (fuel : nat) (base : nat) (cmd : Z) (data : list Z)
    (st : state) (resp : list Z) (st' : state) :
  (base <= 1)%nat ->
  length data = FRAME_SIZE -> bytes_ok data -> flash_ok (flash st) ->
  serve cfg fuel base cmd data data st = Done (resp, st') ->
  length resp = FRAME_SIZE /\ bytes_ok resp.
Proof.
  intros Hbase Hlen Hbytes Hflash H. unfold serve in H. cbv zeta in H.
  rewrite response_cleared in H by exact Hlen.
  pose proof (bytes_ok_cleared data Hbytes) as Hc.
  pose proof (bytes_ok_byte_at data (base + 5) Hbytes) as Hsz.
  assert (Hst : forall v l, length l = FRAME_SIZE /\ bytes_ok l -> 0 <= v < 256 ->
                            forall i, length (<[i := v]> l) = FRAME_SIZE
                                      /\ bytes_ok (<[i := v]> l)).
  { intros v l (Hl & Hb) Hv i. rewrite length_insert.
    split; [exact Hl | apply bytes_ok_insert; assumption]. }
  assert (Hcl : length (cleared data) = FRAME_SIZE /\ bytes_ok (cleared data))
    by (split; [reflexivity | exact Hc]).
  destruct (cmd =? SECRET_CMD_INFO).
  { injection H as <- <-. unfold info_response. cbv zeta.
    rewrite !length_insert, !length_write_u32_be, length_insert.
    split; [reflexivity|].
    unfold SECRET_MAX_WRITE, SECRET_MAX_READ, SECRET_STATUS_OK.
    apply bytes_ok_insert; [|lia]. apply bytes_ok_insert; [|lia].
    do 4 apply bytes_ok_write_u32_be.
    apply bytes_ok_insert; [exact Hc | lia]. }
  destruct (secret_busy st).
  { injection H as <- <-. apply Hst; [exact Hcl | unfold SECRET_STATUS_BUSY; lia]. }
  destruct (cmd =? SECRET_CMD_READ).
  { destruct (byte_at data (base + 5) =? 0) eqn:E0; cbn [orb] in H.
    { injection H as <- <-. apply Hst; [exact Hcl | unfold SECRET_STATUS_ERR; lia]. }
    rewrite Z.gtb_ltb in H.
    destruct (Z.ltb_spec SECRET_MAX_READ (byte_at data (base + 5))) as [|Hmax].
    { injection H as <- <-. apply Hst; [exact Hcl | unfold SECRET_STATUS_ERR; lia]. }
    destruct (_ >? _).
    { injection H as <- <-. apply Hst; [exact Hcl | unfold SECRET_STATUS_RANGE; lia]. }
    match type of H with
    | context [memcpy_at (cleared data) (base + 3) ?b] =>
        assert (Hm : length (memcpy_at (cleared data) (base + 3) b) = FRAME_SIZE
                     /\ bytes_ok (memcpy_at (cleared data) (base + 3) b))
    end.
    { unfold secret_read_bytes. split.
      - rewrite length_memcpy_at; rewrite ?length_xip_read, ?length_cleared;
          unfold FRAME_SIZE, SECRET_MAX_READ in *; lia.
      - apply bytes_ok_memcpy_at; [exact Hc | apply bytes_ok_xip_read, Hflash]. }
    destruct (secret_abort _); injection H as <- <-.
    - apply Hst; [exact Hm | unfold SECRET_STATUS_ABORT; lia].
    - apply Hst; [apply Hst; [exact Hm | unfold SECRET_STATUS_OK; lia] | exact Hsz]. }
  destruct (cmd =? SECRET_CMD_WRITE).
  { destruct (_ || _).
    { injection H as <- <-. apply Hst; [exact Hcl | unfold SECRET_STATUS_ERR; lia]. }
    destruct (_ >? _).
    { injection H as <- <-. apply Hst; [exact Hcl | unfold SECRET_STATUS_RANGE; lia]. }
    destruct (secret_write_bytes _ _ _ _ _ _ _) as [[ok st1]| |]; try discriminate.
    injection H as <- <-. apply Hst; [exact Hcl | apply engine_status_byte]. }
  destruct (cmd =? SECRET_CMD_ERASE).
  { destruct (_ =? 0).
    { injection H as <- <-. apply Hst; [exact Hcl | unfold SECRET_STATUS_ERR; lia]. }
    destruct (_ >? _).
    { injection H as <- <-. apply Hst; [exact Hcl | unfold SECRET_STATUS_RANGE; lia]. }
    destruct (_ || _).
    { injection H as <- <-. apply Hst; [exact Hcl | unfold SECRET_STATUS_ALIGN; lia]. }
    destruct (secret_erase_range _ _ _ _ _) as [[ok st1]| |]; try discriminate.
    injection H as <- <-. apply Hst; [exact Hcl | apply engine_status_byte]. }
  injection H as <- <-. exact Hcl.
Qed.

End Responses.

(** X12. Every response is a frame of 32 bytes: whatever the request
    and the state, what [raw_hid_receive_kb] leaves in the buffer has
    length 32 and holds only values from 0 to 255. *)
Theorem response_is_a_frame (cfg : config) (fuel : nat) (data : list Z) (st : state)
    (resp : list Z) (st' : state) :
  length data = FRAME_SIZE -> bytes_ok data -> flash_ok (flash st) ->
  raw_hid_receive_kb cfg fuel data st = Done (resp, st') ->
  length resp = FRAME_SIZE /\ bytes_ok resp.
Proof.
  intros Hlen Hbytes Hflash H. unfold raw_hid_receive_kb in H.
  rewrite frame_copy in H by exact Hlen. cbv zeta in H.
  destruct (is_command (byte_at data 0)); cbn [negb] in H.
  - apply (serve_well_formed cfg fuel 0 (byte_at data 0) data st resp st');
      try assumption. lia.
  - destruct (is_command (byte_at data 1)).
    + apply (serve_well_formed cfg fuel 1 (byte_at data 1) data st resp st');
        try assumption. lia.
    + injection H as <- <-. rewrite length_insert. split; [exact Hlen|].
      apply bytes_ok_insert; [exact Hbytes | lia].
Qed.

Lemma response_is_a_frame_witness :
  length ([0xA1; 0; 26] ++ replicate 26 0xFF ++ replicate 3 0) = FRAME_SIZE
  /\ bytes_ok ([0xA1; 0; 26] ++ replicate 26 0xFF ++ replicate 3 0).
Proof.
  apply (response_is_a_frame rp2040_example 1 sample_read (idle erased_flash [])
           ([0xA1; 0; 26] ++ replicate 26 0xFF ++ replicate 3 0) (idle erased_flash [])
           eq_refl (bytes_okb_ok sample_read eq_refl) erased_flash_ok).
  vm_compute. reflexivity.
Defined.

Section StatusSlot.

Context (cfg : config).

Lemma byte_at_info_response_status (data : list Z) (p : nat) :
  (p + 1 < length data)%nat ->
  byte_at (info_response cfg data p) (p + 1) = SECRET_STATUS_OK.
Proof.
  intros H. unfold info_response. cbv zeta.
  rewrite !byte_at_insert_ne, !byte_at_write_u32_be_ne by lia.
  apply byte_at_insert_eq. exact H.
Qed.

Lemma byte_at_info_response_before (data : list Z) (p j : nat) :
  (j <= p)%nat -> byte_at (info_response cfg data p) j = byte_at data j.
Proof.
  intros H. unfold info_response. cbv zeta.
  rewrite !byte_at_insert_ne, !byte_at_write_u32_be_ne by lia.
  apply byte_at_insert_ne. lia.
Qed.

(** The status slot and the bytes in front of it, on every path of
    [serve]. *)
Lemma serve_status_slot (fuel : nat) (base : nat) (cmd : Z) (data : list Z)
    (st : state) (resp : list Z) (st' : state) :
  (base <= 1)%nat -> is_command cmd = true ->
  length data = FRAME_SIZE ->
  serve cfg fuel base cmd data data st = Done (resp, st') ->
  In (byte_at resp (base + 1))
     [SECRET_STATUS_OK; SECRET_STATUS_ERR; SECRET_STATUS_BUSY;
      SECRET_STATUS_RANGE; SECRET_STATUS_ALIGN; SECRET_STATUS_ABORT]
  /\ (forall j, (1 <= j <= base)%nat -> byte_at resp j = 0).
Proof.
  intros Hbase Hcmd Hlen H. unfold serve in H. cbv zeta in H.
  rewrite response_cleared in H by exact Hlen.
  assert (Hst : forall v l, length l = FRAME_SIZE ->
                            byte_at (<[(base + 1)%nat := v]> l) (base + 1) = v)
    by (intros v l Hl; apply byte_at_insert_eq; rewrite Hl; unfold FRAME_SIZE; lia).
  assert (Hpre : forall v l j, (1 <= j <= base)%nat ->
                               byte_at (<[(base + 1)%nat := v]> l) j = byte_at l j)
    by (intros v l j Hj; apply byte_at_insert_ne; lia).
  assert (Hzero : forall j, (1 <= j <= base)%nat -> byte_at (cleared data) j = 0)
    by (intros j Hj; apply byte_at_cleared; lia).
  assert (Hdone : forall v,
             In v [SECRET_STATUS_OK; SECRET_STATUS_ERR; SECRET_STATUS_BUSY;
                   SECRET_STATUS_RANGE; SECRET_STATUS_ALIGN; SECRET_STATUS_ABORT] ->
             In (byte_at (<[(base + 1)%nat := v]> (cleared data)) (base + 1))
                [SECRET_STATUS_OK; SECRET_STATUS_ERR; SECRET_STATUS_BUSY;
                 SECRET_STATUS_RANGE; SECRET_STATUS_ALIGN; SECRET_STATUS_ABORT]
             /\ (forall j, (1 <= j <= base)%nat ->
                           byte_at (<[(base + 1)%nat := v]> (cleared data)) j = 0)).
  { intros v Hv. rewrite Hst by reflexivity. split; [exact Hv|].
    intros j Hj. rewrite Hpre by exact Hj. apply Hzero, Hj. }
  assert (Heng : forall ok s,
             In (engine_status ok s)
                [SECRET_STATUS_OK; SECRET_STATUS_ERR; SECRET_STATUS_BUSY;
                 SECRET_STATUS_RANGE; SECRET_STATUS_ALIGN; SECRET_STATUS_ABORT])
    by (intros ok s; unfold engine_status; destruct (secret_abort s), ok; simpl; tauto).
  destruct (is_command_cases cmd Hcmd) as [-> | [-> | [-> | ->]]].
  - change (SECRET_CMD_INFO =? SECRET_CMD_INFO) with true in H. cbv iota in H.
    injection H as <- <-. split.
    + rewrite byte_at_info_response_status
        by (rewrite length_cleared; unfold FRAME_SIZE; lia).
      simpl. tauto.
    + intros j Hj. rewrite byte_at_info_response_before by lia. apply Hzero, Hj.
  - change (SECRET_CMD_READ =? SECRET_CMD_INFO) with false in H.
    change (SECRET_CMD_READ =? SECRET_CMD_READ) with true in H. cbv iota in H.
    destruct (secret_busy st); [injection H as <- <-; apply Hdone; simpl; tauto|].
    destruct (byte_at data (base + 5) =? 0); cbn [orb] in H;
      [injection H as <- <-; apply Hdone; simpl; tauto|].
    rewrite Z.gtb_ltb in H.
    destruct (Z.ltb_spec SECRET_MAX_READ (byte_at data (base + 5))) as [|Hmax];
      [injection H as <- <-; apply Hdone; simpl; tauto|].
    destruct (_ >? _); [injection H as <- <-; apply Hdone; simpl; tauto|].
    match type of H with
    | context [memcpy_at (cleared data) (base + 3) ?b] =>
        assert (Hm : length (memcpy_at (cleared data) (base + 3) b) = FRAME_SIZE)
          by (unfold secret_read_bytes;
              rewrite length_memcpy_at; rewrite ?length_xip_read, ?length_cleared;
              unfold FRAME_SIZE, SECRET_MAX_READ in *; lia);
        assert (Hmz : forall j, (1 <= j <= base)%nat ->
                                byte_at (memcpy_at (cleared data) (base + 3) b) j = 0)
          by (intros j Hj; rewrite byte_at_memcpy_at_before
                by (rewrite length_cleared; unfold FRAME_SIZE; lia);
              apply Hzero, Hj)
    end.
    destruct (secret_abort _); injection H as <- <-.
    + rewrite Hst by exact Hm. split; [simpl; tauto|].
      intros j Hj. rewrite Hpre by exact Hj. apply Hmz, Hj.
    + rewrite byte_at_insert_ne, Hst by (first [lia | exact Hm]).
      split; [simpl; tauto|].
      intros j Hj. rewrite byte_at_insert_ne, Hpre by (first [lia | exact Hj]).
      apply Hmz, Hj.
  - change (SECRET_CMD_WRITE =? SECRET_CMD_INFO) with false in H.
    change (SECRET_CMD_WRITE =? SECRET_CMD_READ) with false in H.
    change (SECRET_CMD_WRITE =? SECRET_CMD_WRITE) with true in H. cbv iota in H.
    destruct (secret_busy st); [injection H as <- <-; apply Hdone; simpl; tauto|].
    destruct (_ || _); [injection H as <- <-; apply Hdone; simpl; tauto|].
    destruct (_ >? _); [injection H as <- <-; apply Hdone; simpl; tauto|].
    destruct (secret_write_bytes _ _ _ _ _ _ _) as [[ok st1]| |]; try discriminate.
    injection H as <- <-. apply Hdone, Heng.
  - change (SECRET_CMD_ERASE =? SECRET_CMD_INFO) with false in H.
    change (SECRET_CMD_ERASE =? SECRET_CMD_READ) with false in H.
    change (SECRET_CMD_ERASE =? SECRET_CMD_WRITE) with false in H.
    change (SECRET_CMD_ERASE =? SECRET_CMD_ERASE) with true in H. cbv iota in H.
    destruct (secret_busy st); [injection H as <- <-; apply Hdone; simpl; tauto|].
    destruct (_ =? 0); [injection H as <- <-; apply Hdone; simpl; tauto|].
    destruct (_ >? _); [injection H as <- <-; apply Hdone; simpl; tauto|].
    destruct (_ || _); [injection H as <- <-; apply Hdone; simpl; tauto|].
    destruct (secret_erase_range _ _ _ _ _) as [[ok st1]| |]; try discriminate.
    injection H as <- <-. apply Hdone, Heng.
Qed.

End StatusSlot.

(** X11. In the response to every frame that carries a command, the byte
    behind the command position holds one of the six status codes, whatever
    the command, its arguments and the state.  In the prefixed framing the
    byte at the command position itself is zero: the response does
    not repeat the command code there, whereas an unprefixed response keeps
    it in byte 0. *)
Theorem status_slot_holds_a_status (cfg : config) (fuel : nat) (data : list Z)
    (st : state) (base : nat) (cmd : Z) (resp : list Z) (st' : state) :
  length data = FRAME_SIZE ->
  framed base cmd data ->
  raw_hid_receive_kb cfg fuel data st = Done (resp, st') ->
  In (byte_at resp (base + 1))
     [SECRET_STATUS_OK; SECRET_STATUS_ERR; SECRET_STATUS_BUSY;
      SECRET_STATUS_RANGE; SECRET_STATUS_ALIGN; SECRET_STATUS_ABORT]
  /\ (base = 1%nat -> byte_at resp 1 = 0)
  /\ (base = 0%nat -> byte_at resp 0 = cmd).
Proof.
  intros Hlen Hframed H.
  pose proof (framed_base _ _ _ Hframed) as Hbase.
  rewrite (dispatch_framed cfg fuel base cmd) in H by assumption.
  destruct (serve_status_slot cfg fuel base cmd data st resp st' Hbase
              (proj1 Hframed) Hlen H) as (Hin & Hz).
  split; [exact Hin|]. split.
  - intros ->. apply Hz. lia.
  - intros ->. rewrite (serve_echo cfg fuel 0 cmd data st resp st' Hlen Hbase H).
    destruct Hframed as (_ & [(_ & E) | (E & _)]); [exact E | discriminate].
Qed.

Lemma status_slot_holds_a_status_witness :
  In (byte_at ([0xA1; 0; 26] ++ replicate 26 0xFF ++ replicate 3 0) 1)
     [SECRET_STATUS_OK; SECRET_STATUS_ERR; SECRET_STATUS_BUSY;
      SECRET_STATUS_RANGE; SECRET_STATUS_ALIGN; SECRET_STATUS_ABORT]
  /\ (0%nat = 1%nat -> byte_at ([0xA1; 0; 26] ++ replicate 26 0xFF ++ replicate 3 0) 1 = 0)
  /\ (0%nat = 0%nat
      -> byte_at ([0xA1; 0; 26] ++ replicate 26 0xFF ++ replicate 3 0) 0 = SECRET_CMD_READ).
Proof.
  apply (status_slot_holds_a_status rp2040_example 1 sample_read (idle erased_flash []) 0
           SECRET_CMD_READ ([0xA1; 0; 26] ++ replicate 26 0xFF ++ replicate 3 0)
           (idle erased_flash []) eq_refl
           (framed_unprefixed SECRET_CMD_READ sample_read eq_refl eq_refl)).
  vm_compute. reflexivity.
Defined.

(** ** Commands that only read *)

Section ReadOnly.

Context (cfg : config).

(** INFO and READ on every path of [serve]: a result for any iteration
    budget, with flash, scratch sector and [secret_busy] as before. *)
Lemma serve_reads_only (fuel : nat) (base : nat) (cmd : Z) (data : list Z)
    (st : state) :
  cmd = SECRET_CMD_INFO \/ cmd = SECRET_CMD_READ ->
  exists resp st',
    serve cfg fuel base cmd data data st = Done (resp, st')
    /\ flash st' = flash st
    /\ secret_sector_buf st' = secret_sector_buf st
    /\ secret_busy st' = secret_busy st.
Proof.
  intros [-> | ->]; unfold serve; cbv zeta.
  - change (SECRET_CMD_INFO =? SECRET_CMD_INFO) with true. cbv iota.
    eexists _, st. split_ands.
  - change (SECRET_CMD_READ =? SECRET_CMD_INFO) with false.
    change (SECRET_CMD_READ =? SECRET_CMD_READ) with true. cbv iota.
    destruct (secret_busy st) eqn:Hbusy; [eexists _, st; split_ands; exact Hbusy|].
    destruct (_ || _); [eexists _, st; split_ands; exact Hbusy|].
    destruct (_ >? _); [eexists _, st; split_ands; exact Hbusy|].
    destruct (poll_fields cfg (set_abort false (set_busy true st)))
      as (_ & _ & Ps & Pf & _).
    destruct (secret_abort _); eexists _, _; (split; [reflexivity|]);
      cbn [flash secret_sector_buf secret_busy set_busy];
      rewrite Ps, Pf; split_ands.
Qed.

End ReadOnly.

(** X10. Only WRITE and ERASE touch the flash.  Every frame that is not
    framed as a WRITE or an ERASE (INFO, READ with any offset and size,
    a frame without a command) is answered for any iteration budget and
    in any state, and the flash, the scratch sector and [secret_busy] are
    afterwards as they were before. *)
Theorem only_write_and_erase_touch_flash (cfg : config) (fuel : nat) (data : list Z)
    (st : state) :
  length data = FRAME_SIZE ->
  (forall base, ~ framed base SECRET_CMD_WRITE data) ->
  (forall base, ~ framed base SECRET_CMD_ERASE data) ->
  exists resp st',
    raw_hid_receive_kb cfg fuel data st = Done (resp, st')
    /\ flash st' = flash st
    /\ secret_sector_buf st' = secret_sector_buf st
    /\ secret_busy st' = secret_busy st.
Proof.
  intros Hlen Hw He. unfold raw_hid_receive_kb. rewrite frame_copy by exact Hlen.
  cbv zeta.
  destruct (is_command (byte_at data 0)) eqn:H0; cbn [negb].
  - destruct (is_command_cases _ H0) as [E | [E | [E | E]]].
    + apply serve_reads_only. left. exact E.
    + apply serve_reads_only. right. exact E.
    + exfalso. apply (Hw 0%nat). apply framed_unprefixed; [reflexivity | exact E].
    + exfalso. apply (He 0%nat). apply framed_unprefixed; [reflexivity | exact E].
  - destruct (is_command (byte_at data 1)) eqn:H1.
    + destruct (is_command_cases _ H1) as [E | [E | [E | E]]].
      * apply serve_reads_only. left. exact E.
      * apply serve_reads_only. right. exact E.
      * exfalso. apply (Hw 1%nat). apply framed_prefixed; [reflexivity | exact H0 | exact E].
      * exfalso. apply (He 1%nat). apply framed_prefixed; [reflexivity | exact H0 | exact E].
    + eexists _, st. split_ands.
Qed.

Lemma only_write_and_erase_touch_flash_witness :
  exists resp st',
    raw_hid_receive_kb rp2040_example 0
      (frame_of [0xA1; 0xFF; 0xFF; 0xFF; 0xFF; 1]) (idle marked_flash [])
    = Done (resp, st')
    /\ flash st' = marked_flash
    /\ secret_sector_buf st' = []
    /\ secret_busy st' = false.
Proof.
  apply (only_write_and_erase_touch_flash rp2040_example 0
           (frame_of [0xA1; 0xFF; 0xFF; 0xFF; 0xFF; 1]) (idle marked_flash []) eq_refl).
  - intros base (_ & [(_ & E) | (_ & E & _)]); vm_compute in E; discriminate.
  - intros base (_ & [(_ & E) | (_ & E & _)]); vm_compute in E; discriminate.
Defined.

(** ** The layout fixed by the static asserts *)

Lemma aligned_multiple (x s : Z) : 0 < s -> x mod s = 0 -> x = s * (x / s).
Proof. intros Hs H. pose proof (Z.div_mod x s ltac:(lia)). lia. Qed.

(** X14. What the five static asserts give, with the sector size a power
    of two, a non-negative backing size and a flash whose size plus one
    sector fits 32 bits: the secret region starts at a non-negative sector boundary,
    ends at the sector boundary where the wear-leveling store begins, and
    holds at least one sector; and for every offset inside the region the
    flash address is computed without wrap-around, and the sector that the
    write engine selects for it by masking is aligned and lies entirely
    inside the region, so that rewriting it never reaches the
    wear-leveling store or anything below the region. *)
Theorem secret_region_layout (cfg : config) :
  config_ok cfg ->
  0 <= SECRET_STORAGE_BASE cfg
  /\ SECRET_STORAGE_BASE cfg + SECRET_STORAGE_SIZE cfg
     = PICO_FLASH_SIZE_BYTES cfg - WEAR_LEVELING_BACKING_SIZE cfg
  /\ (SECRET_STORAGE_BASE cfg + SECRET_STORAGE_SIZE cfg) mod FLASH_SECTOR_SIZE cfg = 0
  /\ FLASH_SECTOR_SIZE cfg <= SECRET_STORAGE_SIZE cfg
  /\ forall offset, 0 <= offset < SECRET_STORAGE_SIZE cfg ->
       let addr := secret_flash_offset cfg offset in
       let sector_start := Z.land addr (u32 (Z.lnot (FLASH_SECTOR_SIZE cfg - 1))) in
       addr = SECRET_STORAGE_BASE cfg + offset
       /\ sector_start mod FLASH_SECTOR_SIZE cfg = 0
       /\ SECRET_STORAGE_BASE cfg <= sector_start <= addr
       /\ addr < sector_start + FLASH_SECTOR_SIZE cfg
          <= SECRET_STORAGE_BASE cfg + SECRET_STORAGE_SIZE cfg.
Proof.
  intros Hok.
  pose proof (assert_storage_pos cfg Hok) as Hpos.
  pose proof (assert_storage_aligned cfg Hok) as Hsa.
  pose proof (assert_base_aligned cfg Hok) as Hba.
  pose proof (assert_fits cfg Hok) as Hfits.
  pose proof (hw_backing_nonneg cfg Hok) as Hw.
  pose proof (hw_flash_32bit cfg Hok) as H32.
  pose proof (sector_size_pos cfg Hok) as Hs.
  destruct (hw_sector_pow2 cfg Hok) as (k & Hk & Ek).
  set (S := FLASH_SECTOR_SIZE cfg) in *.
  set (B := SECRET_STORAGE_BASE cfg) in *.
  set (N := SECRET_STORAGE_SIZE cfg) in *.
  assert (HB : 0 <= B) by (unfold B, SECRET_STORAGE_BASE; fold N; lia).
  assert (HBN : B + N = PICO_FLASH_SIZE_BYTES cfg - WEAR_LEVELING_BACKING_SIZE cfg)
    by (unfold B, SECRET_STORAGE_BASE; fold N; lia).
  assert (Hend : (B + N) mod S = 0)
    by (rewrite Z.add_mod, Hba, Hsa by lia; apply Z.mod_0_l; lia).
  pose proof (aligned_multiple N S Hs Hsa) as EN.
  pose proof (aligned_multiple B S Hs Hba) as EB.
  pose proof (aligned_multiple (B + N) S Hs Hend) as EBN.
  split_ands; try assumption.
  - destruct (Z.le_gt_cases 1 (N / S)); nia.
  - intros offset Hoff addr sector_start.
    assert (Haddr : addr = B + offset)
      by (unfold addr, secret_flash_offset; fold B; apply u32_small; lia).
    assert (Hstart : sector_start = addr - addr mod S).
    { unfold sector_start. fold S. rewrite Ek. apply sector_mask; [exact Hk | lia]. }
    pose proof (Z.mod_pos_bound addr S Hs) as Hm.
    pose proof (Z.div_mod addr S ltac:(lia)) as Hdm.
    assert (Hq : sector_start = S * (addr / S)) by lia.
    assert (Hlo : B / S <= addr / S) by (apply Z.div_le_mono; lia).
    assert (Hhi : addr / S < (B + N) / S)
      by (apply Z.div_lt_upper_bound; lia).
    split_ands; try lia.
    + rewrite Hq, Z.mul_comm. apply Z.mod_mul. lia.
    + nia.
    + nia.
Qed.

Lemma secret_region_layout_witness :
  0 <= SECRET_STORAGE_BASE rp2040_wide
  /\ SECRET_STORAGE_BASE rp2040_wide + SECRET_STORAGE_SIZE rp2040_wide
     = PICO_FLASH_SIZE_BYTES rp2040_wide - WEAR_LEVELING_BACKING_SIZE rp2040_wide
  /\ (SECRET_STORAGE_BASE rp2040_wide + SECRET_STORAGE_SIZE rp2040_wide)
       mod FLASH_SECTOR_SIZE rp2040_wide = 0
  /\ FLASH_SECTOR_SIZE rp2040_wide <= SECRET_STORAGE_SIZE rp2040_wide
  /\ forall offset, 0 <= offset < SECRET_STORAGE_SIZE rp2040_wide ->
       let addr := secret_flash_offset rp2040_wide offset in
       let sector_start :=
         Z.land addr (u32 (Z.lnot (FLASH_SECTOR_SIZE rp2040_wide - 1))) in
       addr = SECRET_STORAGE_BASE rp2040_wide + offset
       /\ sector_start mod FLASH_SECTOR_SIZE rp2040_wide = 0
       /\ SECRET_STORAGE_BASE rp2040_wide <= sector_start <= addr
       /\ addr < sector_start + FLASH_SECTOR_SIZE rp2040_wide
          <= SECRET_STORAGE_BASE rp2040_wide + SECRET_STORAGE_SIZE rp2040_wide.
Proof. exact (secret_region_layout rp2040_wide rp2040_wide_ok). Defined.

(** ** ERASE followed by READ *)

(** X9. After an ERASE that completes with no press of Escape pending,
    a READ of any range inside the erased range, in either framing,
    answers OK and returns [0xFF] in every payload byte, whatever the
    flash held before. *)
Theorem erase_then_read (cfg : config) (fuel : nat) (edata rdata : list Z)
    (st : state) (be br : nat) :
  config_ok cfg ->
  secret_busy st = false -> quiet cfg (pending st) = true ->
  length edata = FRAME_SIZE -> bytes_ok edata ->
  framed be SECRET_CMD_ERASE edata ->
  length rdata = FRAME_SIZE -> bytes_ok rdata ->
  framed br SECRET_CMD_READ rdata ->
  let eoff := read_u32_be edata (be + 1) in
  let esize := read_u32_be edata (be + 5) in
  let roff := read_u32_be rdata (br + 1) in
  let rsize := byte_at rdata (br + 5) in
  esize <> 0 ->
  eoff + esize <= SECRET_STORAGE_SIZE cfg ->
  eoff mod FLASH_SECTOR_SIZE cfg = 0 -> esize mod FLASH_SECTOR_SIZE cfg = 0 ->
  esize / FLASH_SECTOR_SIZE cfg < Z.of_nat fuel ->
  1 <= rsize <= 28 ->
  eoff <= roff -> roff + rsize <= eoff + esize ->
  exists resp1 st1 resp2 st2,
    raw_hid_receive_kb cfg fuel edata st = Done (resp1, st1)
    /\ byte_at resp1 (be + 1) = SECRET_STATUS_OK
    /\ raw_hid_receive_kb cfg fuel rdata st1 = Done (resp2, st2)
    /\ byte_at resp2 (br + 1) = SECRET_STATUS_OK
    /\ byte_at resp2 (br + 2) = rsize
    /\ frame_slice resp2 (br + 3) (Z.to_nat rsize)
       = Some (replicate (Z.to_nat rsize) 0xFF).
Proof.
  intros Hok Hbusy Hquiet Helen Hebytes Heframed Hrlen Hrbytes Hrframed
         eoff esize roff rsize Hsize Hsum Hoff Hsz Hfuel Hrsize Hlo Hhi.
  pose proof (read_u32_be_range edata (be + 1) Hebytes) as Ho. fold eoff in Ho.
  pose proof (read_u32_be_range edata (be + 5) Hebytes) as Hs. fold esize in Hs.
  pose proof (assert_fits cfg Hok). pose proof (hw_backing_nonneg cfg Hok).
  pose proof (hw_flash_32bit cfg Hok). pose proof (sector_size_pos cfg Hok) as Hsec.
  pose proof (hw_xip_32bit cfg Hok) as Hxip.
  pose proof (framed_base _ _ _ Heframed) as Hbe.
  pose proof (framed_base _ _ _ Hrframed) as Hbr.
  set (start := SECRET_STORAGE_BASE cfg + eoff).
  assert (Hstart : secret_flash_offset cfg eoff = start)
    by (unfold secret_flash_offset, start, SECRET_STORAGE_BASE; apply u32_small; lia).
  assert (Hend : u32 (start + esize) = start + esize)
    by (unfold start, SECRET_STORAGE_BASE; apply u32_small; lia).
  assert (Hn : esize = Z.of_nat (Z.to_nat (esize / FLASH_SECTOR_SIZE cfg))
                       * FLASH_SECTOR_SIZE cfg).
  { rewrite Z2Nat.id by (apply Z.div_pos; lia).
    pose proof (Z.div_mod esize (FLASH_SECTOR_SIZE cfg) ltac:(lia)). lia. }
  set (n := Z.to_nat (esize / FLASH_SECTOR_SIZE cfg)) in *.
  (* the ERASE *)
  rewrite (serve_erase cfg fuel edata st be Helen Heframed Hbusy);
    fold eoff esize; try assumption; [|rewrite u32_small; lia].
  rewrite Hstart, Hend.
  set (st0 := set_abort false (set_busy true st)).
  destruct (erase_loop_calm cfg Hsec n fuel start st0)
    as (st1 & Hrun & _ & Ha1 & _ & Hp1 & Hcell);
    try (unfold start, SECRET_STORAGE_BASE; lia); try reflexivity.
  { apply quiet_quiet_before. exact Hquiet. }
  rewrite <- Hn in Hrun, Hcell. rewrite Hrun.
  change (pending st0) with (pending st) in Hp1.
  assert (Hq1 : quiet cfg (pending st1) = true)
    by (rewrite Hp1; apply quiet_drop, Hquiet).
  destruct (poll_fields cfg st1) as (Pb & Pa & Ps & Pf & Pp).
  rewrite Ha1, (quiet_slot cfg _ 0 Hq1), andb_false_r in Pa. simpl in Pa.
  set (st2 := set_busy false (poll cfg st1)).
  assert (Hstatus : engine_status true st2 = SECRET_STATUS_OK)
    by (unfold engine_status; subst st2; cbn [secret_abort set_busy]; rewrite Pa;
        reflexivity).
  rewrite Hstatus.
  (* the READ *)
  assert (Hq2 : quiet cfg (pending st2) = true)
    by (subst st2; cbn [pending set_busy]; rewrite Pp; apply quiet_drop, Hq1).
  pose proof (read_u32_be_range rdata (br + 1) Hrbytes) as Hro. fold roff in Hro.
  assert (Hr : raw_hid_receive_kb cfg fuel rdata st2 = _)
    by (apply (serve_read cfg fuel rdata st2 br Hrlen Hrframed eq_refl);
        fold roff rsize; unfold SECRET_MAX_READ; try lia; rewrite u32_small; lia).
  cbv zeta in Hr. fold roff rsize in Hr.
  set (st3 := set_abort false (set_busy true st2)) in *.
  destruct (poll_fields cfg st3) as (Qb & Qa & Qs & Qf & Qp).
  assert (Hq3 : has_escape cfg (slot (pending st3) 0) = false)
    by (apply quiet_slot; exact Hq2).
  rewrite Hq3, andb_false_r in Qa. cbn in Qa.
  cbn [secret_abort set_busy] in Hr. rewrite Qa in Hr.
  set (bytes := secret_read_bytes cfg roff rsize st3) in *.
  assert (Hblen : length bytes = Z.to_nat rsize)
    by (subst bytes; unfold secret_read_bytes; apply length_xip_read).
  assert (Hbytes : bytes = replicate (Z.to_nat rsize) 0xFF).
  { subst bytes. rewrite secret_read_bytes_flash by (try assumption; lia).
    unfold flash_bytes. apply list_eq. intros i.
    destruct (Nat.lt_ge_cases i (Z.to_nat rsize)) as [Hi | Hi].
    - rewrite list_lookup_fmap.
      rewrite lookup_seq_lt by exact Hi. cbn [fmap option_fmap option_map].
      rewrite lookup_replicate_2 by exact Hi. f_equal.
      subst st3 st2. cbn [flash set_abort set_busy]. rewrite Pf, Hcell.
      unfold in_range, start.
      rewrite (proj2 (Z.leb_le _ _)), (proj2 (Z.ltb_lt _ _)) by lia.
      reflexivity.
    - rewrite !lookup_ge_None_2; [reflexivity | |].
      + rewrite length_replicate. exact Hi.
      + rewrite length_map, length_seq. exact Hi. }
  exists (status_only be SECRET_STATUS_OK edata), st2.
  eexists _, _. split; [reflexivity|].
  split; [apply byte_at_status_only; exact Hbe|].
  split; [exact Hr|].
  assert (Hmlen : length (memcpy_at (cleared rdata) (br + 3) bytes) = FRAME_SIZE)
    by (rewrite length_memcpy_at; rewrite length_cleared; unfold FRAME_SIZE; lia).
  split_ands.
  - rewrite byte_at_insert_ne by lia. apply byte_at_insert_eq.
    rewrite Hmlen. unfold FRAME_SIZE. lia.
  - apply byte_at_insert_eq. rewrite length_insert, Hmlen. unfold FRAME_SIZE. lia.
  - rewrite !frame_slice_insert_ne by lia.
    rewrite <- Hbytes, <- Hblen. apply frame_slice_memcpy_at.
    rewrite length_cleared. unfold FRAME_SIZE. lia.
Qed.

Lemma erase_then_read_witness :
  exists resp1 st1 resp2 st2,
    raw_hid_receive_kb rp2040_wide 3 sample_erase (idle zero_flash []) = Done (resp1, st1)
    /\ byte_at resp1 1 = SECRET_STATUS_OK
    /\ raw_hid_receive_kb rp2040_wide 3 sample_read st1 = Done (resp2, st2)
    /\ byte_at resp2 1 = SECRET_STATUS_OK
    /\ byte_at resp2 2 = 26
    /\ frame_slice resp2 3 26 = Some (replicate 26 0xFF).
Proof.
  destruct (erase_then_read rp2040_wide 3 sample_erase sample_read (idle zero_flash [])
              0 0 rp2040_wide_ok eq_refl eq_refl
              eq_refl (bytes_okb_ok sample_erase eq_refl)
              (framed_unprefixed SECRET_CMD_ERASE sample_erase eq_refl eq_refl)
              eq_refl (bytes_okb_ok sample_read eq_refl)
              (framed_unprefixed SECRET_CMD_READ sample_read eq_refl eq_refl))
    as (resp1 & st1 & resp2 & st2 & H).
  - vm_compute. discriminate.
  - vm_compute. discriminate.
  - reflexivity.
  - reflexivity.
  - vm_compute. reflexivity.
  - vm_compute. split; discriminate.
  - vm_compute. discriminate.
  - vm_compute. discriminate.
  - exists resp1, st1, resp2, st2. exact H.
Defined.

(** ** The scratch sector after a WRITE *)

Lemma length_flash_bytes (f : flash_mem) (a : Z) (n : nat) :
  length (flash_bytes f a n) = n.
Proof. unfold flash_bytes. rewrite length_map, length_seq. reflexivity. Qed.

Lemma byte_at_flash_bytes (f : flash_mem) (a : Z) (n i : nat) :
  (i < n)%nat -> byte_at (flash_bytes f a n) i = f (a + Z.of_nat i).
Proof.
  intros Hi. unfold byte_at, flash_bytes.
  rewrite list_lookup_fmap, lookup_seq_lt by exact Hi. reflexivity.
Qed.

Section Scratch.

Context (cfg : config) (cfg_ok : config_ok cfg).

Local Abbreviation SECTOR := (FLASH_SECTOR_SIZE cfg).

(** One iteration of the loop of [secret_write_bytes] that is not
    aborted, with the state it hands to the next iteration written out. *)
Lemma write_loop_step (req : list Z) (fuel : nat) (addr : Z) (src : nat) (len : Z)
    (st : state) :
  0 < len -> 0 <= addr -> addr + len < 2 ^ 32 ->
  let so := addr mod SECTOR in
  let chunk := Z.min len (SECTOR - so) in
  (src + Z.to_nat chunk <= length req)%nat ->
  secret_abort (poll cfg st) = false ->
  let buf := memcpy_at (xip_read cfg (flash (poll cfg st))
                                 (u32 (XIP_BASE cfg + (addr - so))) (Z.to_nat SECTOR))
                       (Z.to_nat so) (take (Z.to_nat chunk) (drop src req)) in
  write_loop cfg (S fuel) addr req src len st
  = write_loop cfg fuel (addr + chunk) req (src + Z.to_nat chunk)%nat (len - chunk)
      (set_flash (program_pages cfg (pages_per_sector cfg) 0 (addr - so) buf
                    (flash_range_erase (flash (poll cfg st)) (addr - so) SECTOR))
                 (set_sector_buf buf (poll cfg st))).
Proof.
  intros Hlen Haddr Hend so chunk Hsrc Habort buf.
  destruct (hw_sector_pow2 cfg cfg_ok) as (k & Hk & HS).
  pose proof (sector_size_pos cfg cfg_ok) as Hs.
  pose proof (sector_size_32bit cfg cfg_ok) as Hs32.
  pose proof (Z.mod_pos_bound addr SECTOR Hs) as Hso.
  pose proof (Z.mod_le addr SECTOR Haddr Hs) as Hso'.
  fold so in Hso, Hso'.
  assert (Hmask : Z.land addr (u32 (Z.lnot (SECTOR - 1))) = addr - so)
    by (subst so; rewrite HS; apply sector_mask; lia).
  assert (Hchunk : 0 < chunk <= len /\ chunk <= SECTOR - so) by (subst chunk; lia).
  cbn [write_loop].
  assert (Hpos : (0 <? len) = true) by (apply Z.ltb_lt; lia).
  rewrite Hpos, Habort, Hmask.
  replace (u32 (addr - (addr - so))) with so by (rewrite u32_small; lia).
  rewrite (u32_small (SECTOR - so)) by lia.
  replace (if SECTOR - so >? len then len else SECTOR - so) with chunk
    by (subst chunk; rewrite Z.gtb_ltb; destruct (Z.ltb_spec len (SECTOR - so)); lia).
  cbv zeta. rewrite (frame_slice_Some req src (Z.to_nat chunk)) by exact Hsrc.
  rewrite (u32_small (addr + chunk)), (u32_small (len - chunk)) by lia.
  reflexivity.
Qed.

(** After such an iteration the scratch sector and the rewritten flash
    sector hold the same bytes. *)
Lemma scratch_after_step (req : list Z) (addr : Z) (src : nat) (chunk : Z) (st : state) :
  0 <= addr < 2 ^ 32 -> chunk <= SECTOR - addr mod SECTOR ->
  bytes_ok req -> flash_ok (flash st) ->
  let so := addr mod SECTOR in
  let buf := memcpy_at (xip_read cfg (flash (poll cfg st))
                                 (u32 (XIP_BASE cfg + (addr - so))) (Z.to_nat SECTOR))
                       (Z.to_nat so) (take (Z.to_nat chunk) (drop src req)) in
  let f := program_pages cfg (pages_per_sector cfg) 0 (addr - so) buf
             (flash_range_erase (flash (poll cfg st)) (addr - so) SECTOR) in
  buf = flash_bytes f (addr - so) (Z.to_nat SECTOR) /\ flash_ok f.
Proof.
  intros Haddr Hchunk Hreq Hflash so buf f.
  pose proof (sector_size_pos cfg cfg_ok) as Hs.
  pose proof (Z.mod_pos_bound addr SECTOR Hs) as Hso. fold so in Hso, Hchunk.
  destruct (poll_fields cfg st) as (_ & _ & _ & Pf & _).
  assert (Hbuflen : length buf = Z.to_nat SECTOR)
    by (subst buf; rewrite length_memcpy_at; rewrite length_xip_read;
        [reflexivity | rewrite length_take; lia]).
  assert (Hbufok : bytes_ok buf).
  { subst buf. apply bytes_ok_memcpy_at.
    - apply bytes_ok_xip_read. rewrite Pf. exact Hflash.
    - apply bytes_ok_take_drop, Hreq. }
  assert (Hcell : forall a,
             f a = if in_range (addr - so) (addr - so + SECTOR) a
                   then byte_at buf (Z.to_nat (a - (addr - so)))
                   else flash (poll cfg st) a)
    by (intros a; subst f; apply (sector_rewrite cfg cfg_ok); assumption).
  split.
  - apply list_byte_ext; [rewrite length_flash_bytes; exact Hbuflen|].
    intros i Hi. rewrite byte_at_flash_bytes by lia. rewrite Hcell.
    unfold in_range.
    rewrite (proj2 (Z.leb_le _ _)), (proj2 (Z.ltb_lt _ _)) by lia.
    cbn [andb]. f_equal. lia.
  - intros a. rewrite Hcell. destruct (in_range _ _ a).
    + apply bytes_ok_byte_at, Hbufok.
    + rewrite Pf. apply Hflash.
Qed.

(** When the loop of [secret_write_bytes] runs to its end over a
    non-empty range, the scratch sector holds the bytes of the flash sector
    of the last address written. *)
Lemma write_loop_scratch (req : list Z) (fuel : nat) :
  forall (addr : Z) (src : nat) (len : Z) (st st' : state),
    0 < len -> 0 <= addr -> addr + len < 2 ^ 32 ->
    (src + Z.to_nat len <= length req)%nat ->
    bytes_ok req -> flash_ok (flash st) ->
    write_loop cfg fuel addr req src len st = Done (true, st') ->
    secret_sector_buf st'
    = flash_bytes (flash st')
        (addr + len - 1 - (addr + len - 1) mod SECTOR) (Z.to_nat SECTOR).
Proof.
  pose proof (sector_size_pos cfg cfg_ok) as Hs.
  induction fuel as [|fuel IH];
    intros addr src len st st' Hlen Haddr Hend Hsrc Hreq Hflash H; [discriminate|].
  destruct (secret_abort (poll cfg st)) eqn:Habort.
  { cbn [write_loop] in H. rewrite (proj2 (Z.ltb_lt 0 len) Hlen), Habort in H.
    discriminate. }
  pose proof (Z.mod_pos_bound addr SECTOR Hs) as Hso.
  pose proof (Z.div_mod addr SECTOR ltac:(lia)) as Hdm.
  rewrite write_loop_step in H by (try assumption; lia).
  destruct (scratch_after_step req addr src
              (Z.min len (SECTOR - addr mod SECTOR)) st ltac:(lia) ltac:(lia)
              Hreq Hflash)
    as (Hbuf & Hfok).
  set (chunk := Z.min len (SECTOR - addr mod SECTOR)) in *.
  destruct (Z.eq_dec (len - chunk) 0) as [E | E].
  - rewrite E in H. destruct fuel as [|fuel]; [discriminate|].
    cbn [write_loop] in H. rewrite Z.ltb_irrefl in H. injection H as <-.
    cbn [secret_sector_buf flash set_flash set_sector_buf].
    replace ((addr + len - 1) mod SECTOR) with (addr mod SECTOR + len - 1).
    + replace (addr + len - 1 - (addr mod SECTOR + len - 1)) with (addr - addr mod SECTOR)
        by lia.
      exact Hbuf.
    + apply (Z.mod_unique_pos _ _ (addr / SECTOR)); lia.
  - replace (addr + len - 1) with (addr + chunk + (len - chunk) - 1) by lia.
    refine (IH (addr + chunk) (src + Z.to_nat chunk)%nat (len - chunk) _ st'
               _ _ _ _ _ _ H); try assumption; try lia.
Qed.

End Scratch.

(** X15. The scratch sector is never cleared.  After a validated WRITE
    with its payload in the frame that answers OK, [secret_sector_buf]
    holds a copy of the whole flash sector that contains the last byte
    written, as the flash holds it then: the payload bytes that fell into
    that sector stay in RAM, together with the rest of the sector's
    content, until the next WRITE overwrites them. *)
Theorem write_leaves_sector_in_scratch (cfg : config) (fuel : nat) (data : list Z)
    (st : state) (base : nat) (payload : list Z) :
  config_ok cfg ->
  length data = FRAME_SIZE -> bytes_ok data ->
  framed base SECRET_CMD_WRITE data ->
  secret_busy st = false -> flash_ok (flash st) ->
  let offset := read_u32_be data (base + 1) in
  let size := byte_at data (base + 5) in
  let start := SECRET_STORAGE_BASE cfg + offset in
  let last := start + size - 1 in
  let sector_start := last - last mod FLASH_SECTOR_SIZE cfg in
  1 <= size <= 26 ->
  frame_slice data (base + 6) (Z.to_nat size) = Some payload ->
  offset + size <= SECRET_STORAGE_SIZE cfg ->
  size < Z.of_nat fuel ->
  exists resp st',
    raw_hid_receive_kb cfg fuel data st = Done (resp, st')
    /\ (byte_at resp (base + 1) = SECRET_STATUS_OK ->
        secret_sector_buf st'
        = flash_bytes (flash st') sector_start (Z.to_nat (FLASH_SECTOR_SIZE cfg))
        /\ forall a, in_range (Z.max start sector_start) (start + size) a = true ->
                     byte_at (secret_sector_buf st') (Z.to_nat (a - sector_start))
                     = byte_at payload (Z.to_nat (a - start))).
Proof.
  intros Hok Hlen Hbytes Hframed Hbusy Hflash offset size start last sector_start
         Hsize Hpayload Hsum Hfuel.
  pose proof (read_u32_be_range data (base + 1) Hbytes) as Ho. fold offset in Ho.
  pose proof (assert_fits cfg Hok). pose proof (hw_backing_nonneg cfg Hok).
  pose proof (hw_flash_32bit cfg Hok). pose proof (sector_size_pos cfg Hok) as Hsec.
  pose proof (framed_base _ _ _ Hframed) as Hbase.
  destruct (frame_slice_length _ _ _ _ Hpayload) as (Hfit & Hplen & Hpeq).
  assert (Hstart : secret_flash_offset cfg offset = start)
    by (unfold secret_flash_offset, start, SECRET_STORAGE_BASE; apply u32_small; lia).
  assert (Htop : start + size < 2 ^ 32) by (unfold start, SECRET_STORAGE_BASE; lia).
  assert (Hstart0 : 0 <= start) by (unfold start, SECRET_STORAGE_BASE; lia).
  rewrite (serve_write cfg fuel data st base Hlen Hframed Hbusy);
    fold offset size; unfold SECRET_MAX_WRITE; try lia; [|rewrite u32_small; lia].
  unfold secret_write_bytes. rewrite Hstart.
  set (st0 := set_abort false (set_busy true st)).
  destruct (write_loop_any cfg Hok data fuel start (base + 6) size st0)
    as (ok & st1 & Hrun & _ & _ & Hfalse & _ & Hin); try assumption; try lia.
  rewrite Hrun.
  destruct (poll_fields cfg st1) as (Pb & Pa & Ps & Pf & Pp).
  set (st2 := set_busy false (poll cfg st1)).
  assert (Hfalse2 : ok = false -> secret_abort st2 = true).
  { intros E. subst st2. cbn [secret_abort set_busy]. rewrite Pa, (Hfalse E).
    reflexivity. }
  destruct (engine_status_cases ok st2 Hfalse2) as (_ & Hokay).
  exists (status_only base (engine_status ok st2) data), st2.
  rewrite byte_at_status_only by exact Hbase.
  split; [reflexivity|].
  intros Hst. destruct (Hokay Hst) as (-> & _).
  assert (Hscratch : secret_sector_buf st2
                     = flash_bytes (flash st2) sector_start
                         (Z.to_nat (FLASH_SECTOR_SIZE cfg))).
  { subst st2. cbn [secret_sector_buf flash set_busy]. rewrite Ps, Pf.
    apply (write_loop_scratch cfg Hok data fuel start (base + 6) size st0 st1);
      try assumption; lia. }
  split; [exact Hscratch|].
  intros a Ha. unfold in_range in Ha.
  apply andb_true_iff in Ha as (Hlo & Hhi).
  apply Z.leb_le in Hlo. apply Z.ltb_lt in Hhi.
  pose proof (Z.mod_pos_bound last (FLASH_SECTOR_SIZE cfg) Hsec) as Hm.
  rewrite Hscratch, byte_at_flash_bytes by (unfold sector_start, last in *; lia).
  replace (sector_start + Z.of_nat (Z.to_nat (a - sector_start))) with a by lia.
  subst st2. cbn [flash set_busy]. rewrite Pf.
  rewrite (Hin eq_refl a)
    by (unfold in_range;
        rewrite (proj2 (Z.leb_le _ _)), (proj2 (Z.ltb_lt _ _)) by lia; reflexivity).
  rewrite Hpeq, byte_at_take_drop by lia. reflexivity.
Qed.

Lemma write_leaves_sector_in_scratch_witness :
  exists resp st',
    raw_hid_receive_kb rp2040_wide 11 sample_straddle (idle zero_flash [])
    = Done (resp, st')
    /\ (byte_at resp 1 = SECRET_STATUS_OK ->
        secret_sector_buf st' = flash_bytes (flash st') 2084864 (Z.to_nat 4096)
        /\ forall a, in_range (Z.max 2084858 2084864) 2084868 a = true ->
                     byte_at (secret_sector_buf st') (Z.to_nat (a - 2084864))
                     = byte_at [1; 2; 3; 4; 5; 6; 7; 8; 9; 10] (Z.to_nat (a - 2084858))).
Proof.
  destruct (write_leaves_sector_in_scratch rp2040_wide 11 sample_straddle
              (idle zero_flash []) 0 [1; 2; 3; 4; 5; 6; 7; 8; 9; 10]
              rp2040_wide_ok eq_refl (bytes_okb_ok sample_straddle eq_refl)
              (framed_unprefixed SECRET_CMD_WRITE sample_straddle eq_refl eq_refl)
              eq_refl zero_flash_ok)
    as (resp & st' & H).
  - vm_compute. split; discriminate.
  - reflexivity.
  - vm_compute. discriminate.
  - vm_compute. reflexivity.
  - exists resp, st'. exact H.
Defined.

(** ** The two framings *)

Lemma prefixed_view_cleared (data data' : list Z) :
  prefixed_view (byte_at data 0) (cleared data) (cleared data').
Proof.
  unfold prefixed_view. split_ands.
  intros j Hj. rewrite !byte_at_cleared by lia. reflexivity.
Qed.

Lemma prefixed_view_insert (id : Z) (r1 r0 : list Z) (k : nat) (v : Z) :
  prefixed_view id r1 r0 -> (1 <= k <= 30)%nat ->
  prefixed_view id (<[S k := v]> r1) (<[k := v]> r0).
Proof.
  intros (L1 & L0 & H0 & H1 & H) Hk. unfold prefixed_view.
  rewrite !length_insert, !byte_at_insert_ne by lia. split_ands; try assumption.
  intros j Hj. destruct (Nat.eq_dec j k) as [-> | Hne].
  - replace (k + 1)%nat with (S k) by lia.
    rewrite !byte_at_insert_eq by (rewrite ?L1, ?L0; unfold FRAME_SIZE; lia).
    reflexivity.
  - rewrite !byte_at_insert_ne by lia. apply H, Hj.
Qed.

Lemma prefixed_view_write_u32_be (id : Z) (r1 r0 : list Z) (k : nat) (v : Z) :
  prefixed_view id r1 r0 -> (1 <= k)%nat -> (k + 3 <= 30)%nat ->
  prefixed_view id (write_u32_be r1 (S k) v) (write_u32_be r0 k v).
Proof.
  intros H Hk1 Hk2. unfold write_u32_be. cbv zeta.
  apply (prefixed_view_insert id _ _ (k + 3)); [|lia].
  apply (prefixed_view_insert id _ _ (k + 2)); [|lia].
  apply (prefixed_view_insert id _ _ (k + 1)); [|lia].
  apply prefixed_view_insert; [exact H | lia].
Qed.

Lemma prefixed_view_memcpy_at (id : Z) (r1 r0 : list Z) (k : nat) (src : list Z) :
  prefixed_view id r1 r0 -> (1 <= k)%nat -> (k + length src <= 31)%nat ->
  prefixed_view id (memcpy_at r1 (S k) src) (memcpy_at r0 k src).
Proof.
  intros (L1 & L0 & H0 & H1 & H) Hk1 Hk2. unfold prefixed_view.
  unfold FRAME_SIZE in *.
  rewrite !length_memcpy_at by lia.
  rewrite !(byte_at_memcpy_at_out r1) by lia.
  split_ands; try assumption.
  intros j Hj.
  destruct (Nat.lt_ge_cases j k) as [Hlt | Hge].
  - rewrite !byte_at_memcpy_at_out by lia. apply H, Hj.
  - destruct (Nat.lt_ge_cases j (k + length src)) as [Hin | Hout].
    + rewrite !byte_at_memcpy_at_in by lia. f_equal. lia.
    + rewrite !byte_at_memcpy_at_out by lia. apply H, Hj.
Qed.

Lemma byte_at_unprefixed (data : list Z) (x : Z) (j : nat) :
  (j + 1 < length data)%nat ->
  byte_at (drop 1 data ++ [x]) j = byte_at data (j + 1).
Proof.
  intros Hj. unfold byte_at.
  rewrite lookup_app_l by (rewrite length_drop; lia).
  rewrite lookup_drop. do 2 f_equal. lia.
Qed.

Lemma frame_slice_unprefixed (data : list Z) (x : Z) (pos n : nat) :
  (pos + 1 + n <= length data)%nat ->
  frame_slice (drop 1 data ++ [x]) pos n = frame_slice data (pos + 1) n.
Proof.
  intros H.
  rewrite !frame_slice_Some by (rewrite ?length_app, ?length_drop; simpl; lia).
  f_equal. rewrite drop_app_le by (rewrite length_drop; lia).
  rewrite drop_drop, take_app_le by (rewrite !length_drop; lia).
  do 2 f_equal. lia.
Qed.

Lemma write_loop_unprefixed (cfg : config) (data : list Z) (x : Z) (fuel : nat) :
  forall (addr : Z) (src : nat) (len : Z) (st : state),
    0 <= len < 2 ^ 32 ->
    (src + 1 + Z.to_nat len <= length data)%nat ->
    write_loop cfg fuel addr (drop 1 data ++ [x]) src len st
    = write_loop cfg fuel addr data (src + 1) len st.
Proof.
  induction fuel as [|fuel IH]; intros addr src len st Hlen Hsrc; [reflexivity|].
  cbn [write_loop].
  destruct (Z.ltb_spec 0 len) as [Hpos|]; [|reflexivity].
  destruct (secret_abort (poll cfg st)); [reflexivity|].
  cbv zeta.
  match goal with
  | |- context [if ?c0 >? len then len else ?c0] =>
      set (chunk := if c0 >? len then len else c0);
      assert (Hchunk : 0 <= chunk <= len)
        by (subst chunk; rewrite Z.gtb_ltb;
            match goal with
            | |- context [u32 ?e] =>
                pose proof (u32_range e); destruct (Z.ltb_spec len (u32 e)); lia
            end)
  end.
  rewrite frame_slice_unprefixed by lia.
  destruct (frame_slice data (src + 1) (Z.to_nat chunk)); [|reflexivity].
  rewrite (u32_small (len - chunk)) by lia.
  replace (src + 1 + Z.to_nat chunk)%nat with (src + Z.to_nat chunk + 1)%nat by lia.
  apply IH; lia.
Qed.

(** X16. The report-ID prefix is transparent.  A prefixed frame (a WRITE
    with at most 25 bytes) is served exactly like the frame without its
    first byte, whatever byte [x] fills the freed last place: the state
    afterwards is the same, the model returns in the same cases, and the
    response is the unprefixed one moved back by one byte, with the report
    ID in byte 0 and zero at the command position. *)
Theorem report_id_prefix_is_transparent (cfg : config) (fuel : nat) (data : list Z)
    (st : state) (cmd x : Z) :
  length data = FRAME_SIZE -> bytes_ok data ->
  framed 1 cmd data ->
  (cmd = SECRET_CMD_WRITE -> byte_at data 6 <= 25) ->
  match raw_hid_receive_kb cfg fuel (drop 1 data ++ [x]) st with
  | Done (r0, s0) =>
      exists r1, raw_hid_receive_kb cfg fuel data st = Done (r1, s0)
                 /\ prefixed_view (byte_at data 0) r1 r0
  | OutOfBounds => raw_hid_receive_kb cfg fuel data st = OutOfBounds
  | OutOfFuel => raw_hid_receive_kb cfg fuel data st = OutOfFuel
  end.
Proof.
  intros Hlen Hbytes Hframed Hw.
  assert (Hlen' : length (drop 1 data ++ [x]) = FRAME_SIZE)
    by (rewrite length_app, length_drop, Hlen; reflexivity).
  assert (Hsh : forall j, (j <= 30)%nat ->
                          byte_at (drop 1 data ++ [x]) j = byte_at data (j + 1))
    by (intros j Hj; apply byte_at_unprefixed; rewrite Hlen; unfold FRAME_SIZE; lia).
  pose proof Hframed as (Hcmd & [(E & _) | (_ & H0 & H1)]); [discriminate|].
  assert (Hframed' : framed 0 cmd (drop 1 data ++ [x]))
    by (apply framed_unprefixed; [exact Hcmd | rewrite Hsh by lia; exact H1]).
  rewrite (dispatch_framed cfg fuel 0 cmd _ st Hlen' Hframed').
  rewrite (dispatch_framed cfg fuel 1 cmd data st Hlen Hframed).
  unfold serve. cbv zeta. rewrite !response_cleared by assumption.
  cbn [Nat.add].
  assert (Ho : read_u32_be (drop 1 data ++ [x]) 1 = read_u32_be data 2)
    by (unfold read_u32_be; rewrite !Hsh by lia; reflexivity).
  assert (Hs : byte_at (drop 1 data ++ [x]) 5 = byte_at data 6) by (apply Hsh; lia).
  assert (Hz : read_u32_be (drop 1 data ++ [x]) 5 = read_u32_be data 6)
    by (unfold read_u32_be; rewrite !Hsh by lia; reflexivity).
  rewrite Ho, Hs, Hz.
  set (data' := drop 1 data ++ [x]) in *.
  pose proof (prefixed_view_cleared data data') as Hc.
  assert (Hstatus : forall v,
             prefixed_view (byte_at data 0) (<[2%nat := v]> (cleared data))
                           (<[1%nat := v]> (cleared data')))
    by (intros v; apply prefixed_view_insert; [exact Hc | lia]).
  destruct (is_command_cases cmd Hcmd) as [-> | [-> | [-> | ->]]].
  - change (SECRET_CMD_INFO =? SECRET_CMD_INFO) with true. cbv iota.
    eexists. split; [reflexivity|].
    unfold info_response. cbv zeta. cbn [Nat.add].
    apply prefixed_view_insert; [|lia].
    apply prefixed_view_insert; [|lia].
    apply (prefixed_view_write_u32_be _ _ _ 14); [|lia..].
    apply (prefixed_view_write_u32_be _ _ _ 10); [|lia..].
    apply (prefixed_view_write_u32_be _ _ _ 6); [|lia..].
    apply (prefixed_view_write_u32_be _ _ _ 2); [|lia..].
    apply Hstatus.
  - change (SECRET_CMD_READ =? SECRET_CMD_INFO) with false.
    change (SECRET_CMD_READ =? SECRET_CMD_READ) with true. cbv iota.
    destruct (secret_busy st); [eexists; split; [reflexivity | apply Hstatus]|].
    destruct (byte_at data 6 =? 0); cbn [orb];
      [eexists; split; [reflexivity | apply Hstatus]|].
    rewrite Z.gtb_ltb.
    destruct (Z.ltb_spec SECRET_MAX_READ (byte_at data 6)) as [|Hmax];
      [eexists; split; [reflexivity | apply Hstatus]|].
    destruct (_ >? _); [eexists; split; [reflexivity | apply Hstatus]|].
    match goal with
    | |- context [memcpy_at (cleared data) 4 ?b] =>
        assert (Hm : prefixed_view (byte_at data 0) (memcpy_at (cleared data) 4 b)
                                   (memcpy_at (cleared data') 3 b))
          by (apply prefixed_view_memcpy_at; [exact Hc | lia |];
              unfold secret_read_bytes; rewrite length_xip_read;
              unfold SECRET_MAX_READ in Hmax; lia)
    end.
    destruct (secret_abort _); eexists; (split; [reflexivity|]).
    + apply prefixed_view_insert; [exact Hm | lia].
    + apply prefixed_view_insert; [|lia].
      apply prefixed_view_insert; [exact Hm | lia].
  - change (SECRET_CMD_WRITE =? SECRET_CMD_INFO) with false.
    change (SECRET_CMD_WRITE =? SECRET_CMD_READ) with false.
    change (SECRET_CMD_WRITE =? SECRET_CMD_WRITE) with true. cbv iota.
    destruct (secret_busy st); [eexists; split; [reflexivity | apply Hstatus]|].
    destruct (_ || _); [eexists; split; [reflexivity | apply Hstatus]|].
    destruct (_ >? _); [eexists; split; [reflexivity | apply Hstatus]|].
    unfold secret_write_bytes.
    pose proof (bytes_ok_byte_at data 6 Hbytes) as Hsize.
    specialize (Hw eq_refl).
    rewrite (write_loop_unprefixed cfg data x fuel _ 6)
      by (rewrite ?Hlen; unfold FRAME_SIZE; lia).
    cbn [Nat.add].
    destruct (write_loop _ _ _ _ _ _ _) as [[ok st1]| |]; try reflexivity.
    eexists. split; [reflexivity | apply Hstatus].
  - change (SECRET_CMD_ERASE =? SECRET_CMD_INFO) with false.
    change (SECRET_CMD_ERASE =? SECRET_CMD_READ) with false.
    change (SECRET_CMD_ERASE =? SECRET_CMD_WRITE) with false.
    change (SECRET_CMD_ERASE =? SECRET_CMD_ERASE) with true. cbv iota.
    destruct (secret_busy st); [eexists; split; [reflexivity | apply Hstatus]|].
    destruct (_ =? 0); [eexists; split; [reflexivity | apply Hstatus]|].
    destruct (_ >? _); [eexists; split; [reflexivity | apply Hstatus]|].
    destruct (_ || _); [eexists; split; [reflexivity | apply Hstatus]|].
    destruct (secret_erase_range _ _ _ _ _) as [[ok st1]| |]; try reflexivity.
    eexists. split; [reflexivity | apply Hstatus].
Qed.

Lemma report_id_prefix_is_transparent_witness :
  exists r1,
    raw_hid_receive_kb rp2040_example 1 (frame_of [0x07; 0xA1; 0; 0; 0; 0; 26])
                       (idle erased_flash [])
    = Done (r1, idle erased_flash [])
    /\ prefixed_view 0x07 r1 ([0xA1; 0; 26] ++ replicate 26 0xFF ++ replicate 3 0).
Proof.
  pose proof (report_id_prefix_is_transparent rp2040_example 1
                (frame_of [0x07; 0xA1; 0; 0; 0; 0; 26]) (idle erased_flash [])
                SECRET_CMD_READ 0 eq_refl
                (bytes_okb_ok (frame_of [0x07; 0xA1; 0; 0; 0; 0; 26]) eq_refl)
                (framed_prefixed SECRET_CMD_READ
                   (frame_of [0x07; 0xA1; 0; 0; 0; 0; 26]) eq_refl eq_refl eq_refl)
                ltac:(discriminate)) as H.
  assert (E : raw_hid_receive_kb rp2040_example 1
                (drop 1 (frame_of [0x07; 0xA1; 0; 0; 0; 0; 26]) ++ [0])
                (idle erased_flash [])
              = Done ([0xA1; 0; 26] ++ replicate 26 0xFF ++ replicate 3 0,
                      idle erased_flash []))
    by (vm_compute; reflexivity).
  rewrite E in H. exact H.
Defined.

(** ** Command classification *)

Lemma is_command_codes (c : Z) :
  is_command c = true <-> In c [0xA0; 0xA1; 0xA2; 0xA3].
Proof.
  split.
  - intros H. destruct (is_command_cases c H) as [-> | [-> | [-> | ->]]];
      simpl; tauto.
  - intros [<- | [<- | [<- | [<- | []]]]]; reflexivity.
Qed.

(** C8. Classification looks at byte 0 first and at byte 1 second.  A
    frame whose byte 0 is one of the codes [0xA0 .. 0xA3] is served as
    that command without prefix, whatever byte 1 is; a frame whose byte 0
    is none of them and whose byte 1 is one is served as that command
    behind a report ID.  What "served as command [cmd] at [base]" means is
    spelled out on the response: byte 0 of the request is kept, a prefixed
    response has zero at the command position, the byte behind the command
    position is a status code; INFO answers OK with the limits 28 and 26 of
    its descriptor in place and the state as it was; any other command is
    answered BUSY while [secret_busy] is up; a READ or WRITE is answered
    ERR when the byte five places behind the command is 0, a WRITE also
    when it exceeds 26 while a READ with 1 to 28 there is never answered
    ERR, and an ERASE is answered ERR when the four bytes from there on are
    0.  A frame with none of the codes in byte 0 and byte 1 gets [0xFF] in
    byte 0 and nothing else changes. *)
Theorem classification_order (cfg : config) (fuel : nat) (data : list Z) (st : state) :
  length data = FRAME_SIZE ->
  (forall (base : nat) (cmd : Z),
      In cmd [0xA0; 0xA1; 0xA2; 0xA3] ->
      (base = 0%nat /\ byte_at data 0 = cmd)
      \/ (base = 1%nat /\ ~ In (byte_at data 0) [0xA0; 0xA1; 0xA2; 0xA3]
          /\ byte_at data 1 = cmd) ->
      (forall resp st',
          raw_hid_receive_kb cfg fuel data st = Done (resp, st') ->
          byte_at resp 0 = byte_at data 0
          /\ (base = 1%nat -> byte_at resp 1 = 0)
          /\ In (byte_at resp (base + 1)) [0x00; 0x01; 0x02; 0x03; 0x04; 0x05])
      /\ (cmd = 0xA0 ->
          exists resp,
            raw_hid_receive_kb cfg fuel data st = Done (resp, st)
            /\ byte_at resp (base + 1) = 0x00
            /\ byte_at resp (base + 18) = 28
            /\ byte_at resp (base + 19) = 26)
      /\ (cmd <> 0xA0 -> secret_busy st = true ->
          raw_hid_receive_kb cfg fuel data st = Done (status_only base 0x02 data, st))
      /\ (cmd = 0xA1 \/ cmd = 0xA2 -> secret_busy st = false ->
          byte_at data (base + 5) = 0 ->
          raw_hid_receive_kb cfg fuel data st = Done (status_only base 0x01 data, st))
      /\ (cmd = 0xA2 -> secret_busy st = false -> 26 < byte_at data (base + 5) ->
          raw_hid_receive_kb cfg fuel data st = Done (status_only base 0x01 data, st))
      /\ (cmd = 0xA1 -> secret_busy st = false -> 1 <= byte_at data (base + 5) <= 28 ->
          exists resp st',
            raw_hid_receive_kb cfg fuel data st = Done (resp, st')
            /\ byte_at resp (base + 1) <> 0x01)
      /\ (cmd = 0xA3 -> secret_busy st = false -> read_u32_be data (base + 5) = 0 ->
          raw_hid_receive_kb cfg fuel data st = Done (status_only base 0x01 data, st)))
  /\ (~ In (byte_at data 0) [0xA0; 0xA1; 0xA2; 0xA3] ->
      ~ In (byte_at data 1) [0xA0; 0xA1; 0xA2; 0xA3] ->
      raw_hid_receive_kb cfg fuel data st = Done (<[0%nat := 0xFF]> data, st)).
Proof.
  intros Hlen. split.
  - intros base cmd Hin Hcase.
    assert (Hcmd : is_command cmd = true) by (apply is_command_codes; exact Hin).
    assert (Hframed : framed base cmd data).
    { split; [exact Hcmd|].
      destruct Hcase as [(-> & E) | (-> & Hn & E)]; [left; auto|].
      right. split; [reflexivity|]. split; [|exact E].
      destruct (is_command (byte_at data 0)) eqn:E0; [|reflexivity].
      exfalso. apply Hn, is_command_codes, E0. }
    pose proof (framed_base _ _ _ Hframed) as Hbase.
    rewrite (dispatch_framed cfg fuel base cmd data st Hlen Hframed).
    assert (Hclen : forall v, length (<[(base + 1)%nat := v]> (cleared data)) = FRAME_SIZE)
      by (intros v; rewrite length_insert; apply length_cleared).
    split_ands.
    + intros resp st' H.
      destruct (serve_status_slot cfg fuel base cmd data st resp st' Hbase Hcmd Hlen H)
        as (Hs & Hz).
      split_ands.
      * apply (serve_echo cfg fuel base cmd data st resp st' Hlen Hbase H).
      * intros ->. apply Hz. lia.
      * exact Hs.
    + intros ->. unfold serve. cbv zeta. rewrite response_cleared by exact Hlen.
      change (160 =? SECRET_CMD_INFO) with true. cbv iota.
      eexists. split; [reflexivity|].
      split; [apply byte_at_info_response_status; rewrite length_cleared;
              unfold FRAME_SIZE; lia|].
      unfold info_response. cbv zeta. split.
      * rewrite byte_at_insert_ne by lia. apply byte_at_insert_eq.
        rewrite !length_write_u32_be, length_insert, length_cleared.
        unfold FRAME_SIZE. lia.
      * apply byte_at_insert_eq.
        rewrite length_insert, !length_write_u32_be, length_insert, length_cleared.
        unfold FRAME_SIZE. lia.
    + intros Hne Hbusy. unfold serve. cbv zeta.
      rewrite response_cleared by exact Hlen.
      rewrite (proj2 (Z.eqb_neq cmd SECRET_CMD_INFO) Hne), Hbusy. reflexivity.
    + intros Hc Hbusy Hsize. unfold serve. cbv zeta.
      rewrite response_cleared by exact Hlen. rewrite Hbusy, Hsize.
      destruct Hc as [-> | ->]; reflexivity.
    + intros -> Hbusy Hsize. unfold serve. cbv zeta.
      rewrite response_cleared by exact Hlen. rewrite Hbusy.
      change (162 =? SECRET_CMD_INFO) with false.
      change (162 =? SECRET_CMD_READ) with false.
      change (162 =? SECRET_CMD_WRITE) with true. cbv iota.
      assert (E : (byte_at data (base + 5) >? SECRET_MAX_WRITE) = true)
        by (rewrite Z.gtb_ltb; apply Z.ltb_lt; exact Hsize).
      rewrite E, orb_true_r. reflexivity.
    + intros -> Hbusy Hsize. unfold serve. cbv zeta.
      rewrite response_cleared by exact Hlen. rewrite Hbusy.
      change (161 =? SECRET_CMD_INFO) with false.
      change (161 =? SECRET_CMD_READ) with true. cbv iota.
      rewrite (proj2 (Z.eqb_neq _ 0)), gtb_false by (unfold SECRET_MAX_READ; lia).
      cbn [orb].
      destruct (_ >? _).
      * eexists _, _. split; [reflexivity|].
        rewrite byte_at_insert_eq by (rewrite length_cleared; unfold FRAME_SIZE; lia).
        discriminate.
      * match goal with
        | |- context [memcpy_at (cleared data) (base + 3) ?b] =>
            assert (Hm : length (memcpy_at (cleared data) (base + 3) b) = FRAME_SIZE)
              by (unfold secret_read_bytes;
                  rewrite length_memcpy_at; rewrite ?length_xip_read, ?length_cleared;
                  unfold FRAME_SIZE in *; lia)
        end.
        destruct (secret_abort _); eexists _, _; (split; [reflexivity|]).
        -- rewrite byte_at_insert_eq by (rewrite Hm; unfold FRAME_SIZE; lia).
           discriminate.
        -- rewrite byte_at_insert_ne by lia.
           rewrite byte_at_insert_eq by (rewrite Hm; unfold FRAME_SIZE; lia).
           discriminate.
    + intros -> Hbusy Hsize. unfold serve. cbv zeta.
      rewrite response_cleared by exact Hlen. rewrite Hbusy, Hsize. reflexivity.
  - intros Hn0 Hn1. unfold raw_hid_receive_kb. rewrite frame_copy by exact Hlen.
    cbv zeta.
    destruct (is_command (byte_at data 0)) eqn:E0;
      [exfalso; apply Hn0, is_command_codes, E0|].
    destruct (is_command (byte_at data 1)) eqn:E1;
      [exfalso; apply Hn1, is_command_codes, E1|].
    reflexivity.
Qed.

Lemma classification_order_witness :
  raw_hid_receive_kb rp2040_example 1 (frame_of [0xA1; 0xA0]) (idle erased_flash [])
  = Done (0xA1 :: 0x01 :: replicate 30 0, idle erased_flash [])
  /\ (exists resp,
         raw_hid_receive_kb rp2040_example 1 (frame_of [0x07; 0xA0]) (idle erased_flash [])
         = Done (resp, idle erased_flash [])
         /\ byte_at resp 2 = 0x00 /\ byte_at resp 19 = 28 /\ byte_at resp 20 = 26)
  /\ raw_hid_receive_kb rp2040_example 1 (frame_of [0x00; 0x07]) (idle erased_flash [])
     = Done (0xFF :: 0x07 :: replicate 30 0, idle erased_flash []).
Proof.
  split; [|split].
  - destruct (classification_order rp2040_example 1 (frame_of [0xA1; 0xA0])
                (idle erased_flash []) eq_refl) as (H & _).
    destruct (H 0%nat 0xA1) as (_ & _ & _ & Herr & _).
    + simpl. tauto.
    + left. split; reflexivity.
    + apply Herr; [left; reflexivity | reflexivity | reflexivity].
  - destruct (classification_order rp2040_example 1 (frame_of [0x07; 0xA0])
                (idle erased_flash []) eq_refl) as (H & _).
    destruct (H 1%nat 0xA0) as (_ & Hinfo & _).
    + simpl. tauto.
    + right. split; [reflexivity|]. split; [|reflexivity].
      intros [E | [E | [E | [E | []]]]]; discriminate E.
    + apply Hinfo. reflexivity.
  - destruct (classification_order rp2040_example 1 (frame_of [0x00; 0x07])
                (idle erased_flash []) eq_refl) as (_ & H).
    apply H; intros [E | [E | [E | [E | []]]]]; discriminate E.
Defined.
